(** * The storyline engine of docu-maker

    A shallow embedding of [app/src/lib/storylineGenerator.ts] and of the types
    it uses from [app/src/types/index.ts], followed by the properties of the
    engine that the specification states.

    Conventions of the embedding.
    - A JavaScript [number] holding a score is an exact rational ([Q]); the
      rounding error of IEEE doubles is not modelled.  Counts, lengths and
      streaks are [nat]; timestamps, years and target lengths are [Z].
    - A JavaScript string is a [string] of 8-bit characters; [toLowerCase],
      [trim] and the regular-expression class [\w] act on ASCII.  The
      property that reads the lower-cased tags is stated for ASCII tags
      ([AsciiTags]).
    - [Math.log] and [new Date(s).getTime()] belong to the host.  They are
      Section variables of the engine: [Math_log : Q -> Q] and
      [Date_getTime : string -> Z].  The latter is total, so every date is
      taken to parse (an unparsable date gives [NaN], and the order in which
      [Array.prototype.sort] leaves an array under an inconsistent comparator
      is implementation-defined).  The properties that depend on the order of
      the dates are stated for dates that parse: they take the host's parser
      [Date_parse : string -> option Z] and assume [Parsed] or [DatesParse].
    - A JavaScript [Map] is an insertion-ordered association list ([JsMap]),
      a [Set] of strings a duplicate-free list in insertion order.
    - The only exception the engine can raise is the [TypeError] of reading a
      property of [undefined]; fallible code returns in [Completion]. *)

From Stdlib Require Import ZArith QArith Qround Qabs List String Ascii Bool Arith Lia Lqa.
From Stdlib Require Import DecimalString DecimalZ DecimalPos Permutation Sorted.
Import ListNotations.

Close Scope Q_scope.
Open Scope string_scope.

(** ** Strings of the host *)

Module JsString.

Definition lowerChar (c : ascii) : ascii :=
  let n := nat_of_ascii c in
  if (65 <=? n)%nat && (n <=? 90)%nat then ascii_of_nat (n + 32) else c.

(** [s.toLowerCase()] *)
Fixpoint toLowerCase (s : string) : string :=
  match s with
  | EmptyString => EmptyString
  | String c r => String (lowerChar c) (toLowerCase r)
  end.

Definition isSpace (c : ascii) : bool :=
  let n := nat_of_ascii c in
  (n =? 32)%nat || ((9 <=? n)%nat && (n <=? 13)%nat).

Fixpoint trimStart (s : string) : string :=
  match s with
  | EmptyString => EmptyString
  | String c r => if isSpace c then trimStart r else s
  end.

Fixpoint trimEnd (s : string) : string :=
  match s with
  | EmptyString => EmptyString
  | String c r =>
      match trimEnd r with
      | EmptyString => if isSpace c then EmptyString else String c EmptyString
      | r' => String c r'
      end
  end.

(** [s.trim()] *)
Definition trim (s : string) : string := trimEnd (trimStart s).

(** [s.length === 0], the falsiness of a string *)
Definition isEmpty (s : string) : bool :=
  match s with EmptyString => true | String _ _ => false end.

(** [text.includes(needle)] *)
Fixpoint includes (text needle : string) : bool :=
  if prefix needle text then true
  else match text with
       | EmptyString => false
       | String _ r => includes r needle
       end.

(** [parts.join(sep)] *)
Fixpoint join (sep : string) (parts : list string) : string :=
  match parts with
  | [] => EmptyString
  | [p] => p
  | p :: rest => p ++ sep ++ join sep rest
  end.

(** [l.includes(x)] on an array of strings *)
Definition mem (x : string) (l : list string) : bool := existsb (String.eqb x) l.

(** [Array.from(new Set(l))]: the first occurrence of every element, in order *)
Fixpoint dedupe_acc (seen l : list string) : list string :=
  match l with
  | [] => []
  | x :: r => if mem x seen then dedupe_acc seen r else x :: dedupe_acc (x :: seen) r
  end.

Definition dedupe (l : list string) : list string := dedupe_acc [] l.

(** [s.lastIndexOf(' ')], [-1] when there is none *)
Fixpoint lastIndexOf_from (i : Z) (c : ascii) (s : string) : Z :=
  match s with
  | EmptyString => (-1)%Z
  | String d r =>
      let later := lastIndexOf_from (i + 1) c r in
      if (0 <=? later)%Z then later
      else if Ascii.eqb c d then i else (-1)%Z
  end.

Definition lastIndexOf (c : ascii) (s : string) : Z := lastIndexOf_from 0 c s.

(** [s.slice(0, n)] for [n >= 0] *)
Definition slice0 (n : nat) (s : string) : string := substring 0 n s.

(** the string a template literal prints for an integer *)
Definition ofZ (z : Z) : string := NilZero.string_of_int (Z.to_int z).

(** *** Whole-word matching: [text.match(new RegExp("\\b" + word + "\\b", "g"))]
    for a [word] that [escapeRegex] has made literal. *)

Definition isWordChar (c : ascii) : bool :=
  let n := nat_of_ascii c in
  ((48 <=? n)%nat && (n <=? 57)%nat)
  || ((65 <=? n)%nat && (n <=? 90)%nat)
  || ((97 <=? n)%nat && (n <=? 122)%nat)
  || (n =? 95)%nat.

Definition isWordAt (o : option ascii) : bool :=
  match o with Some c => isWordChar c | None => false end.

(** the assertion [\b] between two neighbouring positions *)
Definition wordBoundary (before after : option ascii) : bool :=
  xorb (isWordAt before) (isWordAt after).

Definition headChar (s : string) : option ascii :=
  match s with EmptyString => None | String c _ => Some c end.

Fixpoint lastChar (s : string) : option ascii :=
  match s with
  | EmptyString => None
  | String c EmptyString => Some c
  | String _ r => lastChar r
  end.

Fixpoint stripPrefix (p s : string) : option string :=
  match p, s with
  | EmptyString, _ => Some s
  | String a p', String b s' => if Ascii.eqb a b then stripPrefix p' s' else None
  | String _ _, EmptyString => None
  end.

Definition matchAt (before : option ascii) (word text : string) : bool :=
  wordBoundary before (headChar text)
  && match stripPrefix word text with
     | Some rest => wordBoundary (lastChar word) (headChar rest)
     | None => false
     end.

(** the number of matches of the global search; after a match the search
    resumes behind it ([skip] characters are passed over) *)
Fixpoint countWordMatches_from (before : option ascii) (skip : nat) (word text : string) : nat :=
  match text with
  | EmptyString => 0
  | String c rest =>
      match skip with
      | S k => countWordMatches_from (Some c) k word rest
      | O =>
          if matchAt before word text
          then S (countWordMatches_from (Some c) (String.length word - 1) word rest)
          else countWordMatches_from (Some c) 0 word rest
      end
  end.

Definition countWordMatches (word text : string) : nat :=
  countWordMatches_from None 0 word text.

End JsString.

(** ** A host clock for the worked examples

    [isoDateGetTime] is [new Date(s).getTime()] on the date-only form
    [YYYY-MM-DD] (midnight UTC, in milliseconds); it is the instance of
    [Date_getTime] the examples run with. *)

Module IsoDate.

Definition digit (c : ascii) : option Z :=
  let n := nat_of_ascii c in
  if (48 <=? n)%nat && (n <=? 57)%nat then Some (Z.of_nat (n - 48)) else None.

Fixpoint digits (acc : Z) (s : string) : option Z :=
  match s with
  | EmptyString => Some acc
  | String c r =>
      match digit c with
      | Some d => digits (10 * acc + d) r
      | None => None
      end
  end.

Definition daysFromCivil (y m d : Z) : Z :=
  let y' := (if m <=? 2 then y - 1 else y)%Z in
  let era := (y' / 400)%Z in
  let yoe := (y' - era * 400)%Z in
  let mp := (if 2 <? m then m - 3 else m + 9)%Z in
  let doy := ((153 * mp + 2) / 5 + d - 1)%Z in
  let doe := (yoe * 365 + yoe / 4 - yoe / 100 + doy)%Z in
  (era * 146097 + doe - 719468)%Z.

Definition DAY_MS : Z := 1000 * 60 * 60 * 24.

Definition isoDateGetTime (s : string) : Z :=
  match digits 0 (substring 0 4 s), digits 0 (substring 5 2 s), digits 0 (substring 8 2 s) with
  | Some y, Some m, Some d => (daysFromCivil y m d * DAY_MS)%Z
  | _, _, _ => 0%Z
  end.

End IsoDate.

(** ** [Map<string, V>]: insertion-ordered, one entry per key *)

Module JsMap.

Section Ops.
Context {V : Type}.

Definition t := list (string * V).

Definition empty : t := [].

Fixpoint get (m : t) (k : string) : option V :=
  match m with
  | [] => None
  | (k', v) :: r => if String.eqb k k' then Some v else get r k
  end.

(** [m.set(k, v)]: an existing key keeps its place *)
Fixpoint set (m : t) (k : string) (v : V) : t :=
  match m with
  | [] => [(k, v)]
  | (k', v') :: r => if String.eqb k k' then (k', v) :: r else (k', v') :: set r k v
  end.

End Ops.

Arguments t : clear implicits.

End JsMap.

(** [Set<string>] *)
Module JsSet.

Definition t := list string.

Definition has (s : t) (x : string) : bool := JsString.mem x s.

Definition add (s : t) (x : string) : t := if has s x then s else (s ++ [x])%list.

Definition size (s : t) : nat := List.length s.

End JsSet.

(** ** Completion of fallible code *)

Inductive Completion (A : Type) : Type :=
| Normal (a : A)
| TypeError.

Arguments Normal {A} a.
Arguments TypeError {A}.

Definition bind {A B : Type} (c : Completion A) (k : A -> Completion B) : Completion B :=
  match c with
  | Normal a => k a
  | TypeError => TypeError
  end.

Notation "x <- c ;; k" := (bind c (fun x => k))
  (at level 61, c at next level, right associativity).

(** ** Numbers of the host *)

(** [Math.round]: to the nearest integer, a tie towards plus infinity *)
Definition Math_round (x : Q) : Z := Qfloor (x + (1 # 2))%Q.

(** [Number(x.toFixed(3))]: the nearest multiple of a thousandth, a tie away
    from zero *)
Definition toFixed3 (x : Q) : Q :=
  if Qle_bool 0 x then (Qfloor (x * 1000 + (1 # 2)) # 1000)%Q
  else (- (Qfloor (- x * 1000 + (1 # 2)) # 1000))%Q.

Definition Qgt_bool (x y : Q) : bool := negb (Qle_bool x y).

(** [Math.max] on two finite numbers *)
Definition Math_max (x y : Q) : Q := if Qle_bool x y then y else x.

Definition ofNat (n : nat) : Q := inject_Z (Z.of_nat n).

(** [l.slice().sort(cmp)] for a consistent comparator: the stable sort, by
    insertion.  [cmp a b] is the number the comparator returns. *)
Section ArraySort.
Context {A : Type} (cmp : A -> A -> Z).

Fixpoint Array_insert (x : A) (l : list A) : list A :=
  match l with
  | [] => [x]
  | y :: r => if (cmp y x <? 0)%Z then y :: Array_insert x r else x :: l
  end.

Definition Array_sort (l : list A) : list A := fold_right Array_insert [] l.

End ArraySort.

(** [Array.from(new Set(l))] on numbers *)
Fixpoint dedupeZ (seen l : list Z) : list Z :=
  match l with
  | [] => []
  | x :: r => if existsb (Z.eqb x) seen then dedupeZ seen r else x :: dedupeZ (x :: seen) r
  end.

(** [Object.entries(o)] of an object used as a dictionary: the keys that are
    array indices first, in ascending numeric order, then the other keys in
    the order of their creation. *)
Definition arrayIndex (k : string) : option Z :=
  match k with
  | EmptyString => None
  | String c r =>
      if Ascii.eqb c "0" && negb (JsString.isEmpty r) then None
      else match IsoDate.digits 0 k with
           | Some n => if (n <=? 4294967294)%Z then Some n else None
           | None => None
           end
  end.

Definition isIndexKey {V : Type} (e : string * V) : bool :=
  match arrayIndex (fst e) with Some _ => true | None => false end.

Definition indexOfKey {V : Type} (e : string * V) : Z :=
  match arrayIndex (fst e) with Some n => n | None => 0%Z end.

Definition Object_entries {V : Type} (o : JsMap.t V) : list (string * V) :=
  (Array_sort (fun a b => (indexOfKey a - indexOfKey b)%Z) (filter isIndexKey o)
   ++ filter (fun e => negb (isIndexKey e)) o)%list.

(** ** The data model ([types/index.ts]) *)

Module Media.
Inductive kind := image | video | audio.
Record t := mk { id : string; type : kind; url : string; caption : option string }.
End Media.

Module Anecdote.
Record t := mk {
  id : string;
  date : string;
  year : Z;
  title : string;
  story : string;
  storyteller : string;
  location : string;
  notes : string;
  media : list Media.t;
  tags : list string;
  createdAt : Z;
  updatedAt : Z
}.
End Anecdote.

(** The styles the generator uses, the keys of [STYLE_TONE]. *)
Inductive StorylineStyle := Style50cent | StyleJesse | StyleCoogler | StyleHybrid.

Inductive ConnectionType := ConnTag | ConnStoryteller | ConnLocation | ConnChronology.

Module StorylineConnection.
Record t := mk { type : ConnectionType; label : string }.
End StorylineConnection.

Module StorylineScoreBreakdown.
Record t := mk {
  total : Q;
  sharedTagScore : Q;
  storytellerScore : Q;
  locationScore : Q;
  chronologyScore : Q;
  recencyScore : Q;
  themeScore : Q;
  usagePenalty : Q;
  modePenalty : Q;
  storytellerStreak : nat;
  sharedTags : list string;
  previousAnecdoteId : string;
  candidateAnecdoteId : string
}.
End StorylineScoreBreakdown.

(** [AnecdoteMeta = Anecdote & { _timestamp; _text; _tags }] *)
Record AnecdoteMeta := mkMeta {
  anecdote :> Anecdote.t;
  _timestamp : Z;
  _text : string;
  _tags : list string
}.

Module StorylineBeat.
Record t := mk {
  id : string;
  anecdote : AnecdoteMeta;
  summary : string;
  voiceover : string;
  connection : option StorylineConnection.t;
  intensity : Z;
  debug : option StorylineScoreBreakdown.t
}.
End StorylineBeat.

Module Timeframe.
Record t := mk { start : string; end_ : string; years : list Z }.
End Timeframe.

Module Storyline.
Record t := mk {
  id : string;
  title : string;
  description : string;
  style : StorylineStyle;
  tone : string;
  openingLine : string;
  closingLine : string;
  beats : list StorylineBeat.t;
  tags : list string;
  timeframe : Timeframe.t
}.
End Storyline.

Inductive RecipeMode := ModeChronological | ModeTag | ModeImpact | ModeCommunity.

Module StorylineRecipe.
Record t := mk {
  id : string;
  title : string;
  description : string;
  style : StorylineStyle;
  mode : RecipeMode;
  focusTags : list string;
  focusKeywords : list string
}.
End StorylineRecipe.

Module ThemeScore.
Record t := mk {
  total : Q;
  tagScore : Q;
  keywordScore : Q;
  impactScore : Q
}.
End ThemeScore.

Definition TagWeights := JsMap.t Q.

Record ChainBuildResult := mkChain {
  chain : list AnecdoteMeta;
  debugByBeat : JsMap.t StorylineScoreBreakdown.t
}.

(** ** Constants *)

Definition NIGHTLIFE_TAGS : list string :=
  ["dj"; "dance"; "club"; "night"; "party"; "show"; "venue"; "live"].
Definition NIGHTLIFE_KEYWORDS : list string :=
  ["dj"; "dance"; "club"; "night"; "party"; "show"; "stage"; "crowd"; "set"; "bass";
   "dancefloor"; "venue"; "afterparty"].
Definition IMPACT_KEYWORDS : list string :=
  ["first"; "sold out"; "breakthrough"; "headline"; "festival"; "tour"; "radio"; "award";
   "viral"; "mainstream"; "debut"; "record"; "packed"; "historic"].
Definition COMMUNITY_KEYWORDS : list string :=
  ["community"; "diaspora"; "collective"; "organizer"; "student"; "campus"; "family";
   "roots"; "culture"; "heritage"; "immigrant"; "neighbors"].

Definition STYLE_TONE (s : StorylineStyle) : string :=
  match s with
  | Style50cent => "Gritty, first-person energy with swagger"
  | StyleJesse => "Measured, human-centered reporting with reflective edges (Jesse Washington cut)"
  | StyleCoogler => "Cinematic, character-driven with emotional build and hope"
  | StyleHybrid => "Cinematic with journalistic edge"
  end.

Definition YEAR_MS : Z := 1000 * 60 * 60 * 24 * 365.

Module SCORE_WEIGHTS.
Definition sharedTag : Q := 2.4.
Definition storytellerBase : Q := 3.
Definition storytellerMin : Q := 0.8.
Definition storytellerDecay : Q := 1.35.
Definition storytellerVarietyBonus : Q := 1.2.
Definition location : Q := 1.75.
Definition chronologicalForward : Q := 2.4.
Definition timeWithinYear : Q := 1.25.
Definition timeWithin3Years : Q := 0.4.
Definition usagePenalty : Q := 1.1.
Definition chronologicalBacktrackPenalty : Q := 4.5.
Definition themeTagWeight : Q := 2.9.
Definition themeKeywordWeight : Q := 1.6.
Definition impactModeMultiplier : Q := 1.2.
Definition startImpactBoost : Q := 0.5.
Definition startUsagePenalty : Q := 1.4.
End SCORE_WEIGHTS.

(** ** The engine ([lib/storylineGenerator.ts]) *)

Section Engine.

(** the host's [Math.log] *)
Variable Math_log : Q -> Q.
(** the host's [new Date(s).getTime()] *)
Variable Date_getTime : string -> Z.

Definition buildText (a : Anecdote.t) : string :=
  JsString.toLowerCase
    (Anecdote.title a ++ " " ++ Anecdote.story a ++ " " ++ Anecdote.notes a ++ " "
     ++ Anecdote.location a ++ " " ++ Anecdote.storyteller a ++ " "
     ++ JsString.join " " (Anecdote.tags a)).

Definition toMeta (anecdotes : list Anecdote.t) : list AnecdoteMeta :=
  map (fun a =>
         {| anecdote := a;
            _timestamp := Date_getTime (Anecdote.date a);
            _text := buildText a;
            _tags := map JsString.toLowerCase (Anecdote.tags a) |})
      anecdotes.

Definition countMatches (text : string) (keywords : list string) : nat :=
  fold_left
    (fun count keyword =>
       let normalized := JsString.toLowerCase (JsString.trim keyword) in
       if JsString.isEmpty normalized then count
       else if JsString.includes normalized " "
            then count + (if JsString.includes text normalized then 1 else 0)
            else count + Nat.min 3 (JsString.countWordMatches normalized text))
    keywords 0.

Definition countTagMatches (tags focus : list string) : nat :=
  match focus with
  | [] => 0
  | _ =>
      let set := JsString.dedupe tags in
      fold_left (fun count tag => if JsSet.has set tag then count + 1 else count) focus 0
  end.

Definition sharedTags (a b : AnecdoteMeta) : list string :=
  filter (fun tag => JsString.mem tag (_tags b)) (_tags a).

Definition computeImpactScore (a : AnecdoteMeta) : nat :=
  let score := 0 in
  let score := score + countMatches (_text a) IMPACT_KEYWORDS in
  let score := if JsString.mem "milestone" (_tags a) then score + 2 else score in
  let score := if JsString.mem "concert" (_tags a) then score + 2 else score in
  let score := if JsString.mem "festival" (_tags a) then score + 2 else score in
  let score := if JsString.includes (_text a) "sold out" then score + 2 else score in
  score.

(** [m.get(k) || 0] on a map of counts *)
Definition getOr0 (m : JsMap.t nat) (k : string) : nat :=
  match JsMap.get m k with Some n => n | None => 0 end.

(** the weight [Number((Math.log((totalDocs + 1) / (docCount + 1)) + 1).toFixed(3))] *)
Definition idfWeight (totalDocs docCount : nat) : Q :=
  toFixed3 (Math_log (ofNat (totalDocs + 1) / ofNat (docCount + 1)) + 1)%Q.

(** [uniqueTags.forEach(tag => tagDocs.set(tag, (tagDocs.get(tag) || 0) + 1))] *)
Definition countDocument (tagDocs : JsMap.t nat) (uniqueTags : list string) : JsMap.t nat :=
  fold_left (fun tagDocs tag => JsMap.set tagDocs tag (getOr0 tagDocs tag + 1))
            uniqueTags tagDocs.

(** the first loop of [computeTagWeights]: in how many items every tag occurs *)
Definition tagDocsOf (items : list AnecdoteMeta) : JsMap.t nat :=
  fold_left
    (fun tagDocs item =>
       let uniqueTags := JsString.dedupe (_tags item) in
       countDocument tagDocs uniqueTags)
    items JsMap.empty.

Definition computeTagWeights (items : list AnecdoteMeta) : TagWeights :=
  let tagDocs := tagDocsOf items in
  let totalDocs := Nat.max 1 (List.length items) in
  fold_left
    (fun weights entry =>
       let '(tag, docCount) := entry in
       JsMap.set weights tag (idfWeight totalDocs docCount))
    tagDocs JsMap.empty.

(** [tagWeights.get(tag) || 1] *)
Definition weightOr1 (tagWeights : TagWeights) (tag : string) : Q :=
  match JsMap.get tagWeights tag with
  | Some w => if Qeq_bool w 0 then 1%Q else w
  | None => 1%Q
  end.

Definition computeThemeScore (a : AnecdoteMeta) (recipe : StorylineRecipe.t)
    (tagWeights : TagWeights) : ThemeScore.t :=
  let themeTagMatches := countTagMatches (_tags a) (StorylineRecipe.focusTags recipe) in
  let tagScore :=
    if (themeTagMatches =? 0)%nat then 0%Q
    else
      let weightedTags :=
        fold_left
          (fun sum tag =>
             if negb (JsString.mem tag (_tags a)) then sum
             else (sum + weightOr1 tagWeights tag)%Q)
          (StorylineRecipe.focusTags recipe) 0%Q in
      (0 + weightedTags * SCORE_WEIGHTS.themeTagWeight)%Q in
  let keywordScore :=
    (ofNat (countMatches (_text a) (StorylineRecipe.focusKeywords recipe))
     * SCORE_WEIGHTS.themeKeywordWeight)%Q in
  let impactScore :=
    match StorylineRecipe.mode recipe with
    | ModeImpact => (ofNat (computeImpactScore a) * SCORE_WEIGHTS.impactModeMultiplier)%Q
    | _ => 0%Q
    end in
  {| ThemeScore.total := (tagScore + keywordScore + impactScore)%Q;
     ThemeScore.tagScore := tagScore;
     ThemeScore.keywordScore := keywordScore;
     ThemeScore.impactScore := impactScore |}.

Definition isChronological (m : RecipeMode) : bool :=
  match m with ModeChronological => true | _ => false end.

Definition scoreConnection (prev candidate : AnecdoteMeta) (recipe : StorylineRecipe.t)
    (usage : JsMap.t nat) (tagWeights : TagWeights) (storytellerStreak : nat)
    : StorylineScoreBreakdown.t :=
  let shared := sharedTags prev candidate in
  let sharedTagScore := (ofNat (List.length shared) * SCORE_WEIGHTS.sharedTag)%Q in
  let storytellerScore :=
    if String.eqb (Anecdote.storyteller prev) (Anecdote.storyteller candidate)
    then (0 + Math_max SCORE_WEIGHTS.storytellerMin
                (SCORE_WEIGHTS.storytellerBase
                 - ofNat storytellerStreak * SCORE_WEIGHTS.storytellerDecay))%Q
    else if (2 <=? storytellerStreak)%nat
         then (0 + SCORE_WEIGHTS.storytellerVarietyBonus)%Q
         else 0%Q in
  let locationScore :=
    if negb (JsString.isEmpty (Anecdote.location prev))
       && String.eqb (Anecdote.location prev) (Anecdote.location candidate)
    then SCORE_WEIGHTS.location else 0%Q in
  let timeDiff :=
    (Qabs (inject_Z (_timestamp candidate - _timestamp prev)) / inject_Z YEAR_MS)%Q in
  let chronologyScore :=
    if (_timestamp prev <=? _timestamp candidate)%Z
    then SCORE_WEIGHTS.chronologicalForward else 0%Q in
  let recencyScore := 0%Q in
  let recencyScore :=
    if Qle_bool timeDiff 1 then (recencyScore + SCORE_WEIGHTS.timeWithinYear)%Q
    else recencyScore in
  let recencyScore :=
    if Qle_bool timeDiff 3 then (recencyScore + SCORE_WEIGHTS.timeWithin3Years)%Q
    else recencyScore in
  let theme := computeThemeScore candidate recipe tagWeights in
  let usedCount := getOr0 usage (Anecdote.id candidate) in
  let usagePenalty := (ofNat usedCount * SCORE_WEIGHTS.usagePenalty)%Q in
  let modePenalty :=
    if isChronological (StorylineRecipe.mode recipe)
       && (_timestamp candidate <? _timestamp prev)%Z
    then (0 + SCORE_WEIGHTS.chronologicalBacktrackPenalty)%Q else 0%Q in
  let total :=
    (sharedTagScore + storytellerScore + locationScore + chronologyScore + recencyScore
     + ThemeScore.total theme - usagePenalty - modePenalty)%Q in
  {| StorylineScoreBreakdown.total := total;
     StorylineScoreBreakdown.sharedTagScore := sharedTagScore;
     StorylineScoreBreakdown.storytellerScore := storytellerScore;
     StorylineScoreBreakdown.locationScore := locationScore;
     StorylineScoreBreakdown.chronologyScore := chronologyScore;
     StorylineScoreBreakdown.recencyScore := recencyScore;
     StorylineScoreBreakdown.themeScore := ThemeScore.total theme;
     StorylineScoreBreakdown.usagePenalty := usagePenalty;
     StorylineScoreBreakdown.modePenalty := modePenalty;
     StorylineScoreBreakdown.storytellerStreak := storytellerStreak;
     StorylineScoreBreakdown.sharedTags := shared;
     StorylineScoreBreakdown.previousAnecdoteId := Anecdote.id prev;
     StorylineScoreBreakdown.candidateAnecdoteId := Anecdote.id candidate |}.

(** the comparator [(a, b) => a._timestamp - b._timestamp] *)
Definition byTimestamp (a b : AnecdoteMeta) : Z := (_timestamp a - _timestamp b)%Z.

(** [score > bestScore], where [None] is [-Infinity] *)
Definition beats_best (score : Q) (bestScore : option Q) : bool :=
  match bestScore with
  | None => true
  | Some b => Qgt_bool score b
  end.

Definition pickStart (items : list AnecdoteMeta) (recipe : StorylineRecipe.t)
    (usage : JsMap.t nat) (tagWeights : TagWeights) : option AnecdoteMeta :=
  if isChronological (StorylineRecipe.mode recipe)
  then hd_error (Array_sort byTimestamp items)
  else
    let '(best, _) :=
      fold_left
        (fun (acc : option AnecdoteMeta * option Q) item =>
           let '(best, bestScore) := acc in
           let baseScore :=
             (ThemeScore.total (computeThemeScore item recipe tagWeights)
              + ofNat (computeImpactScore item) * SCORE_WEIGHTS.startImpactBoost)%Q in
           let penalty :=
             (ofNat (getOr0 usage (Anecdote.id item)) * SCORE_WEIGHTS.startUsagePenalty)%Q in
           let score := (baseScore - penalty)%Q in
           if beats_best score bestScore then (Some item, Some score) else (best, bestScore))
        items (None, None) in
    match best with
    | Some b => Some b
    | None => hd_error items
    end.

(** *** The chain builder *)

(** the state of the [while] loop of [buildChain] *)
Record LoopState := mkLoop {
  ls_chain : list AnecdoteMeta;
  ls_used : JsSet.t;
  ls_debugByBeat : JsMap.t StorylineScoreBreakdown.t;
  ls_current : AnecdoteMeta
}.

(** the trailing beats told by the narrator of [current], counted from the
    end of the chain *)
Fixpoint streakFromEnd (reversed : list AnecdoteMeta) (current : AnecdoteMeta) : nat :=
  match reversed with
  | [] => 0
  | b :: r =>
      if String.eqb (Anecdote.storyteller b) (Anecdote.storyteller current)
      then S (streakFromEnd r current) else 0
  end.

Definition storytellerStreakOf (chain : list AnecdoteMeta) (current : AnecdoteMeta) : nat :=
  streakFromEnd (rev chain) current.

Definition unusedIn (used : JsSet.t) (item : AnecdoteMeta) : bool :=
  negb (JsSet.has used (Anecdote.id item)).

(** the [for ... of sorted] loop: [best] and [bestBreakdown] are assigned
    together, and [bestScore] is the total of [bestBreakdown] *)
Definition scanCandidates (sorted : list AnecdoteMeta) (used : JsSet.t)
    (current : AnecdoteMeta) (recipe : StorylineRecipe.t) (usage : JsMap.t nat)
    (tagWeights : TagWeights) (storytellerStreak : nat)
    : option (AnecdoteMeta * StorylineScoreBreakdown.t) :=
  fold_left
    (fun (best : option (AnecdoteMeta * StorylineScoreBreakdown.t))
         (candidate : AnecdoteMeta) =>
       if JsSet.has used (Anecdote.id candidate) then best
       else
         let breakdown :=
           scoreConnection current candidate recipe usage tagWeights storytellerStreak in
         if beats_best (StorylineScoreBreakdown.total breakdown)
                       (option_map (fun b => StorylineScoreBreakdown.total (snd b)) best)
         then Some (candidate, breakdown) else best)
    sorted None.

(** [forward || sorted.find(item => !used.has(item.id))] *)
Definition nearestUnused (sorted : list AnecdoteMeta) (used : JsSet.t)
    (current : AnecdoteMeta) : option AnecdoteMeta :=
  match find (fun item => unusedIn used item && (_timestamp current <=? _timestamp item)%Z)
             sorted with
  | Some forward => Some forward
  | None => find (unusedIn used) sorted
  end.

(** one pass through the body of the loop; [None] is the [break] *)
Definition extendChain (sorted : list AnecdoteMeta) (recipe : StorylineRecipe.t)
    (usage : JsMap.t nat) (tagWeights : TagWeights) (st : LoopState) : option LoopState :=
  let current := ls_current st in
  let storytellerStreak := storytellerStreakOf (ls_chain st) current in
  let scanned :=
    scanCandidates sorted (ls_used st) current recipe usage tagWeights storytellerStreak in
  let bestBreakdown := option_map snd scanned in
  let best :=
    match scanned with
    | Some (b, breakdown) =>
        if Qgt_bool 0 (StorylineScoreBreakdown.total breakdown)
        then nearestUnused sorted (ls_used st) current
        else Some b
    | None => nearestUnused sorted (ls_used st) current
    end in
  match best with
  | None => None
  | Some b =>
      Some {| ls_chain := (ls_chain st ++ [b])%list;
              ls_used := JsSet.add (ls_used st) (Anecdote.id b);
              ls_debugByBeat :=
                match bestBreakdown with
                | Some breakdown => JsMap.set (ls_debugByBeat st) (Anecdote.id b) breakdown
                | None => ls_debugByBeat st
                end;
              ls_current := b |}
  end.

(** the loop's condition *)
Definition loopContinues (sorted : list AnecdoteMeta) (targetLength : Z) (st : LoopState)
    : bool :=
  (Z.of_nat (List.length (ls_chain st)) <? targetLength)%Z
  && (JsSet.size (ls_used st) <? List.length sorted)%nat.

(** the [while] loop, run for at most [fuel] passes; [None] when the fuel
    runs out before the loop has ended *)
Fixpoint extendLoop (fuel : nat) (sorted : list AnecdoteMeta) (recipe : StorylineRecipe.t)
    (targetLength : Z) (usage : JsMap.t nat) (tagWeights : TagWeights) (st : LoopState)
    : option LoopState :=
  if loopContinues sorted targetLength st then
    match fuel with
    | O => None
    | S fuel' =>
        match extendChain sorted recipe usage tagWeights st with
        | None => Some st
        | Some st' => extendLoop fuel' sorted recipe targetLength usage tagWeights st'
        end
    end
  else Some st.

Definition emptyChain : ChainBuildResult := {| chain := []; debugByBeat := JsMap.empty |}.

Definition buildChainFuel (fuel : nat) (items : list AnecdoteMeta)
    (recipe : StorylineRecipe.t) (targetLength : Z) (usage : JsMap.t nat)
    (tagWeights : TagWeights) : option ChainBuildResult :=
  match items with
  | [] => Some emptyChain
  | _ =>
      let sorted := Array_sort byTimestamp items in
      match pickStart sorted recipe usage tagWeights with
      | None => Some emptyChain
      | Some current =>
          let st0 := {| ls_chain := [current];
                        ls_used := JsSet.add [] (Anecdote.id current);
                        ls_debugByBeat := JsMap.empty;
                        ls_current := current |} in
          match extendLoop fuel sorted recipe targetLength usage tagWeights st0 with
          | Some st => Some {| chain := ls_chain st; debugByBeat := ls_debugByBeat st |}
          | None => None
          end
      end
  end.

(** [buildChain]: the loop never needs more passes than there are items
    (lemma [buildChainFuel_enough] below) *)
Definition buildChain (items : list AnecdoteMeta) (recipe : StorylineRecipe.t)
    (targetLength : Z) (usage : JsMap.t nat) (tagWeights : TagWeights) : ChainBuildResult :=
  match buildChainFuel (List.length items) items recipe targetLength usage tagWeights with
  | Some r => r
  | None => emptyChain
  end.

(** *** The narrative renderer *)

Definition truncate (text : string) (max : nat) : string :=
  if (String.length text <=? max)%nat then text
  else
    let trimmed := JsString.slice0 (max - 3) text in
    let lastSpace := JsString.lastIndexOf " " trimmed in
    JsString.slice0
      (if (40 <? lastSpace)%Z then Z.to_nat lastSpace else String.length trimmed) trimmed
    ++ "...".

Definition buildConnection (prev next : AnecdoteMeta) : StorylineConnection.t :=
  let shared := sharedTags prev next in
  match shared with
  | first :: _ => {| StorylineConnection.type := ConnTag;
                     StorylineConnection.label := "#" ++ first |}
  | [] =>
      if String.eqb (Anecdote.storyteller prev) (Anecdote.storyteller next)
      then {| StorylineConnection.type := ConnStoryteller;
              StorylineConnection.label := Anecdote.storyteller prev |}
      else if negb (JsString.isEmpty (Anecdote.location prev))
              && String.eqb (Anecdote.location prev) (Anecdote.location next)
      then {| StorylineConnection.type := ConnLocation;
              StorylineConnection.label := Anecdote.location prev |}
      else {| StorylineConnection.type := ConnChronology;
              StorylineConnection.label :=
                JsString.ofZ (Anecdote.year prev) ++ " to " ++ JsString.ofZ (Anecdote.year next) |}
  end.

Definition atLocation (a : AnecdoteMeta) : string :=
  if JsString.isEmpty (Anecdote.location a) then EmptyString
  else " at " ++ Anecdote.location a.

Definition buildVoiceover (style : StorylineStyle) (beat : AnecdoteMeta) (index total : nat)
    : string :=
  let summary := truncate (Anecdote.story beat) 120 in
  let location := atLocation beat in
  let year := JsString.ofZ (Anecdote.year beat) in
  let title := Anecdote.title beat in
  let isFirst := (index =? 0)%nat in
  let isLast := (Z.of_nat index =? Z.of_nat total - 1)%Z in
  match style with
  | Style50cent =>
      if isFirst
      then "Back in " ++ year ++ location ++ ", it started with "
           ++ JsString.toLowerCase title ++ "."
      else if isLast then "By " ++ year ++ ", " ++ title ++ " was proof the city had changed."
      else title ++ location ++ ". " ++ summary
  | StyleJesse =>
      if isFirst
      then "In " ++ year ++ location ++ ", a quiet shift started to feel inevitable."
      else if isLast
      then "By " ++ year ++ ", the story is no longer about a moment but a movement."
      else Anecdote.storyteller beat ++ " remembers " ++ JsString.toLowerCase title
           ++ ". " ++ summary
  | StyleCoogler =>
      if isFirst
      then "In " ++ year ++ location ++ ", a spark caught—small, personal, and loud."
      else if isLast then "By " ++ year ++ ", the whole city could feel the change."
      else title ++ " carries the momentum. " ++ summary
  | StyleHybrid =>
      if isFirst
      then "Seattle didn't plan for this. " ++ title ++ " lit the fuse in " ++ year ++ "."
      else if isLast then "The story keeps evolving after " ++ year ++ "."
      else title ++ ". " ++ summary
  end.

Definition buildOpeningLine (style : StorylineStyle) (first : AnecdoteMeta) : string :=
  let location := atLocation first in
  let year := JsString.ofZ (Anecdote.year first) in
  match style with
  | Style50cent => "This is how the city started moving in " ++ year ++ location ++ "."
  | StyleJesse => "A sound crossed oceans and settled into Seattle by " ++ year ++ "."
  | StyleCoogler => "In " ++ year ++ location ++ ", a new rhythm found its people."
  | StyleHybrid => "In " ++ year ++ location ++ ", the timeline sparks."
  end.

Definition buildClosingLine (style : StorylineStyle) (last : AnecdoteMeta) : string :=
  match style with
  | Style50cent => "Now the rhythm is part of the city's DNA."
  | StyleJesse => "The movement keeps writing its next chapter."
  | StyleCoogler => "The story lands, but the music keeps moving."
  | StyleHybrid => "The beat keeps moving after " ++ JsString.ofZ (Anecdote.year last) ++ "."
  end.

(** [debugByBeat.get(beat.id) || null] *)
Definition debugOf (debugByBeat : JsMap.t StorylineScoreBreakdown.t) (beat : AnecdoteMeta)
    : option StorylineScoreBreakdown.t :=
  JsMap.get debugByBeat (Anecdote.id beat).

Definition intensityOf (beat : AnecdoteMeta) : Z :=
  Z.min 5 (Z.max 1 (Math_round (1 + ofNat (computeImpactScore beat) / 2)%Q)).

(** the callback of [chain.map((beat, index) => ...)], with [prev] the
    element [chain[index - 1]] or [None] at index 0 *)
Definition renderBeat (recipe : StorylineRecipe.t)
    (debugByBeat : JsMap.t StorylineScoreBreakdown.t) (total index : nat)
    (prev : option AnecdoteMeta) (beat : AnecdoteMeta) : StorylineBeat.t :=
  {| StorylineBeat.id :=
       StorylineRecipe.id recipe ++ "-" ++ JsString.ofZ (Z.of_nat index + 1);
     StorylineBeat.anecdote := beat;
     StorylineBeat.summary := truncate (Anecdote.story beat) 140;
     StorylineBeat.voiceover := buildVoiceover (StorylineRecipe.style recipe) beat index total;
     StorylineBeat.connection :=
       match prev with Some p => Some (buildConnection p beat) | None => None end;
     StorylineBeat.intensity := intensityOf beat;
     StorylineBeat.debug :=
       match prev with Some _ => debugOf debugByBeat beat | None => None end |}.

Fixpoint renderBeats (recipe : StorylineRecipe.t)
    (debugByBeat : JsMap.t StorylineScoreBreakdown.t) (total index : nat)
    (prev : option AnecdoteMeta) (rest : list AnecdoteMeta) : list StorylineBeat.t :=
  match rest with
  | [] => []
  | beat :: rest' =>
      renderBeat recipe debugByBeat total index prev beat
      :: renderBeats recipe debugByBeat total (S index) (Some beat) rest'
  end.

(** [buildStoryline]; on an empty chain [chain[0].date] is a [TypeError] *)
Definition buildStoryline (recipe : StorylineRecipe.t) (chain : list AnecdoteMeta)
    (debugByBeat : JsMap.t StorylineScoreBreakdown.t) : Completion Storyline.t :=
  let beats := renderBeats recipe debugByBeat (List.length chain) 0 None chain in
  let tags := JsString.dedupe (flat_map (fun beat => Anecdote.tags (anecdote beat)) chain) in
  let years :=
    Array_sort (fun a b => (a - b)%Z)
      (dedupeZ [] (map (fun beat => Anecdote.year (anecdote beat)) chain)) in
  match chain with
  | [] => TypeError
  | first :: _ =>
      let last := List.last chain first in
      Normal
        {| Storyline.id := StorylineRecipe.id recipe;
           Storyline.title := StorylineRecipe.title recipe;
           Storyline.description := StorylineRecipe.description recipe;
           Storyline.style := StorylineRecipe.style recipe;
           Storyline.tone := STYLE_TONE (StorylineRecipe.style recipe);
           Storyline.openingLine := buildOpeningLine (StorylineRecipe.style recipe) first;
           Storyline.closingLine := buildClosingLine (StorylineRecipe.style recipe) last;
           Storyline.beats := beats;
           Storyline.tags := tags;
           Storyline.timeframe :=
             {| Timeframe.start := Anecdote.date first;
                Timeframe.end_ := Anecdote.date last;
                Timeframe.years := years |} |}
  end.

(** *** The storyline assembler *)

(** [getTopTags]: [counts] is an object used as a dictionary.  The tag
    [__proto__] never becomes a property of it (the assignment reaches the
    prototype setter, which ignores a string).  The tag [constructor] reads an
    inherited function where every other tag reads a count; that one tag is
    counted here like the others.  (What is proved below about the assembler
    holds for any list of top tags.) *)
Definition getTopTags (items : list AnecdoteMeta) (limit : nat) : list string :=
  let counts :=
    fold_left
      (fun (counts : JsMap.t nat) (item : AnecdoteMeta) =>
         fold_left
           (fun (counts : JsMap.t nat) tag =>
              if String.eqb tag "__proto__" then counts
              else JsMap.set counts tag (getOr0 counts tag + 1))
           (_tags item) counts)
      items JsMap.empty in
  map fst
    (firstn limit
       (Array_sort (fun a b => (Z.of_nat (snd b) - Z.of_nat (snd a))%Z)
          (Object_entries counts))).

(** the literal [recipes] of [generateStorylines] *)
Definition recipesFor (topTags : list string) : list StorylineRecipe.t :=
  [ {| StorylineRecipe.id := "chronicle";
       StorylineRecipe.title := "Origins to Spotlight";
       StorylineRecipe.description :=
         "A straight-line rise from the first rooms to the biggest stages.";
       StorylineRecipe.style := StyleJesse;
       StorylineRecipe.mode := ModeChronological;
       StorylineRecipe.focusTags := topTags;
       StorylineRecipe.focusKeywords := [] |};
    {| StorylineRecipe.id := "nightlife";
       StorylineRecipe.title := "Nightlife Pulse";
       StorylineRecipe.description := "The late-night circuit that kept the rhythm alive.";
       StorylineRecipe.style := Style50cent;
       StorylineRecipe.mode := ModeTag;
       StorylineRecipe.focusTags := JsString.dedupe (NIGHTLIFE_TAGS ++ topTags)%list;
       StorylineRecipe.focusKeywords := NIGHTLIFE_KEYWORDS |};
    {| StorylineRecipe.id := "breakthrough";
       StorylineRecipe.title := "Breakthrough Moments";
       StorylineRecipe.description :=
         "When the scene broke past its borders and stayed there.";
       StorylineRecipe.style := StyleHybrid;
       StorylineRecipe.mode := ModeImpact;
       StorylineRecipe.focusTags := topTags;
       StorylineRecipe.focusKeywords := IMPACT_KEYWORDS |};
    {| StorylineRecipe.id := "cinematic";
       StorylineRecipe.title := "Heat & Hope";
       StorylineRecipe.description :=
         "A cinematic rise shaped by grit, joy, and the people who held it together.";
       StorylineRecipe.style := StyleCoogler;
       StorylineRecipe.mode := ModeImpact;
       StorylineRecipe.focusTags := topTags;
       StorylineRecipe.focusKeywords := (IMPACT_KEYWORDS ++ COMMUNITY_KEYWORDS)%list |} ].

Definition fallbackRecipe (topTags : list string) : StorylineRecipe.t :=
  {| StorylineRecipe.id := "core";
     StorylineRecipe.title := "The Core Story";
     StorylineRecipe.description := "A quick-cut run through the key memories so far.";
     StorylineRecipe.style := StyleHybrid;
     StorylineRecipe.mode := ModeChronological;
     StorylineRecipe.focusTags := topTags;
     StorylineRecipe.focusKeywords := [] |}.

(** [Math.min(8, Math.max(4, Math.round(items.length * 0.45)))] *)
Definition targetLengthFor (itemCount : nat) : Z :=
  Z.min 8 (Z.max 4 (Math_round (ofNat itemCount * 0.45)%Q)).

(** the three stores that the callback of [recipes.forEach] updates *)
Record AssemblerState := mkAsm {
  usage : JsMap.t nat;
  storylines : list Storyline.t;
  signatures : JsSet.t
}.

Definition signatureOf (chain : list AnecdoteMeta) : string :=
  JsString.join "-" (map (fun item : AnecdoteMeta => Anecdote.id item) chain).

(** [chain.forEach(item => usage.set(item.id, (usage.get(item.id) || 0) + 1))] *)
Definition chargeUsage (usage : JsMap.t nat) (chain : list AnecdoteMeta) : JsMap.t nat :=
  fold_left
    (fun (usage : JsMap.t nat) (item : AnecdoteMeta) =>
       JsMap.set usage (Anecdote.id item) (getOr0 usage (Anecdote.id item) + 1))
    chain usage.

(** the callback of [recipes.forEach] *)
Definition processRecipe (items : list AnecdoteMeta) (targetLength : Z)
    (tagWeights : TagWeights) (st : AssemblerState) (recipe : StorylineRecipe.t)
    : Completion AssemblerState :=
  let built := buildChain items recipe targetLength (usage st) tagWeights in
  if (List.length (chain built) <? 3)%nat then Normal st
  else
    let signature := signatureOf (chain built) in
    if JsSet.has (signatures st) signature then Normal st
    else
      storyline <- buildStoryline recipe (chain built) (debugByBeat built) ;;
      Normal {| usage := chargeUsage (usage st) (chain built);
                storylines := (storylines st ++ [storyline])%list;
                signatures := JsSet.add (signatures st) signature |}.

Fixpoint forEachRecipe (items : list AnecdoteMeta) (targetLength : Z)
    (tagWeights : TagWeights) (recipes : list StorylineRecipe.t) (st : AssemblerState)
    : Completion AssemblerState :=
  match recipes with
  | [] => Normal st
  | recipe :: rest =>
      st' <- processRecipe items targetLength tagWeights st recipe ;;
      forEachRecipe items targetLength tagWeights rest st'
  end.

Definition initialState : AssemblerState :=
  {| usage := JsMap.empty; storylines := []; signatures := [] |}.

(** the body of [generateStorylines] once [items], [topTags] and
    [tagWeights] are known *)
Definition assemble (items : list AnecdoteMeta) (topTags : list string)
    (tagWeights : TagWeights) : Completion (list Storyline.t) :=
  let targetLength := targetLengthFor (List.length items) in
  st <- forEachRecipe items targetLength tagWeights (recipesFor topTags) initialState ;;
  match storylines st, items with
  | [], _ :: _ =>
      let built :=
        buildChain items (fallbackRecipe topTags)
          (Z.min 6 (Z.of_nat (List.length items))) (usage st) tagWeights in
      match chain built with
      | [] => Normal (storylines st)
      | _ :: _ =>
          storyline <- buildStoryline (fallbackRecipe topTags) (chain built)
                         (debugByBeat built) ;;
          Normal (storylines st ++ [storyline])%list
      end
  | _, _ => Normal (storylines st)
  end.

Definition generateStorylines (anecdotes : list Anecdote.t) : Completion (list Storyline.t) :=
  match anecdotes with
  | [] => Normal []
  | _ :: _ =>
      let items := toMeta anecdotes in
      let topTags := getTopTags items 6 in
      let tagWeights := computeTagWeights items in
      assemble items topTags tagWeights
  end.

End Engine.

(** * Vocabulary of the statements *)

Definition idOf (item : AnecdoteMeta) : string := Anecdote.id item.

(** the state in which the loop of [buildChain] starts *)
Definition startState (current : AnecdoteMeta) : LoopState :=
  {| ls_chain := [current];
     ls_used := JsSet.add [] (Anecdote.id current);
     ls_debugByBeat := JsMap.empty;
     ls_current := current |}.

(** what the loop of [buildChain] keeps true *)
Record ChainInv (sorted : list AnecdoteMeta) (targetLength : Z) (st : LoopState)
  : Prop := {
  inv_used : ls_used st = map idOf (ls_chain st);
  inv_nodup : NoDup (ls_used st);
  inv_incl : forall x, In x (ls_chain st) -> In x sorted;
  inv_nonempty : 1 <= List.length (ls_chain st);
  inv_target : (Z.of_nat (List.length (ls_chain st)) <= Z.max 1 targetLength)%Z;
  inv_items : List.length (ls_chain st) <= List.length sorted;
  inv_current : List.last (ls_chain st) (ls_current st) = ls_current st
}.

(** what holds of a chain that [buildChain] returns for a non-empty item list *)
Record ChainOk (items : list AnecdoteMeta) (targetLength : Z) (c : list AnecdoteMeta)
  : Prop := {
  ok_nodup : NoDup (map idOf c);
  ok_incl : forall x, In x c -> In x items;
  ok_nonempty : 1 <= List.length c;
  ok_target : (Z.of_nat (List.length c) <= Z.max 1 targetLength)%Z;
  ok_items : List.length c <= List.length items
}.

(** The breakdown stored for every beat after the first names the beat
    before it as the previous anecdote; it names the beat itself as the
    candidate whenever its total is not negative, that is, whenever the beat
    was the best-scoring candidate and not the nearest-chronological
    fallback. *)
Definition DebugOk (c : list AnecdoteMeta) (debug : JsMap.t StorylineScoreBreakdown.t)
  : Prop :=
  forall i p b,
    nth_error c i = Some p ->
    nth_error c (S i) = Some b ->
    exists breakdown,
      JsMap.get debug (idOf b) = Some breakdown
      /\ StorylineScoreBreakdown.previousAnecdoteId breakdown = idOf p
      /\ (Qle_bool 0 (StorylineScoreBreakdown.total breakdown) = true ->
          StorylineScoreBreakdown.candidateAnecdoteId breakdown = idOf b).

Definition DebugInv (st : LoopState) : Prop := DebugOk (ls_chain st) (ls_debugByBeat st).

(** [s] has no hyphen *)
Fixpoint noDash (s : string) : bool :=
  match s with
  | EmptyString => true
  | String c r => negb (Ascii.eqb c "-") && noDash r
  end.

(** the ids of the anecdotes of a storyline's beats, in order *)
Definition beatIds (s : Storyline.t) : list string :=
  map (fun beat => Anecdote.id (StorylineBeat.anecdote beat)) (Storyline.beats s).

(** in how many of the storylines [l] the anecdote with id [k] is a beat *)
Definition appearances (l : list Storyline.t) (k : string) : nat :=
  List.length (filter (fun s => JsString.mem k (beatIds s)) l).

(** [s] is the rendering of the chain that [buildChain] returns for [recipe]. *)
Definition EmittedBy (items : list AnecdoteMeta) (tagWeights : TagWeights)
    (recipe : StorylineRecipe.t) (s : Storyline.t) : Prop :=
  exists targetLength usage,
    let built := buildChain items recipe targetLength usage tagWeights in
    ChainOk items targetLength (chain built)
    /\ DebugOk (chain built) (debugByBeat built)
    /\ Storyline.id s = StorylineRecipe.id recipe
    /\ Storyline.beats s
       = renderBeats recipe (debugByBeat built) (List.length (chain built)) 0 None
           (chain built).

Definition keysOf {V : Type} (m : JsMap.t V) : list string := map fst m.

(** The document frequency of a tag: the number of items that carry it. *)
Definition docFrequency (items : list AnecdoteMeta) (tag : string) : nat :=
  List.length (filter (fun item => JsString.mem tag (_tags item)) items).

(** A rational stand-in for [Math.log], used to run the examples: the first
    term of the series [ln x = 2 atanh((x - 1) / (x + 1))].  It vanishes at 1
    and grows with its argument. *)
Module ExampleHost.

Definition Math_log (x : Q) : Q := (2 * (x - 1) / (x + 1))%Q.

End ExampleHost.

(** ** Inputs of the worked runs *)

Definition exampleAnecdote (id date : string) (year : Z)
    (title story storyteller location : string) (tags : list string) : Anecdote.t :=
  {| Anecdote.id := id; Anecdote.date := date; Anecdote.year := year;
     Anecdote.title := title; Anecdote.story := story;
     Anecdote.storyteller := storyteller; Anecdote.location := location;
     Anecdote.notes := EmptyString; Anecdote.media := []; Anecdote.tags := tags;
     Anecdote.createdAt := 0; Anecdote.updatedAt := 0 |}.

Definition exampleRun : list Anecdote.t -> Completion (list Storyline.t) :=
  generateStorylines ExampleHost.Math_log IsoDate.isoDateGetTime.

Definition storylineAt (r : Completion (list Storyline.t)) (i : nat) : option Storyline.t :=
  match r with Normal l => nth_error l i | TypeError => None end.

Definition beatAt (r : Completion (list Storyline.t)) (i j : nat) : option StorylineBeat.t :=
  match storylineAt r i with
  | Some s => nth_error (Storyline.beats s) j
  | None => None
  end.

(** Two anecdotes with the same tags, narrator and place, one day apart.
    Both tags occur in both anecdotes, so the only logarithm that
    [computeTagWeights] takes on them is that of 1. *)
Definition nextDayPair : list Anecdote.t :=
  [ exampleAnecdote "a1" "2001-05-01" 2001 "Opening" "The first night." "Sam" "Pier"
      ["dj"; "club"];
    exampleAnecdote "a2" "2001-05-02" 2001 "Return" "The second night." "Sam" "Pier"
      ["dj"; "club"] ].

(** Four anecdotes without tags: the first and the last share narrator and
    place; the third lies four months before the last. *)
Definition backtrackInput : list Anecdote.t :=
  [ exampleAnecdote "a" "2000-01-01" 2000 "Opening" "We began." "Sam" "Pier" [];
    exampleAnecdote "b" "2004-06-01" 2004 "Second" "Then more." "Bo" EmptyString [];
    exampleAnecdote "c" "2009-09-01" 2009 "Third" "Later on." "Cy" EmptyString [];
    exampleAnecdote "d" "2010-01-01" 2010 "Fourth" "At last." "Sam" "Pier" [] ].

(** Three anecdotes without tags whose ids are [x], [x-x] and [y]. *)
Definition dashedIds : list Anecdote.t :=
  [ exampleAnecdote "x" "2001-01-01" 2001 "One" "club night" "Ann" EmptyString [];
    exampleAnecdote "x-x" "2001-02-01" 2001 "Two" "dj dance party" "Bob" EmptyString [];
    exampleAnecdote "y" "2001-03-01" 2001 "Three" "quiet" "Cy" EmptyString [] ].

Definition chronicleRecipe (topTags : list string) : StorylineRecipe.t :=
  nth 0 (recipesFor topTags) (fallbackRecipe topTags).

Definition nightlifeRecipe (topTags : list string) : StorylineRecipe.t :=
  nth 1 (recipesFor topTags) (fallbackRecipe topTags).

Definition nextDayPrev : AnecdoteMeta :=
  nth 0 (toMeta IsoDate.isoDateGetTime nextDayPair)
    (mkMeta (exampleAnecdote EmptyString EmptyString 0 EmptyString EmptyString EmptyString
               EmptyString []) 0 EmptyString []).

Definition nextDayCandidate : AnecdoteMeta :=
  nth 1 (toMeta IsoDate.isoDateGetTime nextDayPair) nextDayPrev.

(** ** Vocabulary of the further properties *)

(** the order of a sort by [key] *)
Definition keyLe {A : Type} (key : A -> Z) (a b : A) : Prop := (key a <= key b)%Z.

(** the anecdotes of a storyline's beats, in order *)
Definition beatAnecdotes (s : Storyline.t) : list AnecdoteMeta :=
  map StorylineBeat.anecdote (Storyline.beats s).

(** [s] is what [buildStoryline] makes of the chain that [buildChain] returns
    for [recipe] under the usage counter [usage] *)
Definition RenderedFrom (items : list AnecdoteMeta) (tagWeights : TagWeights)
    (targetLength : Z) (recipe : StorylineRecipe.t) (usage : JsMap.t nat)
    (s : Storyline.t) : Prop :=
  buildStoryline recipe
    (chain (buildChain items recipe targetLength usage tagWeights))
    (debugByBeat (buildChain items recipe targetLength usage tagWeights))
  = Normal s.

Definition optionList {A : Type} (o : option A) : list A :=
  match o with Some a => [a] | None => [] end.

(** what one recipe contributed to a run: nothing, or the storyline rendered
    from its chain of at least three items *)
Definition Outcome (items : list AnecdoteMeta) (tagWeights : TagWeights)
    (targetLength : Z) (recipe : StorylineRecipe.t) (o : option Storyline.t) : Prop :=
  forall s, o = Some s ->
    exists usage,
      RenderedFrom items tagWeights targetLength recipe usage s
      /\ 3 <= List.length (chain (buildChain items recipe targetLength usage tagWeights)).

(** the ids a result of the normal recipes may carry, in the order of the
    recipes *)
Definition idsPicked (b1 b2 b3 b4 : bool) : list string :=
  ((if b1 then ["chronicle"] else []) ++ (if b2 then ["nightlife"] else [])
   ++ (if b3 then ["breakthrough"] else []) ++ (if b4 then ["cinematic"] else []))%list.

Definition isSome {A : Type} (o : option A) : bool :=
  match o with Some _ => true | None => false end.

(** where a returned storyline comes from: a normal recipe, built for the
    assembler's target length into a chain of at least three items, or the
    fallback recipe *)
Definition Provenance (items : list AnecdoteMeta) (topTags : list string)
    (tagWeights : TagWeights) (l : list Storyline.t) (s : Storyline.t) : Prop :=
  exists recipe targetLength usage,
    RenderedFrom items tagWeights targetLength recipe usage s
    /\ ((In recipe (recipesFor topTags)
         /\ targetLength = targetLengthFor (List.length items)
         /\ 3 <= List.length (chain (buildChain items recipe targetLength usage tagWeights)))
        \/ (recipe = fallbackRecipe topTags
            /\ targetLength = Z.min 6 (Z.of_nat (List.length items))
            /\ l = [s])).

(** the score by which [pickStart] ranks the items of a recipe that is not
    chronological *)
Definition startScore (item : AnecdoteMeta) (recipe : StorylineRecipe.t)
    (usage : JsMap.t nat) (tagWeights : TagWeights) : Q :=
  (ThemeScore.total (computeThemeScore item recipe tagWeights)
   + ofNat (computeImpactScore item) * SCORE_WEIGHTS.startImpactBoost
   - ofNat (getOr0 usage (Anecdote.id item)) * SCORE_WEIGHTS.startUsagePenalty)%Q.

(** the total that the loop of [buildChain] compares for the candidate [x]
    when the chain so far is [before] and its last beat is [current] *)
Definition candidateTotal (recipe : StorylineRecipe.t) (usage : JsMap.t nat)
    (tagWeights : TagWeights) (before : list AnecdoteMeta) (current x : AnecdoteMeta) : Q :=
  StorylineScoreBreakdown.total
    (scoreConnection current x recipe usage tagWeights (storytellerStreakOf before current)).

(** [x] is an item of [sorted] whose id is not in [used] *)
Definition Unused (sorted : list AnecdoteMeta) (used : JsSet.t) (x : AnecdoteMeta) : Prop :=
  In x sorted /\ JsSet.has used (idOf x) = false.

(** the beat [b] is a choice of the loop of [buildChain] after the chain
    [before] that ends with [p]: an unused item of the greatest connection
    total when that total is not negative, else, every total being negative,
    the item that [nearestUnused] gives *)
Definition GreedyChoice (sorted : list AnecdoteMeta) (recipe : StorylineRecipe.t)
    (usage : JsMap.t nat) (tagWeights : TagWeights) (before : list AnecdoteMeta)
    (p b : AnecdoteMeta) : Prop :=
  let total := candidateTotal recipe usage tagWeights before p in
  let used := map idOf before in
  Unused sorted used b
  /\ ((0 <= total b /\ forall x, Unused sorted used x -> total x <= total b)%Q
      \/ ((forall x, Unused sorted used x -> total x < 0)%Q
          /\ nearestUnused sorted used p = Some b)).

(** every beat of [c] after the first is a choice of the loop after the
    beats before it *)
Definition GreedyChain (sorted : list AnecdoteMeta) (recipe : StorylineRecipe.t)
    (usage : JsMap.t nat) (tagWeights : TagWeights) (c : list AnecdoteMeta) : Prop :=
  forall i p b,
    nth_error c i = Some p -> nth_error c (S i) = Some b ->
    GreedyChoice sorted recipe usage tagWeights (firstn (S i) c) p b.

(** how often [tag] occurs among the tags of [items] *)
Definition tagOccurrences (items : list AnecdoteMeta) (tag : string) : nat :=
  count_occ string_dec (flat_map _tags items) tag.

(** the property names that an object literal inherits from
    [Object.prototype] *)
Definition OBJECT_PROTOTYPE_KEYS : list string :=
  ["constructor"; "__defineGetter__"; "__defineSetter__"; "hasOwnProperty";
   "__lookupGetter__"; "__lookupSetter__"; "isPrototypeOf"; "propertyIsEnumerable";
   "toString"; "valueOf"; "__proto__"; "toLocaleString"].

(** no tag of [items] names an inherited property *)
Definition PlainTags (items : list AnecdoteMeta) : Prop :=
  forall item tag, In item items -> In tag (_tags item) -> ~ In tag OBJECT_PROTOTYPE_KEYS.








(** Two anecdotes whose only common tag differs in case. *)
Definition mixedCasePair : list Anecdote.t :=
  [ exampleAnecdote "m1" "2003-03-01" 2003 "Set" "A long set." "Ann" "Hall"
      ["Live"; "Jazz"];
    exampleAnecdote "m2" "2003-04-01" 2003 "Encore" "One more." "Bob" "Yard"
      ["JAZZ"] ].

(** The host's date parser, for the properties that depend on the order of
    the dates: [Date_parse s] is the time in milliseconds of [new Date(s)],
    and [None] when the date is invalid (its time is [NaN]).  [Parsed] says
    that an item carries the time its date parses to. *)
Definition Parsed (Date_parse : string -> option Z) (x : AnecdoteMeta) : Prop :=
  Date_parse (Anecdote.date x) = Some (_timestamp x).

(** every date of the input parses, to the time that [Date_getTime] gives *)
Definition DatesParse (Date_parse : string -> option Z) (Date_getTime : string -> Z)
    (anecdotes : list Anecdote.t) : Prop :=
  forall a, In a anecdotes ->
    Date_parse (Anecdote.date a) = Some (Date_getTime (Anecdote.date a)).

(** [c] is a start that [pickStart] may choose among [items]: for a
    chronological recipe an item of the earliest date, for any other recipe
    an item whose start score no item exceeds *)
Definition StartChoice (Date_parse : string -> option Z) (items : list AnecdoteMeta)
    (recipe : StorylineRecipe.t) (usage : JsMap.t nat) (tagWeights : TagWeights)
    (c : AnecdoteMeta) : Prop :=
  In c items
  /\ if isChronological (StorylineRecipe.mode recipe)
     then exists t,
            Date_parse (Anecdote.date c) = Some t
            /\ forall x tx, In x items -> Date_parse (Anecdote.date x) = Some tx ->
                 (t <= tx)%Z
     else forall x, In x items ->
            (startScore x recipe usage tagWeights
             <= startScore c recipe usage tagWeights)%Q.

(** the date-only form [YYYY-MM-DD] as a parser: [None] on any other text *)
Definition isoDateParse (s : string) : option Z :=
  match IsoDate.digits 0 (substring 0 4 s), IsoDate.digits 0 (substring 5 2 s),
        IsoDate.digits 0 (substring 8 2 s) with
  | Some y, Some m, Some d => Some (IsoDate.daysFromCivil y m d * IsoDate.DAY_MS)%Z
  | _, _, _ => None
  end.

(** * Properties *)

(** ** Sorting, sets and maps *)

Section ArraySortFacts.
Context {A : Type} (cmp : A -> A -> Z).

Lemma Array_insert_perm (x : A) (l : list A) :
  Permutation (Array_insert cmp x l) (x :: l).
Proof.
  induction l as [|y r IH]; simpl.
  - reflexivity.
  - destruct (cmp y x <? 0)%Z.
    + rewrite IH. apply perm_swap.
    + reflexivity.
Qed.

Lemma Array_sort_perm (l : list A) : Permutation (Array_sort cmp l) l.
Proof.
  induction l as [|x r IH]; simpl.
  - reflexivity.
  - rewrite Array_insert_perm. now constructor.
Qed.

Lemma Array_sort_length (l : list A) : List.length (Array_sort cmp l) = List.length l.
Proof. apply Permutation_length, Array_sort_perm. Qed.

Lemma Array_sort_In (l : list A) (x : A) : In x (Array_sort cmp l) <-> In x l.
Proof.
  split; apply Permutation_in; [apply Array_sort_perm | symmetry; apply Array_sort_perm].
Qed.

End ArraySortFacts.

Lemma mem_In (x : string) (l : list string) : JsString.mem x l = true <-> In x l.
Proof.
  unfold JsString.mem. rewrite existsb_exists. split.
  - intros [y [Hy He]]. apply String.eqb_eq in He. now subst.
  - intros H. exists x. split; [assumption | apply String.eqb_refl].
Qed.

Lemma mem_false (x : string) (l : list string) : JsString.mem x l = false <-> ~ In x l.
Proof.
  rewrite <- mem_In. destruct (JsString.mem x l); split; congruence.
Qed.

Lemma JsSet_add_new (s : JsSet.t) (x : string) :
  JsSet.has s x = false -> JsSet.add s x = (s ++ [x])%list.
Proof. unfold JsSet.add. now intros ->. Qed.

Lemma JsSet_size_add_new (s : JsSet.t) (x : string) :
  JsSet.has s x = false -> JsSet.size (JsSet.add s x) = S (JsSet.size s).
Proof.
  intros H. rewrite (JsSet_add_new _ _ H). unfold JsSet.size.
  rewrite length_app. simpl. lia.
Qed.

Lemma JsSet_has_add (s : JsSet.t) (x y : string) :
  JsSet.has (JsSet.add s x) y = JsSet.has s y || String.eqb y x.
Proof.
  unfold JsSet.add, JsSet.has.
  destruct (JsString.mem x s) eqn:Hx.
  - destruct (String.eqb_spec y x) as [->|Hne].
    + rewrite Hx. reflexivity.
    + now rewrite orb_false_r.
  - unfold JsString.mem. rewrite existsb_app. simpl. now rewrite orb_false_r.
Qed.

Section JsMapFacts.
Context {V : Type}.

Lemma JsMap_get_set_same (m : JsMap.t V) (k : string) (v : V) :
  JsMap.get (JsMap.set m k v) k = Some v.
Proof.
  induction m as [|[k' v'] r IH]; simpl.
  - now rewrite String.eqb_refl.
  - destruct (String.eqb_spec k k') as [->|Hne]; simpl.
    + now rewrite String.eqb_refl.
    + destruct (String.eqb_spec k k'); [contradiction | exact IH].
Qed.

Lemma JsMap_get_set_other (m : JsMap.t V) (k k' : string) (v : V) :
  k' <> k -> JsMap.get (JsMap.set m k v) k' = JsMap.get m k'.
Proof.
  intros Hne. induction m as [|[k0 v0] r IH]; simpl.
  - destruct (String.eqb_spec k' k); [contradiction | reflexivity].
  - destruct (String.eqb_spec k k0) as [->|Hk]; simpl.
    + destruct (String.eqb_spec k' k0); [contradiction | reflexivity].
    + destruct (String.eqb_spec k' k0); [reflexivity | exact IH].
Qed.

End JsMapFacts.

Lemma getOr0_set_same (m : JsMap.t nat) (k : string) (v : nat) :
  getOr0 (JsMap.set m k v) k = v.
Proof. unfold getOr0. now rewrite JsMap_get_set_same. Qed.

Lemma getOr0_set_other (m : JsMap.t nat) (k k' : string) (v : nat) :
  k' <> k -> getOr0 (JsMap.set m k v) k' = getOr0 m k'.
Proof. intros H. unfold getOr0. now rewrite JsMap_get_set_other. Qed.

(** ** The chain builder: what one pass does *)

Section ChainFacts.
Variable sorted : list AnecdoteMeta.
Variable recipe : StorylineRecipe.t.
Variable targetLength : Z.
Variable usage : JsMap.t nat.
Variable tagWeights : TagWeights.

Lemma scanCandidates_spec (used : JsSet.t) (current : AnecdoteMeta) (streak : nat)
    (b : AnecdoteMeta) (bd : StorylineScoreBreakdown.t) :
  scanCandidates sorted used current recipe usage tagWeights streak = Some (b, bd) ->
  JsSet.has used (idOf b) = false /\ In b sorted
  /\ bd = scoreConnection current b recipe usage tagWeights streak.
Proof.
  unfold scanCandidates.
  set (f := fun (best : option (AnecdoteMeta * StorylineScoreBreakdown.t)) _ => _).
  assert (G : forall l acc,
             (forall x, In x l -> In x sorted) ->
             (forall b' bd', acc = Some (b', bd') ->
                JsSet.has used (idOf b') = false /\ In b' sorted
                /\ bd' = scoreConnection current b' recipe usage tagWeights streak) ->
             fold_left f l acc = Some (b, bd) ->
             JsSet.has used (idOf b) = false /\ In b sorted
             /\ bd = scoreConnection current b recipe usage tagWeights streak).
  { induction l as [|c r IH]; simpl; intros acc Hin Hacc Hfold.
    - now apply Hacc.
    - apply (IH (f acc c)); [intros; apply Hin; now right | | exact Hfold].
      intros b' bd'. unfold f.
      destruct (JsSet.has used (Anecdote.id c)) eqn:Hu; [apply Hacc|].
      destruct (beats_best _ _); [|apply Hacc].
      intros [= <- <-]. repeat split; [exact Hu | apply Hin; now left]. }
  apply G; [auto | discriminate].
Qed.

Lemma scanCandidates_none (used : JsSet.t) (current : AnecdoteMeta) (streak : nat) :
  scanCandidates sorted used current recipe usage tagWeights streak = None ->
  forall x, In x sorted -> JsSet.has used (idOf x) = true.
Proof.
  unfold scanCandidates.
  set (f := fun (best : option (AnecdoteMeta * StorylineScoreBreakdown.t)) _ => _).
  assert (S1 : forall l acc, acc <> None -> fold_left f l acc <> None).
  { induction l as [|c r IH]; simpl; intros acc Hacc; [exact Hacc|].
    apply IH. unfold f.
    destruct (JsSet.has used (Anecdote.id c)); [exact Hacc|].
    destruct (beats_best _ _); [discriminate | exact Hacc]. }
  assert (G : forall l acc, fold_left f l acc = None ->
             forall x, In x l -> JsSet.has used (idOf x) = true).
  { induction l as [|c r IH]; simpl; intros acc Hfold x Hx; [contradiction|].
    destruct Hx as [<-|Hx]; [|now apply (IH _ Hfold)].
    destruct (JsSet.has used (idOf c)) eqn:Hu; [reflexivity|].
    exfalso. revert Hfold. apply S1. unfold f. fold (idOf c). rewrite Hu.
    destruct acc as [[? ?]|]; simpl; [|discriminate].
    destruct (Qgt_bool _ _); discriminate. }
  intros H. exact (G sorted None H).
Qed.

Lemma nearestUnused_spec (used : JsSet.t) (current b : AnecdoteMeta) :
  nearestUnused sorted used current = Some b ->
  JsSet.has used (idOf b) = false /\ In b sorted.
Proof.
  unfold nearestUnused.
  destruct (find _ sorted) as [fw|] eqn:Hf.
  - intros [= <-]. apply find_some in Hf. destruct Hf as [Hin Hp].
    apply andb_prop in Hp. destruct Hp as [Hp _].
    unfold unusedIn in Hp. apply negb_true_iff in Hp. now split.
  - intros Hf2. apply find_some in Hf2. destruct Hf2 as [Hin Hp].
    unfold unusedIn in Hp. apply negb_true_iff in Hp. now split.
Qed.

Lemma nearestUnused_some (used : JsSet.t) (current x : AnecdoteMeta) :
  In x sorted -> JsSet.has used (idOf x) = false ->
  nearestUnused sorted used current <> None.
Proof.
  intros Hin Hu. unfold nearestUnused.
  destruct (find _ sorted); [discriminate|].
  destruct (find (unusedIn used) sorted) eqn:Hf; [discriminate|].
  pose proof (find_none _ _ Hf x Hin) as Hx.
  unfold unusedIn in Hx. fold (idOf x) in Hx. rewrite Hu in Hx. discriminate.
Qed.

(** A pass appends one item of [sorted] whose id was not used before. *)
Lemma extendChain_spec (st st' : LoopState) :
  extendChain sorted recipe usage tagWeights st = Some st' ->
  exists b,
    JsSet.has (ls_used st) (idOf b) = false /\ In b sorted
    /\ ls_chain st' = (ls_chain st ++ [b])%list
    /\ ls_used st' = (ls_used st ++ [idOf b])%list
    /\ ls_current st' = b.
Proof.
  unfold extendChain.
  set (scanned := scanCandidates _ _ _ _ _ _ _).
  set (best := match scanned with Some _ => _ | None => _ end).
  destruct best as [b|] eqn:Hbest; [|discriminate].
  intros [= <-]. exists b. simpl.
  assert (Hb : JsSet.has (ls_used st) (idOf b) = false /\ In b sorted).
  { subst best. destruct scanned as [[c bd]|] eqn:Hs.
    - destruct (Qgt_bool _ _).
      + now apply nearestUnused_spec in Hbest.
      + injection Hbest as <-. apply scanCandidates_spec in Hs. tauto.
    - now apply nearestUnused_spec in Hbest. }
  destruct Hb as [Hu Hin]. repeat split; try assumption.
  now apply JsSet_add_new.
Qed.

(** A pass ends the loop early only when every item has been used. *)
Lemma extendChain_break (st : LoopState) :
  extendChain sorted recipe usage tagWeights st = None ->
  forall x, In x sorted -> JsSet.has (ls_used st) (idOf x) = true.
Proof.
  unfold extendChain.
  set (scanned := scanCandidates _ _ _ _ _ _ _).
  intros H x Hin.
  destruct (JsSet.has (ls_used st) (idOf x)) eqn:Hu; [reflexivity|]. exfalso.
  pose proof (nearestUnused_some (ls_used st) (ls_current st) x Hin Hu) as Hn.
  destruct scanned as [[c bd]|] eqn:Hs.
  - destruct (Qgt_bool _ _).
    + destruct (nearestUnused _ _ _); [discriminate | contradiction].
    + discriminate.
  - destruct (nearestUnused _ _ _); [discriminate | contradiction].
Qed.

(** *** Termination of the loop *)

Lemma extendLoop_enough (fuel : nat) :
  forall st, List.length sorted - JsSet.size (ls_used st) <= fuel ->
  exists r, extendLoop fuel sorted recipe targetLength usage tagWeights st = Some r.
Proof.
  induction fuel as [|fuel IH]; intros st Hm; simpl.
  - destruct (loopContinues sorted targetLength st) eqn:Hc; [|eauto].
    unfold loopContinues in Hc. apply andb_prop in Hc. destruct Hc as [_ Hc].
    apply Nat.ltb_lt in Hc. lia.
  - destruct (loopContinues sorted targetLength st) eqn:Hc; [|eauto].
    destruct (extendChain sorted recipe usage tagWeights st) as [st'|] eqn:Hs; [|eauto].
    apply IH.
    apply extendChain_spec in Hs. destruct Hs as [b [Hu [_ [_ [Hused _]]]]].
    rewrite Hused. unfold JsSet.size in *. rewrite length_app. simpl. lia.
Qed.

Lemma extendLoop_more_fuel (fuel : nat) :
  forall st r,
    extendLoop fuel sorted recipe targetLength usage tagWeights st = Some r ->
    forall extra,
      extendLoop (fuel + extra) sorted recipe targetLength usage tagWeights st = Some r.
Proof.
  induction fuel as [|fuel IH]; intros st r H extra.
  - simpl in H. destruct extra; simpl; destruct (loopContinues sorted targetLength st);
      try discriminate; assumption.
  - simpl in *. destruct (loopContinues sorted targetLength st); [|assumption].
    destruct (extendChain sorted recipe usage tagWeights st); [|assumption].
    now apply IH.
Qed.

(** *** What the loop keeps true *)

Lemma extendChain_inv (st st' : LoopState) :
  ChainInv sorted targetLength st -> loopContinues sorted targetLength st = true ->
  extendChain sorted recipe usage tagWeights st = Some st' ->
  ChainInv sorted targetLength st'.
Proof.
  intros [Hused Hnd Hincl Hne Htarget Hitems Hcur] Hc Hs.
  apply extendChain_spec in Hs. destruct Hs as [b [Hu [Hin [Hch [Hus Hcu]]]]].
  unfold loopContinues in Hc. apply andb_prop in Hc. destruct Hc as [Hc1 Hc2].
  apply Z.ltb_lt in Hc1. apply Nat.ltb_lt in Hc2. unfold JsSet.size in Hc2.
  assert (Hlen : List.length (ls_used st) = List.length (ls_chain st))
    by (rewrite Hused; apply length_map).
  constructor; rewrite ?Hch, ?Hus, ?Hcu.
  - rewrite map_app, Hused. reflexivity.
  - apply NoDup_app; [assumption | repeat constructor; intros [] | ].
    intros x Hx [<-|[]]. apply mem_false in Hu. contradiction.
  - intros x Hx. apply in_app_or in Hx. destruct Hx as [Hx|[<-|[]]]; auto.
  - rewrite length_app. simpl. lia.
  - rewrite length_app. simpl. lia.
  - rewrite length_app. simpl. lia.
  - apply last_last.
Qed.

Lemma extendLoop_inv (fuel : nat) :
  forall st r, ChainInv sorted targetLength st ->
    extendLoop fuel sorted recipe targetLength usage tagWeights st = Some r ->
    ChainInv sorted targetLength r.
Proof.
  induction fuel as [|fuel IH]; intros st r Hinv H; simpl in H.
  - destruct (loopContinues sorted targetLength st); [discriminate | now injection H as <-].
  - destruct (loopContinues sorted targetLength st) eqn:Hc; [|now injection H as <-].
    destruct (extendChain sorted recipe usage tagWeights st) as [st'|] eqn:Hs;
      [|now injection H as <-].
    apply (IH st'); [now apply (extendChain_inv st) | assumption].
Qed.

End ChainFacts.

(** ** The breakdown recorded for a beat *)

Lemma nth_error_last {A : Type} (l : list A) (d x : A) :
  nth_error l (List.length l - 1) = Some x -> List.last l d = x.
Proof.
  induction l as [|y r IH]; simpl; [discriminate|].
  destruct r as [|z r'].
  - simpl. now intros [= <-].
  - simpl in *. rewrite Nat.sub_0_r in IH. exact IH.
Qed.

Section DebugFacts.
Variable sorted : list AnecdoteMeta.
Variable recipe : StorylineRecipe.t.
Variable targetLength : Z.
Variable usage : JsMap.t nat.
Variable tagWeights : TagWeights.

Lemma extendChain_debug_spec (st st' : LoopState) :
  extendChain sorted recipe usage tagWeights st = Some st' ->
  exists b c breakdown,
    ls_chain st' = (ls_chain st ++ [b])%list
    /\ JsSet.has (ls_used st) (idOf b) = false
    /\ ls_debugByBeat st' = JsMap.set (ls_debugByBeat st) (idOf b) breakdown
    /\ StorylineScoreBreakdown.previousAnecdoteId breakdown = idOf (ls_current st)
    /\ StorylineScoreBreakdown.candidateAnecdoteId breakdown = idOf c
    /\ (Qle_bool 0 (StorylineScoreBreakdown.total breakdown) = true -> b = c).
Proof.
  intros H. pose proof (extendChain_spec _ _ _ _ _ _ H) as [b0 [Hu0 [_ [Hch0 _]]]].
  revert H. unfold extendChain.
  destruct (scanCandidates _ _ _ _ _ _ _) as [[c bd]|] eqn:Hs.
  - apply scanCandidates_spec in Hs. destruct Hs as [_ [_ Hbd]].
    set (best := if Qgt_bool _ _ then _ else _).
    destruct best as [b|] eqn:Hbest; [|discriminate].
    intros [= <-]. simpl in *. exists b, c, bd.
    apply app_inj_tail in Hch0. destruct Hch0 as [_ <-].
    repeat split; try assumption; try (rewrite Hbd; reflexivity).
    intros Hnn. subst best. unfold Qgt_bool in Hbest. rewrite Hnn in Hbest.
    simpl in Hbest. now injection Hbest.
  - intros H. exfalso.
    pose proof (scanCandidates_none _ _ _ _ _ _ _ Hs) as Hall.
    destruct (nearestUnused sorted (ls_used st) (ls_current st)) as [b|] eqn:Hn;
      [|discriminate].
    apply nearestUnused_spec in Hn. destruct Hn as [Hu Hin].
    rewrite (Hall b Hin) in Hu. discriminate.
Qed.

Lemma extendChain_debug (st st' : LoopState) :
  ChainInv sorted targetLength st -> DebugInv st ->
  extendChain sorted recipe usage tagWeights st = Some st' -> DebugInv st'.
Proof.
  intros [Hused Hnd Hincl Hne Htarget Hitems Hcur] Hdbg Hs.
  destruct (extendChain_debug_spec _ _ Hs)
    as [b [c [bd [Hch [Hu [Hset [Hprev [Hcand Hbc]]]]]]]].
  intros i p b' Hp Hb'. rewrite Hch in Hp, Hb'. rewrite Hset.
  destruct (Nat.lt_ge_cases (S i) (List.length (ls_chain st))) as [Hlt|Hge].
  - rewrite nth_error_app1 in Hp, Hb' by lia.
    destruct (Hdbg i p b' Hp Hb') as [bd' [Hget H']].
    exists bd'. split; [|exact H'].
    rewrite JsMap_get_set_other; [exact Hget|].
    intros E. apply nth_error_In in Hb'.
    assert (Hin : In (idOf b') (ls_used st)) by (rewrite Hused; now apply in_map).
    apply mem_In in Hin. unfold JsSet.has in Hu. rewrite <- E in Hu. congruence.
  - assert (Hlen : nth_error (ls_chain st ++ [b]) (S i) <> None) by congruence.
    apply nth_error_Some in Hlen. rewrite length_app in Hlen. simpl in Hlen.
    assert (Hi : S i = List.length (ls_chain st)) by lia.
    rewrite Hi, nth_error_app2, Nat.sub_diag in Hb' by lia.
    simpl in Hb'. injection Hb' as <-.
    rewrite nth_error_app1 in Hp by lia.
    replace i with (List.length (ls_chain st) - 1) in Hp by lia.
    apply (nth_error_last _ (ls_current st)) in Hp. rewrite Hcur in Hp. subst p.
    exists bd. split; [apply JsMap_get_set_same|]. split; [exact Hprev|].
    intros Hnn. rewrite Hcand. now rewrite (Hbc Hnn).
Qed.

Lemma extendLoop_debug (fuel : nat) :
  forall st r, ChainInv sorted targetLength st -> DebugInv st ->
    extendLoop fuel sorted recipe targetLength usage tagWeights st = Some r -> DebugInv r.
Proof.
  induction fuel as [|fuel IH]; intros st r Hinv Hdbg H; simpl in H.
  - destruct (loopContinues sorted targetLength st); [discriminate | now injection H as <-].
  - destruct (loopContinues sorted targetLength st) eqn:Hc; [|now injection H as <-].
    destruct (extendChain sorted recipe usage tagWeights st) as [st'|] eqn:Hs;
      [|now injection H as <-].
    apply (IH st');
      [ now apply (extendChain_inv sorted recipe targetLength usage tagWeights st)
      | now apply (extendChain_debug st) | exact H ].
Qed.

End DebugFacts.

Lemma startState_debug (current : AnecdoteMeta) : DebugInv (startState current).
Proof. intros i p b Hp Hb. destruct i; discriminate. Qed.

(** ** The chain builder: the whole chain *)

Lemma pickStart_some (items : list AnecdoteMeta) (recipe : StorylineRecipe.t)
    (usage : JsMap.t nat) (tagWeights : TagWeights) :
  items <> [] ->
  exists c, pickStart items recipe usage tagWeights = Some c /\ In c items.
Proof.
  intros Hne. unfold pickStart.
  destruct (isChronological (StorylineRecipe.mode recipe)).
  - destruct (Array_sort byTimestamp items) as [|c r] eqn:Hs.
    + apply (f_equal (@List.length _)) in Hs. rewrite Array_sort_length in Hs.
      destruct items; [contradiction | discriminate].
    + exists c. split; [reflexivity|].
      apply (Array_sort_In byTimestamp). rewrite Hs. now left.
  - set (f := fun (acc : option AnecdoteMeta * option Q) _ => _).
    assert (G : forall l acc,
               (forall x, In x l -> In x items) ->
               (forall b, fst acc = Some b -> In b items) ->
               forall b, fst (fold_left f l acc) = Some b -> In b items).
    { induction l as [|c r IH]; simpl; intros acc Hl Hacc b Hb; [now apply Hacc|].
      apply (IH (f acc c)); [intros; apply Hl; now right | | exact Hb].
      intros b'. unfold f. destruct acc as [best bestScore].
      destruct (beats_best _ _); simpl; [|apply Hacc].
      intros [= <-]. apply Hl. now left. }
    destruct (fold_left f items (None, None)) as [best sc] eqn:Hf.
    destruct best as [b|].
    + exists b. split; [reflexivity|].
      apply (G items (None, None)); [auto | discriminate | now rewrite Hf].
    + destruct items as [|c r]; [contradiction|]. exists c. split; [reflexivity | now left].
Qed.

Lemma startState_inv (sorted : list AnecdoteMeta) (targetLength : Z)
    (current : AnecdoteMeta) :
  In current sorted -> ChainInv sorted targetLength (startState current).
Proof.
  intros Hin. constructor; simpl.
  - reflexivity.
  - repeat constructor. intros [].
  - intros x [<-|[]]. assumption.
  - lia.
  - lia.
  - destruct sorted; [contradiction | simpl; lia].
  - reflexivity.
Qed.

(** The loop of [buildChain] ends within as many passes as there are items:
    more fuel than that changes nothing. *)
Lemma buildChainFuel_enough (items : list AnecdoteMeta) (recipe : StorylineRecipe.t)
    (targetLength : Z) (usage : JsMap.t nat) (tagWeights : TagWeights) (extra : nat) :
  buildChainFuel (List.length items + extra) items recipe targetLength usage tagWeights
  = Some (buildChain items recipe targetLength usage tagWeights).
Proof.
  unfold buildChain, buildChainFuel.
  destruct items as [|i0 rest]; [reflexivity|].
  set (items := i0 :: rest). set (sorted := Array_sort byTimestamp items).
  destruct (pickStart sorted recipe usage tagWeights) as [current|]; [|reflexivity].
  fold (startState current).
  destruct (extendLoop_enough sorted recipe targetLength usage tagWeights
              (List.length items) (startState current)) as [r Hr].
  { unfold sorted. rewrite Array_sort_length. lia. }
  rewrite (extendLoop_more_fuel _ _ _ _ _ _ _ _ Hr extra), Hr. reflexivity.
Qed.

(** The chain of a non-empty item list, as the final state of the loop. *)
Lemma buildChain_final (items : list AnecdoteMeta) (recipe : StorylineRecipe.t)
    (targetLength : Z) (usage : JsMap.t nat) (tagWeights : TagWeights) :
  items <> [] ->
  exists st,
    ChainInv (Array_sort byTimestamp items) targetLength st
    /\ DebugInv st
    /\ buildChain items recipe targetLength usage tagWeights
       = {| chain := ls_chain st; debugByBeat := ls_debugByBeat st |}
    /\ exists current fuel,
         extendLoop fuel (Array_sort byTimestamp items) recipe targetLength usage
           tagWeights (startState current) = Some st.
Proof.
  intros Hne.
  pose proof (buildChainFuel_enough items recipe targetLength usage tagWeights 0) as H.
  rewrite Nat.add_0_r in H. unfold buildChainFuel in H.
  destruct items as [|i0 rest]; [contradiction|].
  set (items := i0 :: rest) in *. set (sorted := Array_sort byTimestamp items) in *.
  destruct (pickStart_some sorted recipe usage tagWeights) as [c [Hc Hin]].
  { intros E. apply (f_equal (@List.length _)) in E. unfold sorted in E.
    rewrite Array_sort_length in E. discriminate. }
  rewrite Hc in H. fold (startState c) in H.
  destruct (extendLoop _ sorted recipe targetLength usage tagWeights (startState c))
    as [st|] eqn:Hl; [|discriminate].
  exists st. split; [|split; [|split]].
  - apply (extendLoop_inv _ _ _ _ _ _ _ _ (startState_inv sorted targetLength c Hin) Hl).
  - apply (extendLoop_debug _ _ _ _ _ _ _ _ (startState_inv sorted targetLength c Hin)
             (startState_debug c) Hl).
  - now injection H.
  - eauto.
Qed.

Lemma buildChain_ok (items : list AnecdoteMeta) (recipe : StorylineRecipe.t)
    (targetLength : Z) (usage : JsMap.t nat) (tagWeights : TagWeights) :
  items <> [] ->
  ChainOk items targetLength (chain (buildChain items recipe targetLength usage tagWeights)).
Proof.
  intros Hne.
  destruct (buildChain_final items recipe targetLength usage tagWeights Hne)
    as [st [[Hused Hnd Hincl Hn Ht Hi _] [_ [-> _]]]].
  simpl. constructor.
  - now rewrite <- Hused.
  - intros x Hx. apply (Array_sort_In byTimestamp). auto.
  - assumption.
  - assumption.
  - now rewrite Array_sort_length in Hi.
Qed.

Lemma buildChain_empty (recipe : StorylineRecipe.t) (targetLength : Z)
    (usage : JsMap.t nat) (tagWeights : TagWeights) :
  buildChain [] recipe targetLength usage tagWeights = emptyChain.
Proof. reflexivity. Qed.

Lemma buildChain_debug (items : list AnecdoteMeta) (recipe : StorylineRecipe.t)
    (targetLength : Z) (usage : JsMap.t nat) (tagWeights : TagWeights) :
  DebugOk (chain (buildChain items recipe targetLength usage tagWeights))
          (debugByBeat (buildChain items recipe targetLength usage tagWeights)).
Proof.
  destruct items as [|i0 rest].
  - rewrite buildChain_empty. intros i p b Hp. destruct i; discriminate.
  - destruct (buildChain_final (i0 :: rest) recipe targetLength usage tagWeights)
      as [st [_ [Hd [-> _]]]]; [discriminate | exact Hd].
Qed.

Lemma targetLengthFor_bounds (itemCount : nat) : (4 <= targetLengthFor itemCount <= 8)%Z.
Proof. unfold targetLengthFor. lia. Qed.

(** C5. [buildChain] terminates: its loop, run with any fuel of at least the
    number of items, ends and returns the chain of [buildChain]; every pass
    uses up an item that was unused.  The chain has at most
    [max(1, targetLength)] items and at most as many as there are items.  The
    target length the assembler passes for the normal recipes,
    [min(8, max(4, round(itemCount * 0.45)))], lies between 4 and 8, so a chain
    built for a normal recipe has at most 8 items. *)
Theorem buildChain_terminates_bounded (items : list AnecdoteMeta)
    (recipe : StorylineRecipe.t) (targetLength : Z) (usage : JsMap.t nat)
    (tagWeights : TagWeights) :
  (forall extra,
      buildChainFuel (List.length items + extra) items recipe targetLength usage tagWeights
      = Some (buildChain items recipe targetLength usage tagWeights))
  /\ (forall st st',
        extendChain (Array_sort byTimestamp items) recipe usage tagWeights st = Some st' ->
        exists b, JsSet.has (ls_used st) (idOf b) = false /\ In b items
                  /\ ls_used st' = (ls_used st ++ [idOf b])%list)
  /\ (Z.of_nat (List.length (chain (buildChain items recipe targetLength usage tagWeights)))
      <= Z.max 1 targetLength)%Z
  /\ List.length (chain (buildChain items recipe targetLength usage tagWeights))
     <= List.length items
  /\ (4 <= targetLengthFor (List.length items) <= 8)%Z
  /\ List.length
       (chain (buildChain items recipe (targetLengthFor (List.length items)) usage
                 tagWeights)) <= 8.
Proof.
  assert (B : forall target,
             (Z.of_nat (List.length (chain (buildChain items recipe target usage tagWeights)))
              <= Z.max 1 target)%Z
             /\ List.length (chain (buildChain items recipe target usage tagWeights))
                <= List.length items).
  { intros target. destruct items as [|i0 rest].
    - rewrite buildChain_empty. simpl. lia.
    - destruct (buildChain_ok (i0 :: rest) recipe target usage tagWeights)
        as [_ _ _ Ht Hi]; [discriminate | now split]. }
  pose proof (targetLengthFor_bounds (List.length items)) as Hb.
  split; [intros; apply buildChainFuel_enough|].
  split.
  { intros st st' H. apply extendChain_spec in H.
    destruct H as [b [Hu [Hin [_ [Hus _]]]]]. exists b.
    split; [assumption|]. split; [|assumption].
    now apply (proj1 (Array_sort_In byTimestamp items b)). }
  repeat split; try apply B; try apply Hb.
  destruct (B (targetLengthFor (List.length items))) as [H _]. lia.
Qed.

(** ** The renderer *)

Lemma renderBeats_anecdotes (recipe : StorylineRecipe.t)
    (debug : JsMap.t StorylineScoreBreakdown.t) (total : nat) (rest : list AnecdoteMeta) :
  forall index prev,
    map StorylineBeat.anecdote (renderBeats recipe debug total index prev rest) = rest.
Proof.
  induction rest as [|b r IH]; intros index prev; simpl; [reflexivity|].
  now rewrite IH.
Qed.

Lemma renderBeats_length (recipe : StorylineRecipe.t)
    (debug : JsMap.t StorylineScoreBreakdown.t) (total index : nat)
    (prev : option AnecdoteMeta) (rest : list AnecdoteMeta) :
  List.length (renderBeats recipe debug total index prev rest) = List.length rest.
Proof.
  rewrite <- (renderBeats_anecdotes recipe debug total rest index prev) at 2.
  now rewrite length_map.
Qed.

Lemma buildStoryline_normal (recipe : StorylineRecipe.t) (c : list AnecdoteMeta)
    (debug : JsMap.t StorylineScoreBreakdown.t) :
  1 <= List.length c ->
  exists s,
    buildStoryline recipe c debug = Normal s
    /\ Storyline.id s = StorylineRecipe.id recipe
    /\ Storyline.beats s = renderBeats recipe debug (List.length c) 0 None c.
Proof.
  intros Hlen. unfold buildStoryline.
  destruct c as [|first rest]; [simpl in Hlen; lia|].
  eexists. split; [reflexivity|]. split; reflexivity.
Qed.

(** ** The assembler *)

Section AssemblerFacts.
Variable items : list AnecdoteMeta.
Variable targetLength : Z.
Variable tagWeights : TagWeights.

(** The three ways the callback of [recipes.forEach] can end. *)
Lemma processRecipe_cases (st : AssemblerState) (recipe : StorylineRecipe.t) :
  let built := buildChain items recipe targetLength (usage st) tagWeights in
  (List.length (chain built) < 3
   /\ processRecipe items targetLength tagWeights st recipe = Normal st)
  \/ (3 <= List.length (chain built)
      /\ JsSet.has (signatures st) (signatureOf (chain built)) = true
      /\ processRecipe items targetLength tagWeights st recipe = Normal st)
  \/ (3 <= List.length (chain built)
      /\ JsSet.has (signatures st) (signatureOf (chain built)) = false
      /\ exists s,
           EmittedBy items tagWeights recipe s
           /\ map StorylineBeat.anecdote (Storyline.beats s) = chain built
           /\ processRecipe items targetLength tagWeights st recipe
              = Normal {| usage := chargeUsage (usage st) (chain built);
                          storylines := (storylines st ++ [s])%list;
                          signatures :=
                            JsSet.add (signatures st) (signatureOf (chain built)) |}).
Proof.
  intros built. unfold processRecipe. fold built.
  destruct (List.length (chain built) <? 3)%nat eqn:Hlen.
  - left. apply Nat.ltb_lt in Hlen. now split.
  - right. apply Nat.ltb_ge in Hlen.
    destruct (JsSet.has (signatures st) (signatureOf (chain built))) eqn:Hsig.
    + left. now repeat split.
    + right. repeat split; try assumption.
      destruct (buildStoryline_normal recipe (chain built) (debugByBeat built))
        as [s [Hs [Hid Hbeats]]]; [lia|].
      exists s. split; [|split].
      * exists targetLength, (usage st). fold built.
        split; [|split; [apply buildChain_debug | split; assumption]].
        apply buildChain_ok. intros E. subst built.
        rewrite E, buildChain_empty in Hlen. simpl in Hlen. lia.
      * rewrite Hbeats. apply renderBeats_anecdotes.
      * rewrite Hs. reflexivity.
Qed.

Lemma forEachRecipe_spec (recipes : list StorylineRecipe.t) :
  forall st,
  exists st',
    forEachRecipe items targetLength tagWeights recipes st = Normal st'
    /\ forall s, In s (storylines st') ->
         In s (storylines st)
         \/ exists recipe, In recipe recipes /\ EmittedBy items tagWeights recipe s
                           /\ 3 <= List.length (Storyline.beats s).
Proof.
  induction recipes as [|recipe rest IH]; intros st; simpl.
  - exists st. split; [reflexivity | auto].
  - destruct (processRecipe_cases st recipe)
      as [[_ ->]|[[_ [_ ->]]|[Hlen [_ [s [He [Han ->]]]]]]]; simpl.
    + destruct (IH st) as [st' [-> H]]. exists st'. split; [reflexivity|].
      intros s Hs. destruct (H s Hs) as [?|[r [? ?]]]; [now left|].
      right. exists r. split; [now right | assumption].
    + destruct (IH st) as [st' [-> H]]. exists st'. split; [reflexivity|].
      intros s Hs. destruct (H s Hs) as [?|[r [? ?]]]; [now left|].
      right. exists r. split; [now right | assumption].
    + match goal with |- context [forEachRecipe _ _ _ rest ?st1] =>
        destruct (IH st1) as [st' [-> H]] end.
      exists st'. split; [reflexivity|].
      intros s' Hs'. destruct (H s' Hs') as [Hin|[r [? ?]]].
      * simpl in Hin. apply in_app_or in Hin. destruct Hin as [?|[<-|[]]]; [now left|].
        right. exists recipe. split; [now left|]. split; [assumption|].
        rewrite <- (length_map StorylineBeat.anecdote), Han. exact Hlen.
      * right. exists r. split; [now right | assumption].
Qed.

(** With fewer than three items no normal recipe emits anything. *)
Lemma forEachRecipe_few_items (recipes : list StorylineRecipe.t) (st : AssemblerState) :
  List.length items < 3 ->
  forEachRecipe items targetLength tagWeights recipes st = Normal st.
Proof.
  intros Hfew. induction recipes as [|recipe rest IH]; simpl; [reflexivity|].
  destruct (processRecipe_cases st recipe) as [[_ ->]|[[Hlen _]|[Hlen _]]];
    [exact IH | exfalso | exfalso].
  all: destruct items as [|i0 r]; [rewrite buildChain_empty in Hlen; simpl in Hlen; lia|].
  all: destruct (buildChain_ok (i0 :: r) recipe targetLength (usage st) tagWeights)
         as [_ _ _ _ Hi]; [discriminate | lia].
Qed.

End AssemblerFacts.

Lemma assemble_spec (items : list AnecdoteMeta) (topTags : list string)
    (tagWeights : TagWeights) :
  exists l,
    assemble items topTags tagWeights = Normal l
    /\ (items <> [] -> l <> [])
    /\ forall s, In s l ->
         (exists recipe, In recipe (recipesFor topTags)
                         /\ EmittedBy items tagWeights recipe s
                         /\ 3 <= List.length (Storyline.beats s))
         \/ (l = [s] /\ EmittedBy items tagWeights (fallbackRecipe topTags) s).
Proof.
  unfold assemble.
  destruct (forEachRecipe_spec items (targetLengthFor (List.length items)) tagWeights
              (recipesFor topTags) initialState) as [st [-> H]].
  simpl bind.
  destruct (storylines st) as [|s0 rest] eqn:Hst.
  - destruct items as [|i0 r] eqn:Hitems.
    + exists []. split; [reflexivity|]. split; [congruence | intros s []].
    + rewrite <- Hitems.
      set (built := buildChain items _ _ _ _).
      assert (Hok : ChainOk items (Z.min 6 (Z.of_nat (List.length items))) (chain built))
        by (apply buildChain_ok; rewrite Hitems; discriminate).
      destruct (buildStoryline_normal (fallbackRecipe topTags) (chain built)
                  (debugByBeat built)) as [s [Hs [Hid Hbeats]]]; [apply Hok|].
      assert (He : EmittedBy items tagWeights (fallbackRecipe topTags) s).
      { exists (Z.min 6 (Z.of_nat (List.length items))), (usage st). fold built.
        split; [assumption|]. split; [apply buildChain_debug|]. split; assumption. }
      rewrite Hs. destruct (chain built) as [|c0 cr] eqn:Hc.
      { destruct Hok as [_ _ Hn _ _]. simpl in Hn. lia. }
      simpl. exists [s]. split; [reflexivity|].
      split; [discriminate|].
      intros s' [<-|[]]. right. split; [reflexivity | exact He].
  - exists (s0 :: rest). split; [destruct items; reflexivity|].
    split; [discriminate|].
    intros s Hs. left. destruct (H s Hs) as [[]|Hr]. exact Hr.
Qed.

Lemma EmittedBy_beats_length (items : list AnecdoteMeta) (tagWeights : TagWeights)
    (recipe : StorylineRecipe.t) (s : Storyline.t) :
  EmittedBy items tagWeights recipe s -> 1 <= List.length (Storyline.beats s).
Proof.
  intros [t [u [[_ _ Hn _ _] [_ [_ ->]]]]]. now rewrite renderBeats_length.
Qed.

Lemma recipesFor_ids (topTags : list string) (recipe : StorylineRecipe.t) :
  In recipe (recipesFor topTags) ->
  In (StorylineRecipe.id recipe) ["chronicle"; "nightlife"; "breakthrough"; "cinematic"].
Proof.
  unfold recipesFor. simpl.
  intros [<-|[<-|[<-|[<-|[]]]]]; simpl; tauto.
Qed.

(** C1. [generateStorylines] raises nothing.  On the empty list it returns
    the empty list; on a non-empty list it returns a non-empty list.  Every
    storyline it returns either comes from one of the four normal recipes and
    has at least three beats, or is the fallback storyline [core], which then
    stands alone in the result. *)
Theorem generateStorylines_total_nonempty (Math_log : Q -> Q)
    (Date_getTime : string -> Z) (anecdotes : list Anecdote.t) :
  exists l,
    generateStorylines Math_log Date_getTime anecdotes = Normal l
    /\ (anecdotes = [] -> l = [])
    /\ (anecdotes <> [] -> l <> [])
    /\ forall s, In s l ->
         (In (Storyline.id s) ["chronicle"; "nightlife"; "breakthrough"; "cinematic"]
          /\ 3 <= List.length (Storyline.beats s))
         \/ (Storyline.id s = "core" /\ l = [s]
             /\ 1 <= List.length (Storyline.beats s)).
Proof.
  unfold generateStorylines.
  destruct anecdotes as [|a0 rest].
  - exists []. split; [reflexivity|]. split; [reflexivity|].
    split; [congruence | intros s []].
  - set (items := toMeta Date_getTime (a0 :: rest)).
    destruct (assemble_spec items (getTopTags items 6) (computeTagWeights Math_log items))
      as [l [Hl [Hne Hall]]].
    exists l. split; [exact Hl|]. split; [discriminate|].
    split; [intros _; apply Hne; discriminate|].
    intros s Hs. destruct (Hall s Hs) as [[recipe [Hin [He H3]]]|[Hl1 He]].
    + left. split; [|exact H3].
      destruct He as [t [u [_ [_ [-> _]]]]].
      now apply (recipesFor_ids (getTopTags items 6)).
    + right. split; [|split; [exact Hl1 | now apply EmittedBy_beats_length in He]].
      now destruct He as [t [u [_ [_ [-> _]]]]].
Qed.

(** ** Connections between beats *)

Lemma renderBeats_head (recipe : StorylineRecipe.t)
    (debug : JsMap.t StorylineScoreBreakdown.t) (total index : nat)
    (prev : option AnecdoteMeta) (beat : AnecdoteMeta) (rest : list AnecdoteMeta) :
  renderBeats recipe debug total index prev (beat :: rest)
  = renderBeat recipe debug total index prev beat
    :: renderBeats recipe debug total (S index) (Some beat) rest.
Proof. reflexivity. Qed.





(** ** Breakdowns attached to beats *)

Lemma renderBeats_debug_after (recipe : StorylineRecipe.t)
    (debug : JsMap.t StorylineScoreBreakdown.t) (total : nat) (rest : list AnecdoteMeta) :
  forall index p j b,
    nth_error (renderBeats recipe debug total index (Some p) rest) j = Some b ->
    StorylineBeat.debug b = debugOf debug (StorylineBeat.anecdote b).
Proof.
  induction rest as [|beat r IH]; intros index p j b H.
  - destruct j; discriminate.
  - rewrite renderBeats_head in H. destruct j as [|j].
    + simpl in H. injection H as <-. reflexivity.
    + exact (IH _ _ _ _ H).
Qed.

Lemma EmittedBy_debug (items : list AnecdoteMeta) (tagWeights : TagWeights)
    (recipe : StorylineRecipe.t) (s : Storyline.t) :
  EmittedBy items tagWeights recipe s ->
  forall i p b,
    nth_error (Storyline.beats s) i = Some p ->
    nth_error (Storyline.beats s) (S i) = Some b ->
    exists breakdown,
      StorylineBeat.debug b = Some breakdown
      /\ StorylineScoreBreakdown.previousAnecdoteId breakdown
         = Anecdote.id (StorylineBeat.anecdote p)
      /\ (Qle_bool 0 (StorylineScoreBreakdown.total breakdown) = true ->
          StorylineScoreBreakdown.candidateAnecdoteId breakdown
          = Anecdote.id (StorylineBeat.anecdote b)).
Proof.
  intros [t [u [_ [Hd [_ Hbeats]]]]] i p b Hp Hb.
  set (built := buildChain items recipe t u tagWeights) in *.
  assert (Hp' : nth_error (chain built) i = Some (StorylineBeat.anecdote p)).
  { rewrite <- (renderBeats_anecdotes recipe (debugByBeat built)
                  (List.length (chain built)) (chain built) 0 None), <- Hbeats.
    rewrite nth_error_map, Hp. reflexivity. }
  assert (Hb' : nth_error (chain built) (S i) = Some (StorylineBeat.anecdote b)).
  { rewrite <- (renderBeats_anecdotes recipe (debugByBeat built)
                  (List.length (chain built)) (chain built) 0 None), <- Hbeats.
    rewrite nth_error_map, Hb. reflexivity. }
  destruct (Hd _ _ _ Hp' Hb') as [bd [Hget H]].
  exists bd. split; [|exact H].
  rewrite Hbeats in Hb. destruct (chain built) as [|c0 cr]; [discriminate|].
  rewrite renderBeats_head in Hb. simpl in Hb.
  rewrite (renderBeats_debug_after _ _ _ _ _ _ _ _ Hb). exact Hget.
Qed.

(** The part of C2 that holds on every input: in every storyline that
    [generateStorylines] returns, each beat after the first carries a
    breakdown whose previous anecdote is the beat before it, and whose
    candidate is the beat itself whenever the recorded total is not negative
    (a negative total is what sends the chain builder to the
    nearest-chronological fallback). *)
Theorem breakdowns_name_previous_beat (Math_log : Q -> Q) (Date_getTime : string -> Z)
    (anecdotes : list Anecdote.t) :
  exists l,
    generateStorylines Math_log Date_getTime anecdotes = Normal l
    /\ forall s, In s l ->
       forall i p b,
         nth_error (Storyline.beats s) i = Some p ->
         nth_error (Storyline.beats s) (S i) = Some b ->
         exists breakdown,
           StorylineBeat.debug b = Some breakdown
           /\ StorylineScoreBreakdown.previousAnecdoteId breakdown
              = Anecdote.id (StorylineBeat.anecdote p)
           /\ (Qle_bool 0 (StorylineScoreBreakdown.total breakdown) = true ->
               StorylineScoreBreakdown.candidateAnecdoteId breakdown
               = Anecdote.id (StorylineBeat.anecdote b)).
Proof.
  unfold generateStorylines.
  destruct anecdotes as [|a0 rest].
  - exists []. split; [reflexivity | intros s []].
  - set (items := toMeta Date_getTime (a0 :: rest)).
    destruct (assemble_spec items (getTopTags items 6) (computeTagWeights Math_log items))
      as [l [Hl [_ Hall]]].
    exists l. split; [exact Hl|].
    intros s Hs. destruct (Hall s Hs) as [[recipe [_ [He _]]]|[_ He]];
      exact (EmittedBy_debug _ _ _ _ He).
Qed.

(** ** The usage counter *)

Lemma chargeUsage_count (c : list AnecdoteMeta) :
  forall (u : JsMap.t nat) (k : string),
    getOr0 (chargeUsage u c) k = getOr0 u k + count_occ string_dec (map idOf c) k.
Proof.
  unfold chargeUsage.
  induction c as [|item r IH]; intros u k; simpl; [lia|].
  rewrite IH. fold (idOf item).
  destruct (string_dec (idOf item) k) as [->|Hne].
  - rewrite getOr0_set_same. lia.
  - rewrite getOr0_set_other by congruence. lia.
Qed.

Lemma chargeUsage_nodup (c : list AnecdoteMeta) (u : JsMap.t nat) (k : string) :
  NoDup (map idOf c) ->
  getOr0 (chargeUsage u c) k
  = getOr0 u k + (if JsString.mem k (map idOf c) then 1 else 0).
Proof.
  intros Hnd. rewrite chargeUsage_count.
  destruct (JsString.mem k (map idOf c)) eqn:Hm.
  - apply mem_In in Hm. now rewrite (proj1 (NoDup_count_occ' string_dec _) Hnd k Hm).
  - apply mem_false in Hm. now rewrite (proj1 (count_occ_not_In string_dec _ k) Hm).
Qed.

Lemma appearances_app (l1 l2 : list Storyline.t) (k : string) :
  appearances (l1 ++ l2) k = appearances l1 k + appearances l2 k.
Proof. unfold appearances. now rewrite filter_app, length_app. Qed.

(** The whole loop over the recipes: the counter of an id grows by the
    number of storylines the loop appends in which the id is a beat. *)
Lemma forEachRecipe_usage (items : list AnecdoteMeta) (targetLength : Z)
    (tagWeights : TagWeights) (recipes : list StorylineRecipe.t) :
  forall st,
  exists st' emitted,
    forEachRecipe items targetLength tagWeights recipes st = Normal st'
    /\ storylines st' = (storylines st ++ emitted)%list
    /\ forall k, getOr0 (usage st') k = getOr0 (usage st) k + appearances emitted k.
Proof.
  induction recipes as [|recipe rest IH]; intros st; simpl.
  - exists st, []. split; [reflexivity|]. split; [now rewrite app_nil_r|].
    intros k. unfold appearances. simpl. lia.
  - pose proof (processRecipe_cases items targetLength tagWeights st recipe) as H.
    cbv zeta in H.
    set (built := buildChain items recipe targetLength (usage st) tagWeights) in *.
    destruct H as [[_ ->]|[[_ [_ ->]]|[Hlen [_ [s [_ [Han ->]]]]]]]; simpl.
    + apply IH.
    + apply IH.
    + match goal with |- context [forEachRecipe _ _ _ rest ?st1] =>
        destruct (IH st1) as [st' [emitted [-> [Hst Hus]]]] end.
      exists st', (s :: emitted). split; [reflexivity|].
      split; [simpl in Hst; now rewrite Hst, <- app_assoc|].
      intros k. rewrite Hus. simpl usage.
      rewrite chargeUsage_nodup.
      * change (s :: emitted) with ([s] ++ emitted)%list. rewrite appearances_app.
        unfold appearances at 2, beatIds. simpl.
        rewrite <- (map_map StorylineBeat.anecdote (fun a : AnecdoteMeta => Anecdote.id a)).
        rewrite Han. fold idOf.
        change (map (fun a : AnecdoteMeta => Anecdote.id a) (chain built))
          with (map idOf (chain built)).
        destruct (JsString.mem k (map idOf (chain built))); simpl; lia.
      * destruct items as [|i0 r];
          [subst built; rewrite buildChain_empty in Hlen; simpl in Hlen; lia|].
        now destruct (buildChain_ok (i0 :: r) recipe targetLength (usage st) tagWeights)
          as [Hnd _ _ _ _].
Qed.

(** C8. One pass of the assembler over a recipe: a chain shorter than three
    items, or one whose signature was already recorded, leaves the usage
    counter and the rest of the state as they were; otherwise one storyline
    is appended, and the count of an id grows by one when the id is in the
    chain and stays the same when it is not.  Over the whole loop the count of
    an id grows by the number of appended storylines in which it is a beat.
    The scorer and the chain builder take the counter as an argument and
    return none.  (The fallback storyline is built after the loop, which is
    the only place that writes the counter.) *)
Theorem usage_changes_only_on_emit (items : list AnecdoteMeta) (targetLength : Z)
    (tagWeights : TagWeights) (st : AssemblerState) (recipe : StorylineRecipe.t) :
  let built := buildChain items recipe targetLength (usage st) tagWeights in
  let dropped :=
    (List.length (chain built) <? 3)%nat
    || JsSet.has (signatures st) (signatureOf (chain built)) in
  (exists st',
     processRecipe items targetLength tagWeights st recipe = Normal st'
     /\ (dropped = true -> st' = st)
     /\ (dropped = false ->
         (exists s, storylines st' = (storylines st ++ [s])%list
                    /\ map StorylineBeat.anecdote (Storyline.beats s) = chain built)
         /\ forall k,
              getOr0 (usage st') k
              = getOr0 (usage st) k
                + (if JsString.mem k (map idOf (chain built)) then 1 else 0)))
  /\ forall recipes,
       exists st' emitted,
         forEachRecipe items targetLength tagWeights recipes st = Normal st'
         /\ storylines st' = (storylines st ++ emitted)%list
         /\ forall k, getOr0 (usage st') k = getOr0 (usage st) k + appearances emitted k.
Proof.
  pose proof (processRecipe_cases items targetLength tagWeights st recipe) as H.
  cbv zeta in *.
  set (built := buildChain items recipe targetLength (usage st) tagWeights) in *.
  split; [|intros recipes; apply forEachRecipe_usage].
  destruct H as [[Hlen ->]|[[Hlen [Hsig ->]]|[Hlen [Hsig [s [He [Han ->]]]]]]].
  - exists st. split; [reflexivity|]. split; [reflexivity|].
    apply Nat.ltb_lt in Hlen. rewrite Hlen. discriminate.
  - exists st. split; [reflexivity|]. split; [reflexivity|].
    rewrite Hsig, orb_true_r. discriminate.
  - eexists. split; [reflexivity|]. split.
    + apply Nat.ltb_ge in Hlen. rewrite Hlen, Hsig. discriminate.
    + intros _. simpl. split; [exists s; now split|].
      intros k. apply chargeUsage_nodup.
      destruct items as [|i0 r];
        [subst built; rewrite buildChain_empty in Hlen; simpl in Hlen; lia|].
      now destruct (buildChain_ok (i0 :: r) recipe targetLength (usage st) tagWeights)
        as [Hnd _ _ _ _].
Qed.

(** ** Chains that take every item *)

Lemma extendLoop_exit (sorted : list AnecdoteMeta) (recipe : StorylineRecipe.t)
    (targetLength : Z) (usage : JsMap.t nat) (tagWeights : TagWeights) (fuel : nat) :
  forall st r,
    extendLoop fuel sorted recipe targetLength usage tagWeights st = Some r ->
    loopContinues sorted targetLength r = false
    \/ extendChain sorted recipe usage tagWeights r = None.
Proof.
  induction fuel as [|fuel IH]; intros st r H; simpl in H.
  - destruct (loopContinues sorted targetLength st) eqn:Hc; [discriminate|].
    injection H as <-. now left.
  - destruct (loopContinues sorted targetLength st) eqn:Hc;
      [|injection H as <-; now left].
    destruct (extendChain sorted recipe usage tagWeights st) as [st'|] eqn:Hs.
    + exact (IH _ _ H).
    + injection H as <-. now right.
Qed.

(** When the ids of the items are pairwise distinct and the target length is
    not below their number, the chain is a rearrangement of the items. *)
Lemma buildChain_takes_all (items : list AnecdoteMeta) (recipe : StorylineRecipe.t)
    (targetLength : Z) (usage : JsMap.t nat) (tagWeights : TagWeights) :
  NoDup (map idOf items) ->
  (Z.of_nat (List.length items) <= targetLength)%Z ->
  Permutation (chain (buildChain items recipe targetLength usage tagWeights)) items.
Proof.
  intros Hnd Htarget.
  destruct items as [|i0 rest]; [rewrite buildChain_empty; reflexivity|].
  set (items := i0 :: rest) in *.
  destruct (buildChain_final items recipe targetLength usage tagWeights)
    as [st [Hinv [_ [-> [current [fuel Hloop]]]]]]; [discriminate|].
  simpl. set (sorted := Array_sort byTimestamp items) in *.
  destruct Hinv as [Hused Hndu Hincl Hne Ht Hi Hcur].
  assert (Hlen : List.length sorted = List.length items) by apply Array_sort_length.
  assert (Hul : List.length (ls_used st) = List.length (ls_chain st))
    by (rewrite Hused; apply length_map).
  assert (Hfull : List.length sorted <= List.length (ls_chain st)).
  { destruct (extendLoop_exit _ _ _ _ _ _ _ _ Hloop) as [Hc|Hb].
    - unfold loopContinues, JsSet.size in Hc. apply andb_false_iff in Hc.
      destruct Hc as [Hc|Hc]; [apply Z.ltb_ge in Hc | apply Nat.ltb_ge in Hc]; lia.
    - pose proof (extendChain_break _ _ _ _ _ Hb) as Hall.
      rewrite <- Hul, <- (length_map idOf sorted).
      apply NoDup_incl_length.
      + apply (Permutation_NoDup (l := map idOf items)); [|assumption].
        apply Permutation_map. symmetry. apply Array_sort_perm.
      + intros k Hk. apply in_map_iff in Hk. destruct Hk as [x [<- Hx]].
        apply mem_In. exact (Hall x Hx). }
  transitivity sorted; [|apply Array_sort_perm].
  apply NoDup_Permutation_bis.
  - rewrite Hused in Hndu. now apply NoDup_map_inv in Hndu.
  - exact Hfull.
  - exact Hincl.
Qed.

Lemma toMeta_ids (Date_getTime : string -> Z) (anecdotes : list Anecdote.t) :
  map idOf (toMeta Date_getTime anecdotes) = map Anecdote.id anecdotes.
Proof. unfold toMeta. rewrite map_map. reflexivity. Qed.

Lemma toMeta_anecdotes (Date_getTime : string -> Z) (anecdotes : list Anecdote.t) :
  map anecdote (toMeta Date_getTime anecdotes) = anecdotes.
Proof. unfold toMeta. rewrite map_map. simpl. apply map_id. Qed.

(** C9. From exactly two anecdotes with different ids [generateStorylines]
    returns exactly one storyline, the fallback [core], and its two beats
    carry the two anecdotes. *)
Theorem two_anecdotes_give_core (Math_log : Q -> Q) (Date_getTime : string -> Z)
    (a b : Anecdote.t) :
  Anecdote.id a <> Anecdote.id b ->
  exists s,
    generateStorylines Math_log Date_getTime [a; b] = Normal [s]
    /\ Storyline.id s = "core"
    /\ Permutation
         (map (fun beat => anecdote (StorylineBeat.anecdote beat)) (Storyline.beats s))
         [a; b].
Proof.
  intros Hab. unfold generateStorylines.
  set (items := toMeta Date_getTime [a; b]).
  set (topTags := getTopTags items 6). set (tw := computeTagWeights Math_log items).
  unfold assemble.
  rewrite forEachRecipe_few_items by (simpl; lia).
  simpl bind. cbv beta iota. 
  change (storylines initialState) with (@nil Storyline.t).
  change (usage initialState) with (@JsMap.empty nat).
  set (built := buildChain items (fallbackRecipe topTags) _ _ tw).
  assert (Hperm : Permutation (chain built) items).
  { apply buildChain_takes_all.
    - unfold items. rewrite toMeta_ids. simpl.
      repeat constructor; simpl; intuition congruence.
    - simpl. lia. }
  destruct (buildStoryline_normal (fallbackRecipe topTags) (chain built)
              (debugByBeat built)) as [s [Hs [Hid Hbeats]]].
  { rewrite (Permutation_length Hperm). simpl. lia. }
  destruct (chain built) as [|c0 cr] eqn:Hc.
  { apply Permutation_length in Hperm. discriminate. }
  rewrite Hs. simpl. exists s. split; [reflexivity|]. split; [exact Hid|].
  rewrite Hbeats, <- map_map, renderBeats_anecdotes.
  rewrite (Permutation_map anecdote Hperm). unfold items.
  now rewrite toMeta_anecdotes.
Qed.

(** ** Tag weights *)

Lemma ofNat_pos (n : nat) : (0 < ofNat (n + 1))%Q.
Proof.
  unfold ofNat. change 0%Q with (inject_Z 0). rewrite <- Zlt_Qlt. lia.
Qed.

Lemma ratio_pos (n d : nat) : (0 < ofNat (n + 1) / ofNat (d + 1))%Q.
Proof.
  apply Qlt_shift_div_l; [apply ofNat_pos|]. rewrite Qmult_0_l. apply ofNat_pos.
Qed.

Lemma ratio_ge_1 (n d : nat) : d <= n -> (1 <= ofNat (n + 1) / ofNat (d + 1))%Q.
Proof.
  intros H. apply Qle_shift_div_l; [apply ofNat_pos|]. rewrite Qmult_1_l.
  unfold ofNat. rewrite <- Zle_Qle. lia.
Qed.

Lemma ratio_antitone (n d1 d2 : nat) :
  d1 <= d2 -> (ofNat (n + 1) / ofNat (d2 + 1) <= ofNat (n + 1) / ofNat (d1 + 1))%Q.
Proof.
  intros H. apply Qle_shift_div_l; [apply ofNat_pos|].
  unfold Qdiv. rewrite <- Qmult_assoc, (Qmult_comm (/ _)), Qmult_assoc.
  apply Qle_shift_div_r; [apply ofNat_pos|].
  apply Qmult_le_l; [apply ofNat_pos|].
  unfold ofNat. rewrite <- Zle_Qle. lia.
Qed.

Lemma Qmake_le (a b : Z) (p : positive) : (a <= b)%Z -> (a # p <= b # p)%Q.
Proof.
  intros H. unfold Qle. cbn [Qnum Qden]. apply Z.mul_le_mono_nonneg_r; lia.
Qed.

Lemma Qmake_nonneg (a : Z) (p : positive) : (0 <= a)%Z -> (0 <= a # p)%Q.
Proof. intros H. unfold Qle. cbn [Qnum Qden]. lia. Qed.

Lemma toFixed3_mono (x y : Q) : (x <= y)%Q -> (toFixed3 x <= toFixed3 y)%Q.
Proof.
  intros H. unfold toFixed3.
  assert (F : forall u v, (u <= v)%Q ->
             (Qfloor (u * 1000 + (1 # 2)) # 1000 <= Qfloor (v * 1000 + (1 # 2)) # 1000)%Q).
  { intros u v Huv. apply Qmake_le, Qfloor_resp_le. lra. }
  destruct (Qle_bool 0 x) eqn:Hx, (Qle_bool 0 y) eqn:Hy.
  - now apply F.
  - apply Qle_bool_iff in Hx. 
    assert (~ (0 <= y)%Q) by (rewrite <- Qle_bool_iff; congruence). lra.
  - assert (Hx' : ~ (0 <= x)%Q) by (rewrite <- Qle_bool_iff; congruence).
    apply Qle_bool_iff in Hy.
    assert (A : (0 <= Qfloor (y * 1000 + (1 # 2)) # 1000)%Q).
    { apply Qmake_nonneg. change 0%Z with (Qfloor 0). apply Qfloor_resp_le. lra. }
    assert (B : (0 <= Qfloor (- x * 1000 + (1 # 2)) # 1000)%Q).
    { apply Qmake_nonneg. change 0%Z with (Qfloor 0). apply Qfloor_resp_le. lra. }
    lra.
  - apply Qopp_le_compat. apply F. lra.
Qed.

Lemma toFixed3_ge_1 (x : Q) : (1 <= x)%Q -> (1 <= toFixed3 x)%Q.
Proof.
  intros H. apply (Qle_trans _ (toFixed3 1)); [|now apply toFixed3_mono].
  vm_compute. discriminate.
Qed.

Lemma thousandth (n : Z) : (n # 1000 == inject_Z n * (1 # 1000))%Q.
Proof. unfold Qeq. simpl. lia. Qed.

Lemma round_near (y : Q) :
  (- (1 # 2000) < (Qfloor (y * 1000 + (1 # 2)) # 1000) - y <= 1 # 2000)%Q.
Proof.
  pose proof (Qfloor_le (y * 1000 + (1 # 2))) as L.
  pose proof (Qlt_floor (y * 1000 + (1 # 2))) as U.
  rewrite inject_Z_plus in U. rewrite thousandth.
  set (n := inject_Z (Qfloor (y * 1000 + (1 # 2)))) in *.
  change (inject_Z 1) with 1%Q in U.
  split; lra.
Qed.

(** [toFixed3 x] is a whole number of thousandths, at most half a thousandth
    away from [x]. *)
Lemma toFixed3_rounds (x : Q) :
  (exists n : Z, toFixed3 x == n # 1000)%Q /\ (Qabs (toFixed3 x - x) <= 1 # 2000)%Q.
Proof.
  unfold toFixed3. destruct (Qle_bool 0 x).
  - split; [eexists; reflexivity|].
    apply Qabs_Qle_condition. pose proof (round_near x). lra.
  - split; [exists (- Qfloor (- x * 1000 + (1 # 2)))%Z; reflexivity|].
    apply Qabs_Qle_condition. pose proof (round_near (- x)). lra.
Qed.

Lemma JsMap_get_None {V : Type} (m : JsMap.t V) (k : string) :
  JsMap.get m k = None <-> ~ In k (keysOf m).
Proof.
  induction m as [|[k' v] r IH]; simpl.
  - tauto.
  - destruct (String.eqb_spec k k') as [->|Hne].
    + split; [discriminate | intros H; exfalso; apply H; now left].
    + rewrite IH. split; [intros H [E|E]; [congruence | contradiction] | tauto].
Qed.

Lemma keysOf_set {V : Type} (m : JsMap.t V) (k : string) (v : V) :
  keysOf (JsMap.set m k v)
  = if JsString.mem k (keysOf m) then keysOf m else (keysOf m ++ [k])%list.
Proof.
  induction m as [|[k' v'] r IH]; simpl; [reflexivity|].
  destruct (String.eqb_spec k k') as [->|Hne]; simpl; [reflexivity|].
  rewrite IH. fold (JsString.mem k (keysOf r)).
  now destruct (JsString.mem k (keysOf r)).
Qed.

Lemma keysOf_set_NoDup {V : Type} (m : JsMap.t V) (k : string) (v : V) :
  NoDup (keysOf m) -> NoDup (keysOf (JsMap.set m k v)).
Proof.
  intros H. rewrite keysOf_set.
  destruct (JsString.mem k (keysOf m)) eqn:Hm; [assumption|].
  apply mem_false in Hm.
  apply NoDup_app; [assumption | repeat constructor; intros [] |].
  intros x Hx [<-|[]]. contradiction.
Qed.

Lemma dedupe_acc_In (l : list string) :
  forall seen x, In x (JsString.dedupe_acc seen l) <-> In x l /\ ~ In x seen.
Proof.
  induction l as [|y r IH]; intros seen x; simpl; [tauto|].
  destruct (JsString.mem y seen) eqn:Hm.
  - apply mem_In in Hm. rewrite IH. split; [tauto|].
    intros [[<-|H] Hn]; [contradiction | tauto].
  - apply mem_false in Hm. simpl. rewrite IH. simpl. split.
    + intros [<-|[H Hn]]; [tauto|]. split; [tauto|]. intros Hs. apply Hn. now right.
    + intros [[<-|H] Hn]; [now left|].
      destruct (string_dec y x) as [->|Hne]; [now left|]. right. split; [assumption|].
      intros [E|E]; [congruence | contradiction].
Qed.

Lemma dedupe_acc_NoDup (l : list string) :
  forall seen, NoDup (JsString.dedupe_acc seen l).
Proof.
  induction l as [|y r IH]; intros seen; simpl; [constructor|].
  destruct (JsString.mem y seen); [apply IH|].
  constructor; [|apply IH]. rewrite dedupe_acc_In. intros [_ H]. apply H. now left.
Qed.

Lemma dedupe_In (l : list string) (x : string) : In x (JsString.dedupe l) <-> In x l.
Proof. unfold JsString.dedupe. rewrite dedupe_acc_In. simpl. tauto. Qed.

Lemma dedupe_NoDup (l : list string) : NoDup (JsString.dedupe l).
Proof. apply dedupe_acc_NoDup. Qed.

Lemma mem_dedupe (l : list string) (x : string) :
  JsString.mem x (JsString.dedupe l) = JsString.mem x l.
Proof.
  destruct (JsString.mem x l) eqn:Hm.
  - apply mem_In. apply dedupe_In. now apply mem_In.
  - apply mem_false. rewrite dedupe_In. now apply mem_false.
Qed.

Lemma countDocument_get (uniqueTags : list string) :
  forall (m : JsMap.t nat) (k : string),
    NoDup uniqueTags ->
    JsMap.get (countDocument m uniqueTags) k
    = if JsString.mem k uniqueTags then Some (getOr0 m k + 1) else JsMap.get m k.
Proof.
  unfold countDocument.
  induction uniqueTags as [|t r IH]; intros m k Hnd; simpl; [reflexivity|].
  inversion Hnd as [|? ? Hnot Hnd']; subst.
  rewrite (IH _ _ Hnd').
  destruct (String.eqb_spec k t) as [->|Hne]; simpl.
  - apply mem_false in Hnot. rewrite Hnot. now rewrite JsMap_get_set_same.
  - rewrite getOr0_set_other, JsMap_get_set_other by assumption. reflexivity.
Qed.

Lemma countDocument_keys (uniqueTags : list string) :
  forall m : JsMap.t nat, NoDup (keysOf m) -> NoDup (keysOf (countDocument m uniqueTags)).
Proof.
  unfold countDocument.
  induction uniqueTags as [|t r IH]; intros m H; simpl; [assumption|].
  apply IH. now apply keysOf_set_NoDup.
Qed.

Lemma docFrequency_le (items : list AnecdoteMeta) (tag : string) :
  docFrequency items tag <= List.length items.
Proof. apply filter_length_le. Qed.

Lemma tagDocs_fold_get (items : list AnecdoteMeta) :
  forall (m : JsMap.t nat) (k : string),
    JsMap.get
      (fold_left (fun tagDocs item => countDocument tagDocs (JsString.dedupe (_tags item)))
                 items m) k
    = match docFrequency items k with
      | 0 => JsMap.get m k
      | S _ => Some (getOr0 m k + docFrequency items k)
      end.
Proof.
  induction items as [|item r IH]; intros m k; [reflexivity|].
  simpl fold_left. rewrite IH.
  pose proof (countDocument_get (JsString.dedupe (_tags item)) m k (dedupe_NoDup _)) as G.
  rewrite mem_dedupe in G. unfold getOr0 at 1. rewrite G.
  assert (D : docFrequency (item :: r) k
              = (if JsString.mem k (_tags item) then 1 else 0) + docFrequency r k).
  { unfold docFrequency. simpl. now destruct (JsString.mem k (_tags item)). }
  rewrite D. fold (getOr0 m k).
  destruct (JsString.mem k (_tags item)); simpl.
  - destruct (docFrequency r k); f_equal; lia.
  - destruct (docFrequency r k); reflexivity.
Qed.

Lemma tagDocsOf_get (items : list AnecdoteMeta) (k : string) :
  JsMap.get (tagDocsOf items) k
  = match docFrequency items k with 0 => None | S _ => Some (docFrequency items k) end.
Proof.
  unfold tagDocsOf. fold countDocument.
  exact (tagDocs_fold_get items JsMap.empty k).
Qed.

Lemma tagDocsOf_keys (items : list AnecdoteMeta) : NoDup (keysOf (tagDocsOf items)).
Proof.
  unfold tagDocsOf.
  assert (G : forall l (m : JsMap.t nat), NoDup (keysOf m) ->
             NoDup (keysOf (fold_left
               (fun tagDocs item => countDocument tagDocs (JsString.dedupe (_tags item)))
               l m))).
  { induction l as [|item r IH]; intros m H; simpl; [assumption|].
    apply IH. now apply countDocument_keys. }
  apply (G items JsMap.empty). constructor.
Qed.

Lemma weights_fold_get (f : nat -> Q) (entries : JsMap.t nat) :
  forall (w : TagWeights) (k : string),
    NoDup (keysOf entries) ->
    JsMap.get
      (fold_left (fun (weights : TagWeights) (entry : string * nat) =>
                    let '(tag, docCount) := entry in JsMap.set weights tag (f docCount))
                 entries w) k
    = match JsMap.get entries k with
      | Some d => Some (f d)
      | None => JsMap.get w k
      end.
Proof.
  induction entries as [|[t d] r IH]; intros w k Hnd; [reflexivity|].
  inversion Hnd as [|? ? Hnot Hnd']; subst.
  simpl fold_left. rewrite (IH _ _ Hnd'). simpl JsMap.get.
  destruct (String.eqb_spec k t) as [->|Hne].
  - apply JsMap_get_None in Hnot. rewrite Hnot. apply JsMap_get_set_same.
  - destruct (JsMap.get r k); [reflexivity|]. now apply JsMap_get_set_other.
Qed.

Lemma computeTagWeights_get (Math_log : Q -> Q) (items : list AnecdoteMeta) (k : string) :
  JsMap.get (computeTagWeights Math_log items) k
  = match docFrequency items k with
    | 0 => None
    | S _ => Some (idfWeight Math_log (Nat.max 1 (List.length items)) (docFrequency items k))
    end.
Proof.
  unfold computeTagWeights.
  rewrite (weights_fold_get _ _ _ _ (tagDocsOf_keys items)), tagDocsOf_get.
  now destruct (docFrequency items k).
Qed.

Lemma docFrequency_pos (items : list AnecdoteMeta) (tag : string) :
  0 < docFrequency items tag <-> exists item, In item items /\ In tag (_tags item).
Proof.
  unfold docFrequency. split.
  - intros H. destruct (filter _ items) as [|item r] eqn:Hf; [simpl in H; lia|].
    assert (Hin : In item (filter (fun item => JsString.mem tag (_tags item)) items))
      by (rewrite Hf; now left).
    apply filter_In in Hin. exists item. now rewrite <- mem_In.
  - intros [item [Hin Ht]]. apply mem_In in Ht.
    assert (Hf : In item (filter (fun item => JsString.mem tag (_tags item)) items))
      by (apply filter_In; now split).
    destruct (filter _ items); [contradiction | simpl; lia].
Qed.

Lemma weightOr1_absent (tagWeights : TagWeights) (tag : string) :
  JsMap.get tagWeights tag = None -> weightOr1 tagWeights tag = 1%Q.
Proof. unfold weightOr1. now intros ->. Qed.

Lemma themeScore_absent_tag (a : AnecdoteMeta) (recipe : StorylineRecipe.t)
    (tagWeights : TagWeights) (tag : string) :
  StorylineRecipe.focusTags recipe = [tag] -> In tag (_tags a) ->
  JsMap.get tagWeights tag = None ->
  (ThemeScore.tagScore (computeThemeScore a recipe tagWeights) == 1 * SCORE_WEIGHTS.themeTagWeight)%Q.
Proof.
  intros Hf Hin Hget. unfold computeThemeScore. rewrite Hf. simpl.
  unfold countTagMatches, JsSet.has. rewrite mem_dedupe.
  apply mem_In in Hin. rewrite Hin. simpl.
  rewrite (weightOr1_absent _ _ Hget). reflexivity.
Qed.

Lemma ExampleHost_log_1 : (ExampleHost.Math_log 1 == 0)%Q.
Proof. reflexivity. Qed.

Lemma ExampleHost_log_mono (x y : Q) :
  (0 < x)%Q -> (x <= y)%Q -> (ExampleHost.Math_log x <= ExampleHost.Math_log y)%Q.
Proof.
  intros Hx Hxy. unfold ExampleHost.Math_log.
  assert (Hx1 : (0 < x + 1)%Q) by lra.
  assert (Hy1 : (0 < y + 1)%Q) by lra.
  apply Qle_shift_div_r; [assumption|].
  setoid_replace (2 * (y - 1) / (y + 1) * (x + 1))%Q
    with (2 * (y - 1) * (x + 1) / (y + 1))%Q by (field; lra).
  apply Qle_shift_div_l; [assumption|]. nra.
Qed.

Section TagWeightFacts.
Variable Math_log : Q -> Q.
Hypothesis Math_log_1 : (Math_log 1 == 0)%Q.
Hypothesis Math_log_mono :
  forall x y : Q, (0 < x)%Q -> (x <= y)%Q -> (Math_log x <= Math_log y)%Q.

Lemma idfWeight_ge_1 (totalDocs docCount : nat) :
  docCount <= totalDocs -> (1 <= idfWeight Math_log totalDocs docCount)%Q.
Proof.
  intros H. unfold idfWeight. apply toFixed3_ge_1.
  assert (L : (Math_log 1 <= Math_log (ofNat (totalDocs + 1) / ofNat (docCount + 1)))%Q)
    by (apply Math_log_mono; [reflexivity | now apply ratio_ge_1]).
  rewrite Math_log_1 in L. lra.
Qed.

Lemma idfWeight_antitone (totalDocs d1 d2 : nat) :
  d1 <= d2 -> (idfWeight Math_log totalDocs d2 <= idfWeight Math_log totalDocs d1)%Q.
Proof.
  intros H. unfold idfWeight. apply toFixed3_mono.
  assert (L : (Math_log (ofNat (totalDocs + 1) / ofNat (d2 + 1))
               <= Math_log (ofNat (totalDocs + 1) / ofNat (d1 + 1)))%Q)
    by (apply Math_log_mono; [apply ratio_pos | now apply ratio_antitone]).
  lra.
Qed.

(** C6. Let [N] be the number of items and [df] the number of items that
    carry [tag].  When [df] is positive, [computeTagWeights] gives the tag
    the weight [ln((N+1)/(df+1)) + 1] rounded to three decimals ([toFixed3], a
    whole number of thousandths at most half a thousandth away); when it is
    zero the table has no entry for the tag.  Every weight in the table is
    at least 1.  The weight does not grow when [df] grows.  A tag that the
    table lacks counts with weight 1 in the theme score. *)
Theorem tag_weights_idf (items : list AnecdoteMeta) (tag : string) :
  let N := List.length items in
  let df := docFrequency items tag in
  (0 < df <-> exists item, In item items /\ In tag (_tags item))
  /\ (0 < df ->
      JsMap.get (computeTagWeights Math_log items) tag
      = Some (toFixed3 (Math_log (ofNat (N + 1) / ofNat (df + 1)) + 1)%Q))
  /\ (forall x : Q,
        (exists n : Z, toFixed3 x == n # 1000)%Q
        /\ (Qabs (toFixed3 x - x) <= 1 # 2000)%Q)
  /\ (df = 0 -> JsMap.get (computeTagWeights Math_log items) tag = None)
  /\ (forall w, JsMap.get (computeTagWeights Math_log items) tag = Some w -> (1 <= w)%Q)
  /\ (forall total d1 d2 : nat,
        d1 <= d2 -> (idfWeight Math_log total d2 <= idfWeight Math_log total d1)%Q)
  /\ (forall tagWeights : TagWeights,
        JsMap.get tagWeights tag = None ->
        weightOr1 tagWeights tag = 1%Q
        /\ forall (a : AnecdoteMeta) (recipe : StorylineRecipe.t),
             StorylineRecipe.focusTags recipe = [tag] -> In tag (_tags a) ->
             (ThemeScore.tagScore (computeThemeScore a recipe tagWeights)
              == 1 * SCORE_WEIGHTS.themeTagWeight)%Q).
Proof.
  intros N df. subst N df.
  pose proof (computeTagWeights_get Math_log items tag) as G.
  pose proof (docFrequency_le items tag) as Hle.
  split; [apply docFrequency_pos|].
  split; [|split; [exact toFixed3_rounds|split; [|split; [|split]]]].
  - intros Hpos. rewrite G. destruct (docFrequency items tag) eqn:Hd; [lia|].
    unfold idfWeight. replace (Nat.max 1 (List.length items)) with (List.length items) by lia.
    reflexivity.
  - intros Hz. rewrite G, Hz. reflexivity.
  - intros w Hw. rewrite G in Hw. destruct (docFrequency items tag) eqn:Hd; [discriminate|].
    injection Hw as <-. apply idfWeight_ge_1.
    change (S n <= Nat.max 1 (List.length items)). lia.
  - intros total d1 d2. apply idfWeight_antitone.
  - intros tagWeights Hget. split; [now apply weightOr1_absent|].
    intros a recipe Hf Hin. now apply (themeScore_absent_tag a recipe tagWeights tag).
Qed.

End TagWeightFacts.

(** ** The pairwise scorer on neighbouring days *)





(** ** Signatures *)

Lemma join_dash_char (c : ascii) (a : string) (l : list string) :
  JsString.join "-" (String c a :: l) = String c (JsString.join "-" (a :: l)).
Proof. destruct l; reflexivity. Qed.

Lemma join_dash_empty (l : list string) :
  JsString.join "-" (EmptyString :: l)
  = match l with [] => EmptyString | _ :: _ => String "-" (JsString.join "-" l) end.
Proof. destruct l; reflexivity. Qed.

Lemma join_dash_injective (l1 : list string) :
  forall (l2 : list string) (a b : string),
    noDash a = true -> noDash b = true ->
    Forall (fun x => noDash x = true) l1 -> Forall (fun x => noDash x = true) l2 ->
    JsString.join "-" (a :: l1) = JsString.join "-" (b :: l2) ->
    a :: l1 = b :: l2.
Proof.
  induction l1 as [|x1 r1 IHl]; intros l2 a; induction a as [|c a' IHa];
    intros b Ha Hb H1 H2 E.
  - rewrite join_dash_empty in E. destruct b as [|d b'].
    + rewrite join_dash_empty in E. destruct l2; [reflexivity | discriminate].
    + rewrite join_dash_char in E. discriminate.
  - rewrite join_dash_char in E. destruct b as [|d b'].
    + rewrite join_dash_empty in E. destruct l2; [discriminate|].
      injection E as Ec _. subst c. simpl in Ha. discriminate.
    + rewrite join_dash_char in E. injection E as -> E.
      simpl in Ha, Hb. apply andb_prop in Ha, Hb.
      pose proof (IHa b' (proj2 Ha) (proj2 Hb) H1 H2 E) as G.
      injection G as -> ->. reflexivity.
  - rewrite join_dash_empty in E. destruct b as [|d b'].
    + rewrite join_dash_empty in E. destruct l2 as [|x2 r2]; [discriminate|].
      injection E as E. inversion H1; subst. inversion H2; subst.
      f_equal. now apply IHl.
    + rewrite join_dash_char in E. injection E as <- _. simpl in Hb. discriminate.
  - rewrite join_dash_char in E. destruct b as [|d b'].
    + rewrite join_dash_empty in E. destruct l2; [discriminate|].
      injection E as Ec _. subst c. simpl in Ha. discriminate.
    + rewrite join_dash_char in E. injection E as -> E.
      simpl in Ha, Hb. apply andb_prop in Ha, Hb.
      pose proof (IHa b' (proj2 Ha) (proj2 Hb) H1 H2 E) as G.
      injection G as -> ->. reflexivity.
Qed.

(** Where no id contains a hyphen, two non-empty chains with the same
    signature have the same ids in the same order: the deduplication of the
    assembler can then only drop a chain that repeats an emitted one. *)
Theorem signature_injective_without_dash (c1 c2 : list AnecdoteMeta) :
  c1 <> [] -> c2 <> [] ->
  Forall (fun x => noDash (idOf x) = true) (c1 ++ c2) ->
  signatureOf c1 = signatureOf c2 -> map idOf c1 = map idOf c2.
Proof.
  intros H1 H2 Hall E. apply Forall_app in Hall. destruct Hall as [A1 A2].
  destruct c1 as [|x1 r1]; [contradiction|]. destruct c2 as [|x2 r2]; [contradiction|].
  inversion A1; subst. inversion A2; subst. unfold signatureOf in E. simpl in *.
  apply join_dash_injective; try assumption; apply Forall_map; assumption.
Qed.

(** ** Worked runs *)


(** C2 on [backtrackInput]: the third beat of the storyline [chronicle] is
    the anecdote [b], taken by the nearest-chronological fallback, and the
    breakdown attached to it is the one computed for the candidate [c]. *)
Theorem stale_breakdown_after_fallback :
  exists beat breakdown,
    beatAt (exampleRun backtrackInput) 0 2 = Some beat
    /\ StorylineBeat.id beat = "chronicle-3"
    /\ Anecdote.id (StorylineBeat.anecdote beat) = "b"
    /\ StorylineBeat.debug beat = Some breakdown
    /\ StorylineScoreBreakdown.previousAnecdoteId breakdown = "d"
    /\ StorylineScoreBreakdown.candidateAnecdoteId breakdown = "c"
    /\ StorylineScoreBreakdown.candidateAnecdoteId breakdown
       <> Anecdote.id (StorylineBeat.anecdote beat).
Proof.
  eexists. eexists. split; [vm_compute; reflexivity|].
  repeat split. discriminate.
Qed.

(** C10 on [dashedIds]: the storyline [chronicle] is emitted with the chain
    [x], [x-x], [y]; the chain built next for [nightlife] is [x-x], [x], [y],
    a different sequence of ids with the same signature, and it is dropped:
    the result has no storyline [nightlife]. *)
Theorem signature_collision_drops_chain :
  let items := toMeta IsoDate.isoDateGetTime dashedIds in
  let topTags := getTopTags items 6 in
  let tagWeights := computeTagWeights ExampleHost.Math_log items in
  let target := targetLengthFor (List.length items) in
  exists st1 first,
    processRecipe items target tagWeights initialState (chronicleRecipe topTags)
    = Normal st1
    /\ storylines st1 = [first]
    /\ map (fun beat => Anecdote.id (StorylineBeat.anecdote beat)) (Storyline.beats first)
       = ["x"; "x-x"; "y"]
    /\ signatures st1 = ["x-x-x-y"]
    /\ (let built := buildChain items (nightlifeRecipe topTags) target (usage st1)
                       tagWeights in
        map idOf (chain built) = ["x-x"; "x"; "y"]
        /\ signatureOf (chain built) = "x-x-x-y"
        /\ processRecipe items target tagWeights st1 (nightlifeRecipe topTags)
           = Normal st1)
    /\ exists l, exampleRun dashedIds = Normal l
                 /\ ~ In "nightlife" (map Storyline.id l).
Proof.
  cbv zeta. eexists. eexists. split; [vm_compute; reflexivity|].
  split; [reflexivity|]. split; [reflexivity|]. split; [reflexivity|].
  split; [split; [|split]; vm_compute; reflexivity|].
  eexists. split; [vm_compute; reflexivity|].
  vm_compute. intuition discriminate.
Qed.

Lemma two_anecdotes_give_core_witness :
  exists s,
    exampleRun nextDayPair = Normal [s]
    /\ Storyline.id s = "core"
    /\ Permutation
         (map (fun beat => anecdote (StorylineBeat.anecdote beat)) (Storyline.beats s))
         nextDayPair.
Proof.
  apply (two_anecdotes_give_core ExampleHost.Math_log IsoDate.isoDateGetTime).
  discriminate.
Defined.

Lemma tag_weights_idf_witness :
  let items := toMeta IsoDate.isoDateGetTime nextDayPair in
  JsMap.get (computeTagWeights ExampleHost.Math_log items) "dj"
  = Some (toFixed3 (ExampleHost.Math_log (ofNat (2 + 1) / ofNat (2 + 1)) + 1)%Q)
  /\ (forall w, JsMap.get (computeTagWeights ExampleHost.Math_log items) "dj" = Some w ->
        (1 <= w)%Q)
  /\ JsMap.get (computeTagWeights ExampleHost.Math_log items) "jazz" = None.
Proof.
  intros items.
  destruct (tag_weights_idf ExampleHost.Math_log ExampleHost_log_1
              ExampleHost_log_mono items "dj") as [_ [Hdj [_ [_ [Hge _]]]]].
  destruct (tag_weights_idf ExampleHost.Math_log ExampleHost_log_1
              ExampleHost_log_mono items "jazz") as [_ [_ [_ [Hjazz _]]]].
  split; [apply Hdj; vm_compute; lia|]. split; [exact Hge|].
  apply Hjazz. reflexivity.
Defined.

(** * Further properties *)

(** ** Sorting by a key *)

Section SortByKey.
Context {A : Type} (key : A -> Z) (cmp : A -> A -> Z).
Hypothesis cmp_key : forall a b, cmp a b = (key a - key b)%Z.

Lemma Array_insert_sorted (x : A) (l : list A) :
  StronglySorted (keyLe key) l -> StronglySorted (keyLe key) (Array_insert cmp x l).
Proof.
  induction l as [|y r IH]; intros Hs; simpl.
  - repeat constructor.
  - inversion Hs as [|? ? Hr Hy]; subst.
    destruct (cmp y x <? 0)%Z eqn:Hc.
    + apply Z.ltb_lt in Hc. rewrite cmp_key in Hc.
      constructor; [now apply IH|].
      apply Forall_forall. intros z Hz.
      apply (Permutation_in _ (Array_insert_perm cmp x r)) in Hz.
      destruct Hz as [<-|Hz]; [unfold keyLe; lia|].
      rewrite Forall_forall in Hy. now apply Hy.
    + apply Z.ltb_ge in Hc. rewrite cmp_key in Hc.
      constructor; [assumption|].
      constructor; [unfold keyLe; lia|].
      rewrite Forall_forall in Hy |- *. intros z Hz.
      specialize (Hy z Hz). unfold keyLe in *. lia.
Qed.

Lemma Array_sort_sorted (l : list A) : StronglySorted (keyLe key) (Array_sort cmp l).
Proof.
  induction l as [|x r IH]; simpl; [constructor|].
  now apply Array_insert_sorted.
Qed.

Lemma Array_sort_head_least (l : list A) (c : A) :
  hd_error (Array_sort cmp l) = Some c -> forall x, In x l -> (key c <= key x)%Z.
Proof.
  intros Hh x Hx. pose proof (Array_sort_sorted l) as Hs.
  apply (Array_sort_In cmp) in Hx.
  destruct (Array_sort cmp l) as [|c' r]; [discriminate|].
  simpl in Hh. injection Hh as ->.
  inversion Hs as [|? ? _ Hall]; subst.
  destruct Hx as [<-|Hx]; [lia|].
  rewrite Forall_forall in Hall. now apply Hall.
Qed.

End SortByKey.

(** ** The run of the assembler, recipe by recipe *)

Lemma RenderedFrom_beats (items : list AnecdoteMeta) (tagWeights : TagWeights)
    (targetLength : Z) (recipe : StorylineRecipe.t) (usage : JsMap.t nat)
    (s : Storyline.t) :
  RenderedFrom items tagWeights targetLength recipe usage s ->
  Storyline.id s = StorylineRecipe.id recipe
  /\ beatAnecdotes s = chain (buildChain items recipe targetLength usage tagWeights)
  /\ Storyline.beats s
     = renderBeats recipe (debugByBeat (buildChain items recipe targetLength usage tagWeights))
         (List.length (chain (buildChain items recipe targetLength usage tagWeights))) 0
         None (chain (buildChain items recipe targetLength usage tagWeights)).
Proof.
  unfold RenderedFrom, beatAnecdotes. intros H.
  set (built := buildChain items recipe targetLength usage tagWeights) in *.
  assert (Hlen : 1 <= List.length (chain built)).
  { destruct (chain built); [discriminate | simpl; lia]. }
  destruct (buildStoryline_normal recipe (chain built) (debugByBeat built) Hlen)
    as [s' [Hs [Hid Hbeats]]].
  rewrite Hs in H. injection H as <-.
  split; [exact Hid|]. split; [|exact Hbeats].
  rewrite Hbeats. apply renderBeats_anecdotes.
Qed.

Section RunFacts.
Variable items : list AnecdoteMeta.
Variable targetLength : Z.
Variable tagWeights : TagWeights.

Lemma processRecipe_outcome (st : AssemblerState) (recipe : StorylineRecipe.t) :
  exists st' o,
    processRecipe items targetLength tagWeights st recipe = Normal st'
    /\ storylines st' = (storylines st ++ optionList o)%list
    /\ Outcome items tagWeights targetLength recipe o
    /\ (List.length items < 3 -> o = None).
Proof.
  unfold processRecipe.
  set (built := buildChain items recipe targetLength (usage st) tagWeights).
  destruct (List.length (chain built) <? 3)%nat eqn:Hlen.
  - exists st, None. simpl. rewrite app_nil_r.
    repeat split; intros; discriminate.
  - apply Nat.ltb_ge in Hlen.
    assert (Hitems : ~ List.length items < 3).
    { intros Hfew. destruct items as [|i0 r] eqn:E.
      - subst built. rewrite buildChain_empty in Hlen. simpl in Hlen. lia.
      - destruct (buildChain_ok (i0 :: r) recipe targetLength (usage st) tagWeights)
          as [_ _ _ _ Hi]; [discriminate|]. fold built in Hi. lia. }
    destruct (JsSet.has (signatures st) (signatureOf (chain built))).
    + exists st, None. simpl. rewrite app_nil_r.
      repeat split; intros; discriminate.
    + destruct (buildStoryline_normal recipe (chain built) (debugByBeat built))
        as [s [Hs _]]; [lia|].
      rewrite Hs. simpl. eexists. exists (Some s).
      split; [reflexivity|]. split; [reflexivity|]. split; [|intros; contradiction].
      intros s' [= <-]. exists (usage st). split; [exact Hs | exact Hlen].
Qed.

Lemma forEachRecipe_outcomes (recipes : list StorylineRecipe.t) :
  forall st,
  exists st' outcomes,
    forEachRecipe items targetLength tagWeights recipes st = Normal st'
    /\ storylines st' = (storylines st ++ flat_map optionList outcomes)%list
    /\ Forall2 (Outcome items tagWeights targetLength) recipes outcomes.
Proof.
  induction recipes as [|recipe rest IH]; intros st; simpl.
  - exists st, []. simpl. rewrite app_nil_r. repeat split. constructor.
  - destruct (processRecipe_outcome st recipe) as [st1 [o [-> [Hst [Ho _]]]]]. simpl.
    destruct (IH st1) as [st' [outcomes [-> [Hst' Hall]]]].
    exists st', (o :: outcomes). split; [reflexivity|].
    split; [simpl; now rewrite Hst', Hst, <- app_assoc|].
    now constructor.
Qed.

End RunFacts.

(** The result of [assemble], recipe by recipe: either the storylines of
    the normal recipes that emitted one, in the order of the recipes and at
    least one of them, or, when none emitted, the fallback storyline alone. *)
Lemma assemble_outcomes (items : list AnecdoteMeta) (topTags : list string)
    (tagWeights : TagWeights) :
  items <> [] ->
  let target := targetLengthFor (List.length items) in
  exists l outcomes,
    assemble items topTags tagWeights = Normal l
    /\ Forall2 (Outcome items tagWeights target) (recipesFor topTags) outcomes
    /\ ((l = flat_map optionList outcomes /\ l <> [])
        \/ (flat_map optionList outcomes = []
            /\ exists s usage,
                 l = [s]
                 /\ RenderedFrom items tagWeights (Z.min 6 (Z.of_nat (List.length items)))
                      (fallbackRecipe topTags) usage s)).
Proof.
  intros Hne target. unfold assemble. fold target.
  destruct (forEachRecipe_outcomes items target tagWeights (recipesFor topTags)
              initialState) as [st [outcomes [-> [Hst Hall]]]].
  simpl bind. simpl in Hst. rewrite Hst.
  destruct (flat_map optionList outcomes) as [|s0 rest] eqn:Hflat.
  - destruct items as [|i0 r] eqn:Hitems; [contradiction|]. rewrite <- Hitems in *.
    set (built := buildChain items (fallbackRecipe topTags) _ (usage st) tagWeights).
    assert (Hok : ChainOk items (Z.min 6 (Z.of_nat (List.length items))) (chain built))
      by (apply buildChain_ok; assumption).
    destruct (buildStoryline_normal (fallbackRecipe topTags) (chain built)
                (debugByBeat built)) as [s [Hs _]]; [apply Hok|].
    rewrite Hs. destruct (chain built) as [|c0 cr] eqn:Hc.
    { destruct Hok as [_ _ Hn _ _]. simpl in Hn. lia. }
    simpl. exists [s], outcomes. split; [reflexivity|]. split; [exact Hall|].
    right. split; [exact Hflat|]. exists s, (usage st). split; [reflexivity|].
    unfold RenderedFrom. fold built. now rewrite Hc.
  - exists (s0 :: rest), outcomes. split; [destruct items; reflexivity|].
    split; [exact Hall|]. left. split; [now rewrite Hflat | discriminate].
Qed.

Lemma Forall2_In_r {A B : Type} (R : A -> B -> Prop) (l1 : list A) (l2 : list B) (y : B) :
  Forall2 R l1 l2 -> In y l2 -> exists x, In x l1 /\ R x y.
Proof.
  induction 1 as [|x y' l1 l2 Hxy _ IH]; intros Hin; [contradiction|].
  destruct Hin as [<-|Hin].
  - exists x. split; [now left | assumption].
  - destruct (IH Hin) as [x' [Hx' Hr]]. exists x'. split; [now right | assumption].
Qed.

Lemma assemble_provenance (items : list AnecdoteMeta) (topTags : list string)
    (tagWeights : TagWeights) :
  items <> [] ->
  exists l,
    assemble items topTags tagWeights = Normal l
    /\ forall s, In s l -> Provenance items topTags tagWeights l s.
Proof.
  intros Hne.
  destruct (assemble_outcomes items topTags tagWeights Hne)
    as [l [outcomes [Hl [Hall [[-> _]|[_ [s [u [-> Hr]]]]]]]]].
  - eexists. split; [exact Hl|]. intros s Hs.
    apply in_flat_map in Hs. destruct Hs as [o [Ho Hs]].
    destruct o as [s'|]; [|contradiction]. destruct Hs as [<-|[]].
    destruct (Forall2_In_r _ _ _ _ Hall Ho) as [recipe [Hin Hout]].
    destruct (Hout s' eq_refl) as [usage [Hr H3]].
    exists recipe, (targetLengthFor (List.length items)), usage.
    split; [exact Hr|]. left. now repeat split.
  - exists [s]. split; [exact Hl|]. intros s' [<-|[]].
    exists (fallbackRecipe topTags), (Z.min 6 (Z.of_nat (List.length items))), u.
    split; [exact Hr|]. right. now repeat split.
Qed.

Lemma toMeta_In (Date_getTime : string -> Z) (anecdotes : list Anecdote.t)
    (x : AnecdoteMeta) :
  In x (toMeta Date_getTime anecdotes) -> In (anecdote x) anecdotes.
Proof.
  intros H. rewrite <- (toMeta_anecdotes Date_getTime anecdotes). now apply in_map.
Qed.

Lemma toMeta_length (Date_getTime : string -> Z) (anecdotes : list Anecdote.t) :
  List.length (toMeta Date_getTime anecdotes) = List.length anecdotes.
Proof. unfold toMeta. apply length_map. Qed.

(** X1. The beats of a storyline.  In every storyline that
    [generateStorylines] returns, the beats carry anecdotes of the input, no
    anecdote id occurs in two beats, and there are at most as many beats as
    anecdotes: at most 8 beats in a storyline of a normal recipe, at most 6
    in the fallback storyline [core]. *)
Theorem beats_are_distinct_inputs (Math_log : Q -> Q) (Date_getTime : string -> Z)
    (anecdotes : list Anecdote.t) :
  exists l,
    generateStorylines Math_log Date_getTime anecdotes = Normal l
    /\ forall s, In s l ->
         NoDup (beatIds s)
         /\ (forall beat, In beat (Storyline.beats s) ->
               In (anecdote (StorylineBeat.anecdote beat)) anecdotes)
         /\ List.length (Storyline.beats s) <= List.length anecdotes
         /\ List.length (Storyline.beats s) <= 8
         /\ (Storyline.id s = "core" -> List.length (Storyline.beats s) <= 6).
Proof.
  unfold generateStorylines.
  destruct anecdotes as [|a0 rest]; [exists []; split; [reflexivity | intros s []]|].
  set (anecdotes := a0 :: rest).
  set (items := toMeta Date_getTime anecdotes).
  assert (Hne : items <> []) by discriminate.
  destruct (assemble_provenance items (getTopTags items 6)
              (computeTagWeights Math_log items) Hne) as [l [Hl Hall]].
  exists l. split; [exact Hl|]. intros s Hs.
  destruct (Hall s Hs) as [recipe [target [usage [Hr Hwhich]]]].
  destruct (RenderedFrom_beats _ _ _ _ _ _ Hr) as [Hid [Han _]].
  set (built := buildChain items recipe target usage (computeTagWeights Math_log items)) in *.
  destruct (buildChain_ok items recipe target usage (computeTagWeights Math_log items) Hne)
    as [Hnd Hincl _ Ht Hi]. fold built in Hnd, Hincl, Ht, Hi.
  assert (Hlen : List.length (Storyline.beats s) = List.length (chain built)).
  { rewrite <- Han. unfold beatAnecdotes. now rewrite length_map. }
  assert (Hn : List.length items = List.length anecdotes) by apply toMeta_length.
  split; [|split; [|split; [|split]]].
  - unfold beatIds. rewrite <- (map_map StorylineBeat.anecdote idOf).
    fold (beatAnecdotes s). now rewrite Han.
  - intros beat Hb. apply (toMeta_In Date_getTime). fold items. apply Hincl.
    rewrite <- Han. unfold beatAnecdotes. now apply in_map.
  - lia.
  - rewrite Hlen. destruct Hwhich as [[_ [-> _]]|[_ [-> _]]].
    + pose proof (targetLengthFor_bounds (List.length items)). lia.
    + lia.
  - intros Hcore. rewrite Hlen. destruct Hwhich as [[Hin _]|[_ [-> _]]]; [|lia].
    apply recipesFor_ids in Hin. rewrite <- Hid, Hcore in Hin. simpl in Hin.
    intuition discriminate.
Qed.

Lemma Outcome_id (items : list AnecdoteMeta) (tagWeights : TagWeights) (target : Z)
    (recipe : StorylineRecipe.t) (o : option Storyline.t) :
  Outcome items tagWeights target recipe o ->
  map Storyline.id (optionList o)
  = if isSome o then [StorylineRecipe.id recipe] else [].
Proof.
  intros H. destruct o as [s|]; [|reflexivity]. simpl.
  destruct (H s eq_refl) as [u [Hr _]].
  now destruct (RenderedFrom_beats _ _ _ _ _ _ Hr) as [-> _].
Qed.

Lemma idsPicked_NoDup (b1 b2 b3 b4 : bool) : NoDup (idsPicked b1 b2 b3 b4).
Proof.
  destruct b1, b2, b3, b4; unfold idsPicked; simpl;
    repeat (constructor; [simpl; intuition discriminate|]); constructor.
Qed.

Lemma idsPicked_length (b1 b2 b3 b4 : bool) : List.length (idsPicked b1 b2 b3 b4) <= 4.
Proof. destruct b1, b2, b3, b4; unfold idsPicked; simpl; lia. Qed.

(** X2. The storylines of a result.  [generateStorylines] returns at most
    four storylines, no two with the same id.  Their ids are those of the
    normal recipes that emitted a storyline, in the order chronicle,
    nightlife, breakthrough, cinematic; or the result is the single
    storyline [core]. *)
Theorem storylines_follow_recipe_order (Math_log : Q -> Q) (Date_getTime : string -> Z)
    (anecdotes : list Anecdote.t) :
  exists l,
    generateStorylines Math_log Date_getTime anecdotes = Normal l
    /\ ((exists b1 b2 b3 b4, map Storyline.id l = idsPicked b1 b2 b3 b4)
        \/ map Storyline.id l = ["core"])
    /\ List.length l <= 4
    /\ NoDup (map Storyline.id l).
Proof.
  assert (Fin : forall l : list Storyline.t,
             (exists b1 b2 b3 b4, map Storyline.id l = idsPicked b1 b2 b3 b4)
             \/ map Storyline.id l = ["core"] ->
             List.length l <= 4 /\ NoDup (map Storyline.id l)).
  { intros l [[b1 [b2 [b3 [b4 H]]]]|H]; rewrite <- (length_map Storyline.id), H.
    - split; [apply idsPicked_length | apply idsPicked_NoDup].
    - split; [simpl; lia | repeat constructor; simpl; tauto]. }
  unfold generateStorylines.
  destruct anecdotes as [|a0 rest].
  { exists []. split; [reflexivity|].
    assert (H : (exists b1 b2 b3 b4, map Storyline.id [] = idsPicked b1 b2 b3 b4)
                \/ map Storyline.id [] = ["core"])
      by (left; exists false, false, false, false; reflexivity).
    split; [exact H | exact (Fin _ H)]. }
  set (items := toMeta Date_getTime (a0 :: rest)).
  assert (Hne : items <> []) by discriminate.
  destruct (assemble_outcomes items (getTopTags items 6)
              (computeTagWeights Math_log items) Hne)
    as [l [outcomes [Hl [Hall Hcases]]]].
  exists l. split; [exact Hl|].
  assert (H : (exists b1 b2 b3 b4, map Storyline.id l = idsPicked b1 b2 b3 b4)
              \/ map Storyline.id l = ["core"]).
  { destruct Hcases as [[-> _]|[_ [s [u [-> Hr]]]]].
    - left. unfold recipesFor in Hall.
      inversion Hall as [|r1 o1 ? ? H1 Hall1]; subst.
      inversion Hall1 as [|r2 o2 ? ? H2 Hall2]; subst.
      inversion Hall2 as [|r3 o3 ? ? H3 Hall3]; subst.
      inversion Hall3 as [|r4 o4 ? ? H4 Hall4]; subst.
      inversion Hall4; subst.
      exists (isSome o1), (isSome o2), (isSome o3), (isSome o4).
      simpl flat_map. rewrite app_nil_r, !map_app.
      rewrite (Outcome_id _ _ _ _ _ H1), (Outcome_id _ _ _ _ _ H2),
        (Outcome_id _ _ _ _ _ H3), (Outcome_id _ _ _ _ _ H4).
      reflexivity.
    - right. simpl. now destruct (RenderedFrom_beats _ _ _ _ _ _ Hr) as [-> _]. }
  split; [exact H | exact (Fin _ H)].
Qed.

(** ** How long a chain gets *)

(** When the ids of the items are pairwise distinct, the chain stops only at
    the target length or when every item is taken. *)
Lemma buildChain_length_exact (items : list AnecdoteMeta) (recipe : StorylineRecipe.t)
    (targetLength : Z) (usage : JsMap.t nat) (tagWeights : TagWeights) :
  items <> [] -> NoDup (map idOf items) ->
  Z.of_nat (List.length (chain (buildChain items recipe targetLength usage tagWeights)))
  = Z.min (Z.max 1 targetLength) (Z.of_nat (List.length items)).
Proof.
  intros Hne Hnd.
  destruct (buildChain_final items recipe targetLength usage tagWeights Hne)
    as [st [Hinv [_ [-> [current [fuel Hloop]]]]]].
  simpl. set (sorted := Array_sort byTimestamp items) in *.
  destruct Hinv as [Hused Hndu Hincl Hn Ht Hi Hcur].
  assert (Hlen : List.length sorted = List.length items) by apply Array_sort_length.
  assert (Hul : List.length (ls_used st) = List.length (ls_chain st))
    by (rewrite Hused; apply length_map).
  destruct (extendLoop_exit _ _ _ _ _ _ _ _ Hloop) as [Hc|Hb].
  - unfold loopContinues, JsSet.size in Hc. apply andb_false_iff in Hc.
    destruct Hc as [Hc|Hc]; [apply Z.ltb_ge in Hc | apply Nat.ltb_ge in Hc]; lia.
  - pose proof (extendChain_break _ _ _ _ _ Hb) as Hall.
    assert (Hfull : List.length sorted <= List.length (ls_used st)).
    { rewrite <- (length_map idOf sorted). apply NoDup_incl_length.
      - apply (Permutation_NoDup (l := map idOf items)); [|assumption].
        apply Permutation_map. symmetry. apply Array_sort_perm.
      - intros k Hk. apply in_map_iff in Hk. destruct Hk as [x [<- Hx]].
        apply mem_In. exact (Hall x Hx). }
    lia.
Qed.

Lemma initial_processRecipe_emits (items : list AnecdoteMeta) (targetLength : Z)
    (tagWeights : TagWeights) (recipe : StorylineRecipe.t) :
  3 <= List.length (chain (buildChain items recipe targetLength JsMap.empty tagWeights)) ->
  exists s st',
    processRecipe items targetLength tagWeights initialState recipe = Normal st'
    /\ storylines st' = [s]
    /\ RenderedFrom items tagWeights targetLength recipe JsMap.empty s.
Proof.
  intros Hlen. unfold processRecipe. simpl usage. simpl signatures.
  set (built := buildChain items recipe targetLength JsMap.empty tagWeights) in *.
  apply Nat.ltb_ge in Hlen. rewrite Hlen. apply Nat.ltb_ge in Hlen.
  change (JsSet.has [] (signatureOf (chain built))) with false. cbv iota.
  destruct (buildStoryline_normal recipe (chain built) (debugByBeat built))
    as [s [Hs _]]; [lia|].
  rewrite Hs. simpl. exists s. eexists. split; [reflexivity|]. split; [reflexivity|].
  exact Hs.
Qed.

Lemma fallback_cases (Math_log : Q -> Q) (Date_getTime : string -> Z)
    (anecdotes : list Anecdote.t) :
  (1 <= List.length anecdotes < 3 ->
   exists s,
     generateStorylines Math_log Date_getTime anecdotes = Normal [s]
     /\ Storyline.id s = "core")
  /\ (3 <= List.length anecdotes -> NoDup (map Anecdote.id anecdotes) ->
      exists s rest,
        generateStorylines Math_log Date_getTime anecdotes = Normal (s :: rest)
        /\ Storyline.id s = "chronicle"
        /\ Z.of_nat (List.length (Storyline.beats s))
           = Z.min (targetLengthFor (List.length anecdotes))
                   (Z.of_nat (List.length anecdotes))
        /\ ~ In "core" (map Storyline.id (s :: rest))).
Proof.
  split.
  - intros Hn. unfold generateStorylines.
    destruct anecdotes as [|a0 rest]; [simpl in Hn; lia|].
    set (items := toMeta Date_getTime (a0 :: rest)).
    assert (Hne : items <> []) by discriminate.
    assert (Hfew : List.length items < 3)
      by (unfold items; rewrite toMeta_length; lia).
    destruct (assemble_outcomes items (getTopTags items 6)
                (computeTagWeights Math_log items) Hne)
      as [l [outcomes [Hl [Hall Hcases]]]].
    destruct Hcases as [[-> Hnn]|[_ [s [u [-> Hr]]]]].
    + exfalso. apply Hnn. clear Hl Hnn.
      induction Hall as [|recipe o rs os Ho _ IH]; [reflexivity|].
      simpl. rewrite IH. destruct o as [s|]; [|reflexivity].
      destruct (Ho s eq_refl) as [u [_ H3]].
      destruct (buildChain_ok items recipe (targetLengthFor (List.length items)) u
                  (computeTagWeights Math_log items) Hne) as [_ _ _ _ Hi]. lia.
    + exists s. split; [exact Hl|].
      now destruct (RenderedFrom_beats _ _ _ _ _ _ Hr) as [-> _].
  - intros Hn Hnd. unfold generateStorylines.
    destruct anecdotes as [|a0 rest]; [simpl in Hn; lia|].
    set (anecdotes := a0 :: rest) in *.
    set (items := toMeta Date_getTime anecdotes).
    set (topTags := getTopTags items 6).
    set (tw := computeTagWeights Math_log items).
    assert (Hne : items <> []) by discriminate.
    assert (Hlen : List.length items = List.length anecdotes) by apply toMeta_length.
    assert (Hids : NoDup (map idOf items)) by (unfold items; now rewrite toMeta_ids).
    set (target := targetLengthFor (List.length items)).
    pose proof (targetLengthFor_bounds (List.length items)) as Hb. fold target in Hb.
    pose proof (buildChain_length_exact items (chronicleRecipe topTags) target
                  JsMap.empty tw Hne Hids) as Hexact.
    destruct (initial_processRecipe_emits items target tw (chronicleRecipe topTags))
      as [s [st1 [Hp [Hst1 Hr]]]]; [lia|].
    unfold assemble. fold target.
    change (recipesFor topTags)
      with (chronicleRecipe topTags :: tl (recipesFor topTags)).
    cbn [forEachRecipe]. rewrite Hp. cbn [bind].
    destruct (forEachRecipe_outcomes items target tw (tl (recipesFor topTags)) st1)
      as [st' [outcomes [-> [Hst' Hall]]]].
    cbn [bind]. rewrite Hst', Hst1. cbn [app].
    exists s, (flat_map optionList outcomes).
    split; [destruct items; reflexivity|].
    destruct (RenderedFrom_beats _ _ _ _ _ _ Hr) as [Hid [Han _]].
    split; [exact Hid|]. split.
    + rewrite <- Hlen. fold target.
      rewrite <- (length_map StorylineBeat.anecdote). fold (beatAnecdotes s).
      rewrite Han, Hexact. lia.
    + cbn [map]. rewrite Hid. intros [E|Hin]; [discriminate|].
      apply in_map_iff in Hin. destruct Hin as [s' [Hid' Hin]].
      apply in_flat_map in Hin. destruct Hin as [o [Ho Hs']].
      destruct o as [s''|]; [|contradiction]. destruct Hs' as [<-|[]].
      destruct (Forall2_In_r _ _ _ _ Hall Ho) as [recipe [Hrin Hout]].
      destruct (Hout s'' eq_refl) as [u [Hr' _]].
      destruct (RenderedFrom_beats _ _ _ _ _ _ Hr') as [Hrid _].
      assert (Hin4 : In recipe (recipesFor topTags)) by (right; exact Hrin).
      apply recipesFor_ids in Hin4. rewrite <- Hrid, Hid' in Hin4.
      simpl in Hin4. intuition discriminate.
Qed.

(** X3. Few anecdotes.  From one or two anecdotes [generateStorylines]
    returns the fallback storyline [core] and nothing else. *)
Theorem few_anecdotes_give_core_only (Math_log : Q -> Q) (Date_getTime : string -> Z)
    (anecdotes : list Anecdote.t) :
  1 <= List.length anecdotes < 3 ->
  exists s,
    generateStorylines Math_log Date_getTime anecdotes = Normal [s]
    /\ Storyline.id s = "core".
Proof. exact (proj1 (fallback_cases Math_log Date_getTime anecdotes)). Qed.

(** X4. Three or more anecdotes with pairwise distinct ids.  The fallback
    never runs: the first storyline is [chronicle], with exactly
    [min(targetLength, number of anecdotes)] beats, and no storyline is
    [core]. *)
Theorem chronicle_leads_from_three (Math_log : Q -> Q) (Date_getTime : string -> Z)
    (anecdotes : list Anecdote.t) :
  3 <= List.length anecdotes -> NoDup (map Anecdote.id anecdotes) ->
  exists s rest,
    generateStorylines Math_log Date_getTime anecdotes = Normal (s :: rest)
    /\ Storyline.id s = "chronicle"
    /\ Z.of_nat (List.length (Storyline.beats s))
       = Z.min (targetLengthFor (List.length anecdotes))
               (Z.of_nat (List.length anecdotes))
    /\ ~ In "core" (map Storyline.id (s :: rest)).
Proof. exact (proj2 (fallback_cases Math_log Date_getTime anecdotes)). Qed.

(** ** The aggregate fields of a storyline *)

Lemma dedupeZ_In (l : list Z) :
  forall seen x, In x (dedupeZ seen l) <-> In x l /\ ~ In x seen.
Proof.
  induction l as [|y r IH]; intros seen x; simpl; [tauto|].
  destruct (existsb (Z.eqb y) seen) eqn:Hm.
  - apply existsb_exists in Hm. destruct Hm as [z [Hz Hyz]]. apply Z.eqb_eq in Hyz. subst z.
    rewrite IH. split; [tauto|]. intros [[<-|H] Hn]; [contradiction | tauto].
  - assert (Hy : ~ In y seen).
    { intros Hin. assert (existsb (Z.eqb y) seen = true)
        by (apply existsb_exists; exists y; split; [assumption | apply Z.eqb_refl]).
      congruence. }
    simpl. rewrite IH. simpl. split.
    + intros [<-|[H Hn]]; [tauto|]. split; [tauto|]. intros Hs. apply Hn. now right.
    + intros [[<-|H] Hn]; [now left|].
      destruct (Z.eq_dec y x) as [->|Hne]; [now left|]. right. split; [assumption|].
      intros [E|E]; [congruence | contradiction].
Qed.

Lemma dedupeZ_NoDup (l : list Z) : forall seen, NoDup (dedupeZ seen l).
Proof.
  induction l as [|y r IH]; intros seen; simpl; [constructor|].
  destruct (existsb (Z.eqb y) seen); [apply IH|].
  constructor; [|apply IH]. rewrite dedupeZ_In. intros [_ H]. apply H. now left.
Qed.

Lemma sorted_nodup_strict (l : list Z) :
  StronglySorted Z.le l -> NoDup l -> StronglySorted Z.lt l.
Proof.
  induction 1 as [|x r Hs IH Hall]; intros Hnd; [constructor|].
  inversion Hnd as [|? ? Hnot Hnd']; subst.
  constructor; [now apply IH|].
  rewrite Forall_forall in Hall |- *. intros y Hy.
  specialize (Hall y Hy). assert (x <> y) by (intros ->; contradiction). lia.
Qed.

(** the years of a chain, as [buildStoryline] lists them *)
Lemma years_sorted_distinct (l : list Z) :
  let years := Array_sort (fun a b => (a - b)%Z) (dedupeZ [] l) in
  StronglySorted Z.lt years /\ forall y, In y years <-> In y l.
Proof.
  intros years. split.
  - apply sorted_nodup_strict.
    + exact (Array_sort_sorted (fun z => z) (fun a b => (a - b)%Z)
               (fun a b => eq_refl) (dedupeZ [] l)).
    + apply (Permutation_NoDup (l := dedupeZ [] l));
        [symmetry; apply Array_sort_perm | apply dedupeZ_NoDup].
  - intros y. unfold years. rewrite Array_sort_In, dedupeZ_In. simpl. tauto.
Qed.

Lemma RenderedFrom_aggregates (items : list AnecdoteMeta) (tagWeights : TagWeights)
    (targetLength : Z) (recipe : StorylineRecipe.t) (usage : JsMap.t nat)
    (s : Storyline.t) :
  RenderedFrom items tagWeights targetLength recipe usage s ->
  exists first,
    hd_error (beatAnecdotes s) = Some first
    /\ Timeframe.start (Storyline.timeframe s) = Anecdote.date first
    /\ Timeframe.end_ (Storyline.timeframe s)
       = Anecdote.date (List.last (beatAnecdotes s) first)
    /\ Timeframe.years (Storyline.timeframe s)
       = Array_sort (fun a b => (a - b)%Z)
           (dedupeZ [] (map (fun beat : AnecdoteMeta => Anecdote.year beat)
                           (beatAnecdotes s)))
    /\ Storyline.tags s
       = JsString.dedupe
           (flat_map (fun beat : AnecdoteMeta => Anecdote.tags beat) (beatAnecdotes s)).
Proof.
  intros Hr. destruct (RenderedFrom_beats _ _ _ _ _ _ Hr) as [_ [Han _]].
  rewrite Han. revert Hr. unfold RenderedFrom, buildStoryline.
  destruct (chain _) as [|first rest]; [discriminate|].
  intros [= <-]. exists first. repeat split.
Qed.

Lemma generateStorylines_provenance (Math_log : Q -> Q) (Date_getTime : string -> Z)
    (anecdotes : list Anecdote.t) :
  let items := toMeta Date_getTime anecdotes in
  exists l,
    generateStorylines Math_log Date_getTime anecdotes = Normal l
    /\ forall s, In s l ->
         Provenance items (getTopTags items 6) (computeTagWeights Math_log items) l s.
Proof.
  intros items. unfold generateStorylines.
  destruct anecdotes as [|a0 rest]; [exists []; split; [reflexivity | intros s []]|].
  apply assemble_provenance. discriminate.
Qed.

(** X5. The aggregate fields.  In every storyline that [generateStorylines]
    returns, the timeframe starts at the date of the first beat and ends at
    the date of the last beat (in chain order, whatever the dates are); its
    years are the years of the beats, each once, in strictly ascending
    order; and its tags are the tags of the beats' anecdotes as they were
    given, each once. *)
Theorem storyline_timeframe_and_tags (Math_log : Q -> Q) (Date_getTime : string -> Z)
    (anecdotes : list Anecdote.t) :
  exists l,
    generateStorylines Math_log Date_getTime anecdotes = Normal l
    /\ forall s, In s l ->
         (exists first,
            hd_error (beatAnecdotes s) = Some first
            /\ Timeframe.start (Storyline.timeframe s) = Anecdote.date first
            /\ Timeframe.end_ (Storyline.timeframe s)
               = Anecdote.date (List.last (beatAnecdotes s) first))
         /\ StronglySorted Z.lt (Timeframe.years (Storyline.timeframe s))
         /\ (forall y, In y (Timeframe.years (Storyline.timeframe s))
                       <-> exists beat, In beat (Storyline.beats s)
                                        /\ Anecdote.year (StorylineBeat.anecdote beat) = y)
         /\ NoDup (Storyline.tags s)
         /\ (forall t, In t (Storyline.tags s)
                       <-> exists beat, In beat (Storyline.beats s)
                                        /\ In t (Anecdote.tags (StorylineBeat.anecdote beat))).
Proof.
  destruct (generateStorylines_provenance Math_log Date_getTime anecdotes)
    as [l [Hl Hall]].
  exists l. split; [exact Hl|]. intros s Hs.
  destruct (Hall s Hs) as [recipe [target [usage [Hr _]]]].
  destruct (RenderedFrom_aggregates _ _ _ _ _ _ Hr)
    as [first [Hhd [Hstart [Hend [Hyears Htags]]]]].
  split; [exists first; now repeat split|].
  rewrite Hyears, Htags.
  destruct (years_sorted_distinct
              (map (fun beat : AnecdoteMeta => Anecdote.year beat) (beatAnecdotes s)))
    as [Hsorted Hin].
  split; [exact Hsorted|]. split; [|split].
  - intros y. rewrite Hin. unfold beatAnecdotes. rewrite map_map, in_map_iff.
    split; intros [beat H]; exists beat; tauto.
  - apply dedupe_NoDup.
  - intros t. rewrite dedupe_In, in_flat_map. unfold beatAnecdotes. split.
    + intros [m [Hm Ht]]. apply in_map_iff in Hm. destruct Hm as [beat [<- Hb]].
      now exists beat.
    + intros [beat [Hb Ht]]. exists (StorylineBeat.anecdote beat).
      split; [now apply in_map | assumption].
Qed.

(** ** Truncation *)

Lemma string_length_append (s1 s2 : string) :
  String.length (s1 ++ s2) = String.length s1 + String.length s2.
Proof. induction s1 as [|c r IH]; simpl; [reflexivity | now rewrite IH]. Qed.

Lemma slice0_length (n : nat) :
  forall s, String.length (JsString.slice0 n s) = Nat.min n (String.length s).
Proof.
  unfold JsString.slice0.
  induction n as [|n IH]; intros s; destruct s as [|c r]; simpl; try reflexivity.
  now rewrite IH.
Qed.

Lemma slice0_all (n : nat) :
  forall s, String.length s <= n -> JsString.slice0 n s = s.
Proof.
  unfold JsString.slice0.
  induction n as [|n IH]; intros s H; destruct s as [|c r]; simpl in *;
    try reflexivity; try lia.
  rewrite IH by lia. reflexivity.
Qed.

Lemma slice0_slice0 (n : nat) :
  forall m s, n <= m -> JsString.slice0 n (JsString.slice0 m s) = JsString.slice0 n s.
Proof.
  unfold JsString.slice0.
  induction n as [|n IH]; intros m s H.
  - destruct (substring 0 m s), s; reflexivity.
  - destruct m as [|m]; [lia|]. destruct s as [|c r]; simpl; [reflexivity|].
    rewrite IH by lia. reflexivity.
Qed.

Lemma lastIndexOf_from_spec (c : ascii) (s : string) :
  forall i : Z,
    (0 <= i)%Z ->
    JsString.lastIndexOf_from i c s = (-1)%Z
    \/ ((i <= JsString.lastIndexOf_from i c s < i + Z.of_nat (String.length s))%Z
        /\ String.get (Z.to_nat (JsString.lastIndexOf_from i c s - i)) s = Some c).
Proof.
  induction s as [|d r IH]; intros i Hi; [now left|].
  cbn [JsString.lastIndexOf_from]. cbv zeta.
  destruct (0 <=? JsString.lastIndexOf_from (i + 1) c r)%Z eqn:Hl.
  - apply Z.leb_le in Hl. right.
    destruct (IH (i + 1)%Z ltac:(lia)) as [E|[Hr Hg]]; [lia|].
    split; [cbn [String.length]; lia|].
    replace (Z.to_nat (JsString.lastIndexOf_from (i + 1) c r - i))
      with (S (Z.to_nat (JsString.lastIndexOf_from (i + 1) c r - (i + 1)))) by lia.
    exact Hg.
  - destruct (Ascii.eqb_spec c d) as [->|Hne]; [|now left].
    right. split; [cbn [String.length]; lia|].
    rewrite Z.sub_diag. reflexivity.
Qed.

Lemma slice0_get (n : nat) :
  forall s i, i < n -> String.get i (JsString.slice0 n s) = String.get i s.
Proof.
  intros s i H. unfold JsString.slice0.
  rewrite (substring_correct1 s 0 n i H). now rewrite Nat.add_0_r.
Qed.

Lemma truncate_short (text : string) (max : nat) :
  String.length text <= max -> truncate text max = text.
Proof.
  intros H. unfold truncate. apply Nat.leb_le in H. now rewrite H.
Qed.

Lemma truncate_long (text : string) (max : nat) :
  3 <= max -> max < String.length text ->
  exists n,
    truncate text max = JsString.slice0 n text ++ "..."
    /\ String.length (truncate text max) = n + 3
    /\ n <= max - 3
    /\ (n = max - 3 \/ (40 < n < max - 3 /\ String.get n text = Some " "%char)).
Proof.
  intros Hmax Hlen. unfold truncate.
  apply Nat.leb_gt in Hlen. rewrite Hlen. apply Nat.leb_gt in Hlen.
  set (trimmed := JsString.slice0 (max - 3) text).
  assert (Htl : String.length trimmed = max - 3)
    by (unfold trimmed; rewrite slice0_length; lia).
  set (lastSpace := JsString.lastIndexOf " " trimmed).
  assert (Hcases :
    exists n,
      JsString.slice0 (if (40 <? lastSpace)%Z then Z.to_nat lastSpace
                       else String.length trimmed) trimmed
      = JsString.slice0 n text
      /\ n <= max - 3
      /\ (n = max - 3 \/ (40 < n < max - 3 /\ String.get n text = Some " "%char))).
  { destruct (40 <? lastSpace)%Z eqn:H40.
    - apply Z.ltb_lt in H40.
      pose proof (lastIndexOf_from_spec " " trimmed 0 ltac:(lia)) as Hspec.
      change (JsString.lastIndexOf_from 0 " " trimmed) with lastSpace in Hspec.
      destruct Hspec as [E|[Hr Hg]]; [lia|].
      rewrite Z.sub_0_r in Hg. rewrite Htl in Hr.
      exists (Z.to_nat lastSpace). split; [|split; [lia|]].
      + unfold trimmed. apply slice0_slice0. lia.
      + right. split; [lia|]. rewrite <- Hg. unfold trimmed.
        symmetry. apply slice0_get. lia.
    - exists (max - 3). split; [|split; [lia | now left]].
      rewrite Htl. unfold trimmed. apply slice0_slice0. lia. }
  destruct Hcases as [n [-> [Hn Hor]]].
  assert (Hl : String.length (JsString.slice0 n text ++ "...") = n + 3).
  { rewrite string_length_append, slice0_length. simpl. lia. }
  exists n. now repeat split.
Qed.

(** X6. [truncate].  For a limit of at least 3, a text within the limit is
    returned as it is; a longer text is cut to a prefix followed by three
    dots, the whole no longer than the limit.  The prefix has [max - 3]
    characters, or it ends just before a space of the text that lies beyond
    position 40. *)
Theorem truncate_within_limit (text : string) (max : nat) :
  3 <= max ->
  String.length (truncate text max) <= max
  /\ (String.length text <= max -> truncate text max = text)
  /\ (max < String.length text ->
      exists n,
        truncate text max = JsString.slice0 n text ++ "..."
        /\ String.length (truncate text max) = n + 3
        /\ (n = max - 3 \/ (40 < n < max - 3 /\ String.get n text = Some " "%char))).
Proof.
  intros Hmax. split; [|split].
  - destruct (Nat.le_gt_cases (String.length text) max) as [H|H].
    + now rewrite truncate_short.
    + destruct (truncate_long text max Hmax H) as [n [_ [Hl [Hn _]]]]. lia.
  - apply truncate_short.
  - intros H. destruct (truncate_long text max Hmax H) as [n [He [Hl [_ Hor]]]].
    exists n. now repeat split.
Qed.

(** ** The rendering of a beat *)

Lemma Math_round_half_steps (k : nat) :
  Math_round (1 + ofNat k / 2)%Q = (1 + (Z.of_nat k + 1) / 2)%Z.
Proof.
  unfold Math_round.
  assert (E : (1 + ofNat k / 2 + (1 # 2) == (Z.of_nat k + 3) # 2)%Q).
  { unfold ofNat. rewrite (Qmake_Qdiv (Z.of_nat k + 3) 2), inject_Z_plus. field. }
  rewrite (Qfloor_comp _ _ E). unfold Qfloor.
  replace (Z.of_nat k + 3)%Z with (Z.of_nat k + 1 + 1 * 2)%Z by lia.
  rewrite Z.div_add by lia. lia.
Qed.

(** X7. The intensity of a beat.  It is [1 + ceil(impact / 2)] capped at 5,
    where [impact] is the impact score of the anecdote: a whole number from
    1 to 5, equal to 1 exactly when the impact score is 0 and to 5 exactly
    when it is 7 or more. *)
Theorem intensity_from_impact (beat : AnecdoteMeta) :
  let impact := Z.of_nat (computeImpactScore beat) in
  intensityOf beat = Z.min 5 (1 + (impact + 1) / 2)
  /\ (1 <= intensityOf beat <= 5)%Z
  /\ (intensityOf beat = 1%Z <-> impact = 0%Z)
  /\ (intensityOf beat = 5%Z <-> (7 <= impact)%Z).
Proof.
  intros impact. unfold intensityOf. rewrite Math_round_half_steps. fold impact.
  assert (Hi : (0 <= impact)%Z) by (unfold impact; lia).
  pose proof (Z.div_mod (impact + 1) 2 ltac:(lia)) as Hd.
  pose proof (Z.mod_pos_bound (impact + 1) 2 ltac:(lia)) as Hm.
  repeat split; intros; lia.
Qed.

Lemma append_cancel_l (p x y : string) : p ++ x = p ++ y -> x = y.
Proof.
  induction p as [|c r IH]; simpl; intros H; [assumption|].
  injection H as H. now apply IH.
Qed.

Lemma to_int_not_nil (z : Z) :
  Z.to_int z <> Decimal.Pos Decimal.Nil /\ Z.to_int z <> Decimal.Neg Decimal.Nil.
Proof.
  destruct z; simpl; split; try discriminate; intros H; injection H as H;
    now apply Unsigned.to_uint_nonnil in H.
Qed.

Lemma ofZ_injective (a b : Z) : JsString.ofZ a = JsString.ofZ b -> a = b.
Proof.
  unfold JsString.ofZ. intros H. apply to_int_inj.
  destruct (to_int_not_nil a) as [Ha1 Ha2]. destruct (to_int_not_nil b) as [Hb1 Hb2].
  pose proof (NilZero.isi _ Ha1 Ha2) as Ea. pose proof (NilZero.isi _ Hb1 Hb2) as Eb.
  rewrite H in Ea. rewrite Ea in Eb. now injection Eb.
Qed.

Lemma renderBeats_nth (recipe : StorylineRecipe.t)
    (debug : JsMap.t StorylineScoreBreakdown.t) (total : nat) (rest : list AnecdoteMeta) :
  forall index prev i b,
    nth_error (renderBeats recipe debug total index prev rest) i = Some b ->
    exists prev' a,
      nth_error rest i = Some a
      /\ b = renderBeat recipe debug total (index + i) prev' a.
Proof.
  induction rest as [|beat r IH]; intros index prev i b H.
  - destruct i; discriminate.
  - rewrite renderBeats_head in H. destruct i as [|i].
    + simpl in H. injection H as <-. exists prev, beat. rewrite Nat.add_0_r. now split.
    + simpl in H. destruct (IH _ _ _ _ H) as [prev' [a [Ha Hb]]].
      exists prev', a. split; [exact Ha|]. rewrite Hb. f_equal. lia.
Qed.

(** X8. How a beat is rendered.  In every storyline that
    [generateStorylines] returns, the beat at position [i] (from 0) has the id
    of the storyline followed by a hyphen and [i + 1]; its summary is the
    story of its anecdote truncated to 140 characters and its voiceover is
    the line of the storyline's style for that position.  No two beats of a
    storyline have the same id. *)
Theorem beats_rendered_by_position (Math_log : Q -> Q) (Date_getTime : string -> Z)
    (anecdotes : list Anecdote.t) :
  exists l,
    generateStorylines Math_log Date_getTime anecdotes = Normal l
    /\ forall s, In s l ->
         (forall i beat,
            nth_error (Storyline.beats s) i = Some beat ->
            StorylineBeat.id beat
            = Storyline.id s ++ "-" ++ JsString.ofZ (Z.of_nat i + 1)
            /\ StorylineBeat.summary beat
               = truncate (Anecdote.story (StorylineBeat.anecdote beat)) 140
            /\ String.length (StorylineBeat.summary beat) <= 140
            /\ StorylineBeat.voiceover beat
               = buildVoiceover (Storyline.style s) (StorylineBeat.anecdote beat) i
                   (List.length (Storyline.beats s))
            /\ StorylineBeat.intensity beat = intensityOf (StorylineBeat.anecdote beat))
         /\ NoDup (map StorylineBeat.id (Storyline.beats s)).
Proof.
  destruct (generateStorylines_provenance Math_log Date_getTime anecdotes)
    as [l [Hl Hall]].
  exists l. split; [exact Hl|]. intros s Hs.
  destruct (Hall s Hs) as [recipe [target [usage [Hr _]]]].
  destruct (RenderedFrom_beats _ _ _ _ _ _ Hr) as [Hid [Han Hbeats]].
  assert (Hstyle : Storyline.style s = StorylineRecipe.style recipe).
  { revert Hr. unfold RenderedFrom, buildStoryline.
    destruct (chain _); [discriminate | now intros [= <-]]. }
  assert (Hlen : List.length (Storyline.beats s)
                 = List.length (chain (buildChain (toMeta Date_getTime anecdotes) recipe
                                         target usage
                                         (computeTagWeights Math_log
                                            (toMeta Date_getTime anecdotes))))).
  { rewrite <- Han. unfold beatAnecdotes. now rewrite length_map. }
  assert (Hpos : forall i beat,
             nth_error (Storyline.beats s) i = Some beat ->
             StorylineBeat.id beat
             = Storyline.id s ++ "-" ++ JsString.ofZ (Z.of_nat i + 1)
             /\ StorylineBeat.summary beat
                = truncate (Anecdote.story (StorylineBeat.anecdote beat)) 140
             /\ StorylineBeat.voiceover beat
                = buildVoiceover (Storyline.style s) (StorylineBeat.anecdote beat) i
                    (List.length (Storyline.beats s))
             /\ StorylineBeat.intensity beat = intensityOf (StorylineBeat.anecdote beat)).
  { intros i beat Hb. rewrite Hlen, Hid, Hstyle. rewrite Hbeats in Hb.
    destruct (renderBeats_nth _ _ _ _ _ _ _ _ Hb) as [prev' [a [_ ->]]].
    now repeat split. }
  split.
  - intros i beat Hb. destruct (Hpos i beat Hb) as [H1 [H2 [H3 H4]]].
    repeat split; try assumption.
    rewrite H2.
    destruct (Nat.le_gt_cases
                (String.length (Anecdote.story (StorylineBeat.anecdote beat))) 140)
      as [Hs'|Hs'].
    + now rewrite truncate_short.
    + destruct (truncate_long _ 140 ltac:(lia) Hs') as [n [_ [Hcut [Hn _]]]]. lia.
  - apply (proj2 (NoDup_nth_error _)). intros i j Hi Hij.
    rewrite length_map in Hi.
    rewrite !nth_error_map in Hij.
    destruct (nth_error (Storyline.beats s) i) as [bi|] eqn:Ebi;
      [|apply nth_error_None in Ebi; lia].
    destruct (nth_error (Storyline.beats s) j) as [bj|] eqn:Ebj; [|discriminate].
    simpl in Hij. injection Hij as Hij.
    destruct (Hpos i bi Ebi) as [Hi1 _]. destruct (Hpos j bj Ebj) as [Hj1 _].
    rewrite Hi1, Hj1 in Hij.
    apply append_cancel_l in Hij. apply (append_cancel_l "-") in Hij.
    apply ofZ_injective in Hij. lia.
Qed.

(** ** Where a chain starts *)

Lemma Qgt_bool_true (x y : Q) : Qgt_bool x y = true -> (y < x)%Q.
Proof.
  unfold Qgt_bool. intros H. apply negb_true_iff in H.
  apply Qnot_le_lt. intros Hle. apply Qle_bool_iff in Hle. congruence.
Qed.

Lemma Qgt_bool_false (x y : Q) : Qgt_bool x y = false -> (x <= y)%Q.
Proof.
  unfold Qgt_bool. intros H. apply negb_false_iff in H. now apply Qle_bool_iff.
Qed.

(** [pickStart] on the timestamps of the items. *)
Lemma pickStart_spec (items : list AnecdoteMeta) (recipe : StorylineRecipe.t)
    (usage : JsMap.t nat) (tagWeights : TagWeights) :
  match pickStart items recipe usage tagWeights with
  | None => items = []
  | Some c =>
      In c items
      /\ if isChronological (StorylineRecipe.mode recipe)
         then forall x, In x items -> (_timestamp c <= _timestamp x)%Z
         else forall x, In x items ->
                (startScore x recipe usage tagWeights
                 <= startScore c recipe usage tagWeights)%Q
  end.
Proof.
  unfold pickStart.
  destruct (isChronological (StorylineRecipe.mode recipe)).
  - destruct (hd_error (Array_sort byTimestamp items)) as [c|] eqn:Hh.
    + split.
      * apply (Array_sort_In byTimestamp).
        destruct (Array_sort byTimestamp items); [discriminate|].
        injection Hh as ->. now left.
      * exact (Array_sort_head_least _timestamp byTimestamp (fun a b => eq_refl) items c Hh).
    + destruct (Array_sort byTimestamp items) eqn:Hs; [|discriminate].
      apply (f_equal (@List.length _)) in Hs. rewrite Array_sort_length in Hs.
      now destruct items.
  - set (f := fun (acc : option AnecdoteMeta * option Q) _ => _).
    set (sc := fun x => startScore x recipe usage tagWeights).
    assert (G : forall l done acc,
               (match acc with
                | (Some b, Some s) =>
                    In b done /\ s = sc b /\ forall x, In x done -> (sc x <= sc b)%Q
                | (None, None) => done = []
                | _ => False
                end) ->
               match fold_left f l acc with
               | (Some b, Some s) =>
                   In b (done ++ l) /\ s = sc b
                   /\ forall x, In x (done ++ l) -> (sc x <= sc b)%Q
               | (None, None) => (done ++ l)%list = []
               | _ => False
               end).
    { induction l as [|c r IH]; intros done acc Hacc.
      - simpl. rewrite app_nil_r. exact Hacc.
      - simpl fold_left.
        replace (done ++ c :: r)%list with ((done ++ [c]) ++ r)%list
          by (rewrite <- app_assoc; reflexivity).
        apply IH. unfold f. destruct acc as [[b|] [s|]]; try contradiction.
        + destruct Hacc as [Hin [-> Hmax]]. cbn [beats_best].
          change (Qgt_bool _ (sc b)) with (Qgt_bool (sc c) (sc b)).
          destruct (Qgt_bool (sc c) (sc b)) eqn:Hg.
          * apply Qgt_bool_true in Hg. split; [apply in_or_app; right; now left|].
            split; [reflexivity|]. intros x Hx. apply in_app_or in Hx.
            destruct Hx as [Hx|[<-|[]]]; [|apply Qle_refl].
            apply Qle_trans with (sc b); [now apply Hmax | now apply Qlt_le_weak].
          * apply Qgt_bool_false in Hg. split; [apply in_or_app; now left|].
            split; [reflexivity|]. intros x Hx. apply in_app_or in Hx.
            destruct Hx as [Hx|[<-|[]]]; [now apply Hmax | exact Hg].
        + subst done. cbn [beats_best]. split; [now left|]. split; [reflexivity|].
          intros x [<-|[]]. apply Qle_refl. }
    specialize (G items [] (None, None) eq_refl). simpl app in G.
    destruct (fold_left f items (None, None)) as [[b|] [s|]]; try contradiction.
    + destruct G as [Hin [_ Hmax]]. split; assumption.
    + subst items. reflexivity.
Qed.

(** ** How a chain grows *)

Lemma scanCandidates_max (sorted : list AnecdoteMeta) (used : JsSet.t)
    (current : AnecdoteMeta) (recipe : StorylineRecipe.t) (usage : JsMap.t nat)
    (tagWeights : TagWeights) (streak : nat) (b : AnecdoteMeta)
    (bd : StorylineScoreBreakdown.t) :
  scanCandidates sorted used current recipe usage tagWeights streak = Some (b, bd) ->
  forall x, Unused sorted used x ->
    (StorylineScoreBreakdown.total
       (scoreConnection current x recipe usage tagWeights streak)
     <= StorylineScoreBreakdown.total bd)%Q.
Proof.
  unfold scanCandidates, Unused.
  set (f := fun (best : option (AnecdoteMeta * StorylineScoreBreakdown.t)) _ => _).
  set (sc := fun x => StorylineScoreBreakdown.total
                        (scoreConnection current x recipe usage tagWeights streak)).
  assert (G : forall l done acc,
             (forall b' bd', acc = Some (b', bd') ->
                forall x, In x done -> JsSet.has used (idOf x) = false ->
                  (sc x <= StorylineScoreBreakdown.total bd')%Q) ->
             (acc = None -> forall x, In x done -> JsSet.has used (idOf x) = true) ->
             forall b' bd', fold_left f l acc = Some (b', bd') ->
               forall x, In x (done ++ l) -> JsSet.has used (idOf x) = false ->
                 (sc x <= StorylineScoreBreakdown.total bd')%Q).
  { induction l as [|c r IH]; intros done acc Hsome Hnone b' bd' Hfold x Hx Hu.
    - simpl in Hfold. rewrite app_nil_r in Hx. now apply (Hsome b' bd').
    - simpl in Hfold.
      replace (done ++ c :: r)%list with ((done ++ [c]) ++ r)%list in Hx
        by (rewrite <- app_assoc; reflexivity).
      apply (IH (done ++ [c])%list (f acc c)) with (b' := b'); try assumption.
      + clear x Hx Hu. intros b2 bd2 Hacc x Hx Hu. unfold f in Hacc.
        apply in_app_or in Hx.
        destruct (JsSet.has used (Anecdote.id c)) eqn:Huc.
        * destruct Hx as [Hx|[<-|[]]]; [now apply (Hsome b2 bd2)|].
          unfold idOf in Hu. congruence.
        * destruct acc as [[b0 bd0]|]; cbn [beats_best option_map snd] in Hacc.
          -- destruct (Qgt_bool _ _) eqn:Hg.
             ++ injection Hacc as <- <-. apply Qgt_bool_true in Hg.
                destruct Hx as [Hx|[<-|[]]]; [|apply Qle_refl].
                apply Qle_trans with (StorylineScoreBreakdown.total bd0);
                  [now apply (Hsome b0 bd0) | now apply Qlt_le_weak].
             ++ injection Hacc as <- <-. apply Qgt_bool_false in Hg.
                destruct Hx as [Hx|[<-|[]]]; [now apply (Hsome b0 bd0) | exact Hg].
          -- injection Hacc as <- <-.
             destruct Hx as [Hx|[<-|[]]]; [|apply Qle_refl].
             rewrite (Hnone eq_refl x Hx) in Hu. discriminate.
      + clear x Hx Hu. intros Hacc x Hx. unfold f in Hacc.
        apply in_app_or in Hx.
        destruct (JsSet.has used (Anecdote.id c)) eqn:Huc.
        * destruct Hx as [Hx|[<-|[]]]; [now apply Hnone | exact Huc].
        * destruct acc as [[? ?]|]; cbn [beats_best option_map] in Hacc;
            [destruct (Qgt_bool _ _); discriminate | discriminate]. }
  intros Hfold x [Hin Hu].
  apply (G sorted [] None) with (b' := b); try assumption.
  - discriminate.
  - intros _ y [].
Qed.

(** One pass of the loop of [buildChain]: it stops the loop only when every
    item is used, and otherwise appends a choice of the loop. *)
Lemma extendChain_choice (sorted : list AnecdoteMeta) (recipe : StorylineRecipe.t)
    (usage : JsMap.t nat) (tagWeights : TagWeights) (st : LoopState) :
  match extendChain sorted recipe usage tagWeights st with
  | None => forall x, In x sorted -> JsSet.has (ls_used st) (idOf x) = true
  | Some st' =>
      let b := ls_current st' in
      let total := candidateTotal recipe usage tagWeights (ls_chain st) (ls_current st) in
      Unused sorted (ls_used st) b
      /\ ls_chain st' = (ls_chain st ++ [b])%list
      /\ ((0 <= total b /\ forall x, Unused sorted (ls_used st) x -> total x <= total b)%Q
          \/ ((forall x, Unused sorted (ls_used st) x -> total x < 0)%Q
              /\ nearestUnused sorted (ls_used st) (ls_current st) = Some b))
  end.
Proof.
  destruct (extendChain sorted recipe usage tagWeights st) as [st'|] eqn:He.
  - pose proof (extendChain_spec _ _ _ _ _ _ He) as [b [Hu [Hin [Hch [_ Hcur]]]]].
    cbv zeta. rewrite Hcur. split; [now split|]. split; [exact Hch|].
    revert He. unfold extendChain.
    destruct (scanCandidates _ _ _ _ _ _ _) as [[c bd]|] eqn:Hs.
    + pose proof (scanCandidates_max _ _ _ _ _ _ _ _ _ Hs) as Hmax.
      apply scanCandidates_spec in Hs. destruct Hs as [_ [_ Hbd]].
      destruct (Qgt_bool 0 (StorylineScoreBreakdown.total bd)) eqn:Hg.
      * destruct (nearestUnused _ _ _) as [n|] eqn:Hn; [|discriminate].
        intros [= <-]. simpl in Hcur. subst n. right. split; [|reflexivity].
        apply Qgt_bool_true in Hg. intros x Hx.
        apply Qle_lt_trans with (StorylineScoreBreakdown.total bd); [|exact Hg].
        now apply Hmax.
      * intros [= <-]. simpl in Hcur. subst c. left.
        apply Qgt_bool_false in Hg. unfold candidateTotal. rewrite <- Hbd.
        split; [exact Hg|]. intros x Hx. now apply Hmax.
    + exfalso. pose proof (scanCandidates_none _ _ _ _ _ _ _ Hs b Hin). congruence.
  - now apply (extendChain_break sorted recipe usage tagWeights).
Qed.

Lemma find_sorted_least {A : Type} (key : A -> Z) (p : A -> bool) (l : list A) (b : A) :
  StronglySorted (keyLe key) l -> find p l = Some b ->
  forall x, In x l -> p x = true -> (key b <= key x)%Z.
Proof.
  induction l as [|a r IH]; intros Hs Hf x Hx Hp; [contradiction|].
  inversion Hs as [|? ? Hr Hall]; subst. simpl in Hf.
  destruct (p a) eqn:Hpa.
  - injection Hf as <-. destruct Hx as [<-|Hx]; [lia|].
    rewrite Forall_forall in Hall. now apply Hall.
  - destruct Hx as [<-|Hx]; [congruence|]. now apply IH.
Qed.

(** [nearestUnused] on the timestamps of the sorted items. *)
Lemma nearestUnused_sorted_spec (items : list AnecdoteMeta) (used : JsSet.t)
    (current : AnecdoteMeta) :
  let sorted := Array_sort byTimestamp items in
  match nearestUnused sorted used current with
  | None => forall x, In x items -> JsSet.has used (idOf x) = true
  | Some b =>
      Unused sorted used b
      /\ if (_timestamp current <=? _timestamp b)%Z
         then forall x, Unused sorted used x ->
                (_timestamp current <= _timestamp x)%Z -> (_timestamp b <= _timestamp x)%Z
         else forall x, Unused sorted used x ->
                (_timestamp b <= _timestamp x < _timestamp current)%Z
  end.
Proof.
  intros sorted.
  pose proof (Array_sort_sorted _timestamp byTimestamp (fun a b => eq_refl) items) as Hs.
  fold sorted in Hs.
  destruct (nearestUnused sorted used current) as [b|] eqn:Hn.
  - pose proof (nearestUnused_spec _ _ _ _ Hn) as [Hu Hin]. split; [now split|].
    revert Hn. unfold nearestUnused.
    destruct (find _ sorted) as [fw|] eqn:Hf.
    + intros [= ->]. pose proof (find_some _ _ Hf) as [_ Hp].
      apply andb_prop in Hp. destruct Hp as [_ Hp]. rewrite Hp.
      intros x [Hxin Hxu] Hle.
      apply (find_sorted_least _timestamp _ sorted b Hs Hf x Hxin).
      unfold unusedIn. fold (idOf x). rewrite Hxu. simpl. now apply Z.leb_le.
    + intros Hf2.
      assert (Hbefore : forall x, Unused sorted used x ->
                          (_timestamp x < _timestamp current)%Z).
      { intros x [Hxin Hxu]. pose proof (find_none _ _ Hf x Hxin) as Hx.
        unfold unusedIn in Hx. fold (idOf x) in Hx. rewrite Hxu in Hx. simpl in Hx.
        apply Z.leb_gt in Hx. exact Hx. }
      pose proof (Hbefore b (conj Hin Hu)) as Hb. apply Z.leb_gt in Hb. rewrite Hb.
      intros x Hx. split; [|now apply Hbefore].
      destruct Hx as [Hxin Hxu].
      apply (find_sorted_least _timestamp _ sorted b Hs Hf2 x Hxin).
      unfold unusedIn. fold (idOf x). now rewrite Hxu.
  - intros x Hx. apply (Array_sort_In byTimestamp) in Hx. fold sorted in Hx.
    destruct (JsSet.has used (idOf x)) eqn:Hu; [reflexivity|].
    exfalso. now apply (nearestUnused_some sorted used current x Hx Hu).
Qed.

(** ** The chain as a sequence of choices *)

Section GreedyFacts.
Variable sorted : list AnecdoteMeta.
Variable recipe : StorylineRecipe.t.
Variable targetLength : Z.
Variable usage : JsMap.t nat.
Variable tagWeights : TagWeights.

Lemma extendChain_keeps_greedy (st st' : LoopState) :
  ChainInv sorted targetLength st ->
  GreedyChain sorted recipe usage tagWeights (ls_chain st) ->
  extendChain sorted recipe usage tagWeights st = Some st' ->
  GreedyChain sorted recipe usage tagWeights (ls_chain st').
Proof.
  intros [Hused _ _ Hne _ _ Hcur] Hg He.
  pose proof (extendChain_choice sorted recipe usage tagWeights st) as Hc.
  rewrite He in Hc. cbv zeta in Hc. destruct Hc as [Hun [Hch Hor]].
  set (b := ls_current st') in *.
  intros i p b' Hp Hb. rewrite Hch in Hp, Hb |- *.
  destruct (Nat.lt_ge_cases (S i) (List.length (ls_chain st))) as [Hlt|Hge].
  - rewrite nth_error_app1 in Hp by lia. rewrite nth_error_app1 in Hb by lia.
    rewrite firstn_app.
    replace (S i - List.length (ls_chain st)) with 0 by lia.
    rewrite firstn_O, app_nil_r. now apply Hg.
  - assert (Hi : S i = List.length (ls_chain st)).
    { assert (S i < List.length (ls_chain st ++ [b])%list)
        by (apply nth_error_Some; congruence).
      rewrite length_app in H. simpl in H. lia. }
    rewrite nth_error_app1 in Hp by lia.
    rewrite nth_error_app2 in Hb by lia.
    replace (S i - List.length (ls_chain st)) with 0 in Hb by lia.
    simpl in Hb. injection Hb as <-.
    assert (Ep : p = ls_current st).
    { rewrite <- Hcur. symmetry. apply nth_error_last.
      replace (List.length (ls_chain st) - 1) with i by lia. exact Hp. }
    subst p.
    rewrite firstn_app, Hi, firstn_all, Nat.sub_diag, firstn_O, app_nil_r.
    unfold GreedyChoice. cbv zeta. rewrite <- Hused. now split.
Qed.

Lemma extendLoop_greedy (fuel : nat) :
  forall st r, ChainInv sorted targetLength st ->
    GreedyChain sorted recipe usage tagWeights (ls_chain st) ->
    extendLoop fuel sorted recipe targetLength usage tagWeights st = Some r ->
    GreedyChain sorted recipe usage tagWeights (ls_chain r)
    /\ hd_error (ls_chain r) = hd_error (ls_chain st).
Proof.
  induction fuel as [|fuel IH]; intros st r Hinv Hg H; simpl in H.
  - destruct (loopContinues sorted targetLength st); [discriminate|].
    injection H as <-. now split.
  - destruct (loopContinues sorted targetLength st) eqn:Hc;
      [|injection H as <-; now split].
    destruct (extendChain sorted recipe usage tagWeights st) as [st'|] eqn:Hs;
      [|injection H as <-; now split].
    destruct (IH st' r) as [Hg' Hhd]; try assumption.
    + now apply (extendChain_inv sorted recipe targetLength usage tagWeights st).
    + now apply (extendChain_keeps_greedy st).
    + split; [exact Hg'|]. rewrite Hhd.
      apply extendChain_spec in Hs. destruct Hs as [b [_ [_ [Hch _]]]].
      rewrite Hch. destruct Hinv as [_ _ _ Hne _ _ _].
      destruct (ls_chain st); [simpl in Hne; lia | reflexivity].
Qed.

End GreedyFacts.

Lemma buildChain_head_greedy (items : list AnecdoteMeta) (recipe : StorylineRecipe.t)
    (targetLength : Z) (usage : JsMap.t nat) (tagWeights : TagWeights) :
  let sorted := Array_sort byTimestamp items in
  let c := chain (buildChain items recipe targetLength usage tagWeights) in
  hd_error c = pickStart sorted recipe usage tagWeights
  /\ GreedyChain sorted recipe usage tagWeights c.
Proof.
  intros sorted c.
  destruct items as [|i0 rest].
  - subst c sorted. rewrite buildChain_empty. simpl. split.
    + unfold pickStart. simpl. now destruct (isChronological _).
    + intros i p b Hp. destruct i; discriminate.
  - pose proof (buildChainFuel_enough (i0 :: rest) recipe targetLength usage tagWeights 0)
      as H.
    rewrite Nat.add_0_r in H. unfold buildChainFuel in H. fold sorted in H.
    destruct (pickStart_some sorted recipe usage tagWeights) as [cur [Hc Hin]].
    { intros E. apply (f_equal (@List.length _)) in E. unfold sorted in E.
      rewrite Array_sort_length in E. discriminate. }
    rewrite Hc in H |- *. fold (startState cur) in H.
    destruct (extendLoop _ sorted recipe targetLength usage tagWeights (startState cur))
      as [st|] eqn:Hl; [|discriminate].
    injection H as H. subst c. rewrite <- H. simpl.
    assert (Hg0 : GreedyChain sorted recipe usage tagWeights (ls_chain (startState cur))).
    { intros i p b Hp Hb. destruct i; discriminate. }
    destruct (extendLoop_greedy sorted recipe targetLength usage tagWeights _ _ _
                (startState_inv sorted targetLength cur Hin) Hg0 Hl) as [Hg Hhd].
    split; [exact Hhd | exact Hg].
Qed.

Lemma toMeta_timestamp (Date_getTime : string -> Z) (anecdotes : list Anecdote.t)
    (x : AnecdoteMeta) :
  In x (toMeta Date_getTime anecdotes) -> _timestamp x = Date_getTime (Anecdote.date x).
Proof.
  unfold toMeta. intros H. apply in_map_iff in H. destruct H as [a [<- _]]. reflexivity.
Qed.

(** The opening beat of the chronological storylines, by the clock. *)
Lemma opening_beat_least_clock (Math_log : Q -> Q)
    (Date_getTime : string -> Z) (anecdotes : list Anecdote.t) :
  exists l,
    generateStorylines Math_log Date_getTime anecdotes = Normal l
    /\ forall s, In s l ->
         Storyline.id s = "chronicle" \/ Storyline.id s = "core" ->
         exists first,
           hd_error (beatAnecdotes s) = Some first
           /\ In (anecdote first) anecdotes
           /\ Timeframe.start (Storyline.timeframe s) = Anecdote.date first
           /\ forall a, In a anecdotes ->
                (Date_getTime (Anecdote.date first) <= Date_getTime (Anecdote.date a))%Z.
Proof.
  destruct (generateStorylines_provenance Math_log Date_getTime anecdotes)
    as [l [Hl Hall]].
  exists l. split; [exact Hl|]. intros s Hs Hid.
  destruct (Hall s Hs) as [recipe [target [usage [Hr Hfrom]]]].
  set (items := toMeta Date_getTime anecdotes) in *.
  set (tagWeights := computeTagWeights Math_log items) in *.
  destruct (RenderedFrom_beats _ _ _ _ _ _ Hr) as [Hsid [Han _]].
  destruct (RenderedFrom_aggregates _ _ _ _ _ _ Hr) as [first [Hhd [Hstart _]]].
  assert (Hmode : isChronological (StorylineRecipe.mode recipe) = true).
  { rewrite Hsid in Hid.
    destruct Hfrom as [[Hin _]|[-> _]]; [|reflexivity].
    destruct Hin as [<-|[<-|[<-|[<-|[]]]]]; simpl in Hid |- *;
      try reflexivity; destruct Hid; discriminate. }
  destruct (buildChain_head_greedy items recipe target usage tagWeights) as [Hpick _].
  rewrite <- Han, Hhd in Hpick. unfold pickStart in Hpick. rewrite Hmode in Hpick.
  symmetry in Hpick.
  pose proof (Array_sort_head_least _timestamp byTimestamp (fun a b => eq_refl) _ _ Hpick)
    as Hleast.
  assert (Hfirst : In first items).
  { apply (proj1 (Array_sort_In byTimestamp items first)).
    apply (proj1 (Array_sort_In byTimestamp _ first)).
    destruct (Array_sort byTimestamp (Array_sort byTimestamp items));
      [discriminate|]. injection Hpick as ->. now left. }
  exists first. split; [exact Hhd|]. split; [now apply (toMeta_In Date_getTime)|].
  split; [exact Hstart|].
  intros a Ha.
  rewrite <- (toMeta_timestamp Date_getTime anecdotes first Hfirst).
  rewrite <- (toMeta_anecdotes Date_getTime anecdotes) in Ha.
  apply in_map_iff in Ha. destruct Ha as [x [<- Hx]].
  change (Anecdote.date (anecdote x)) with (Anecdote.date x).
  rewrite <- (toMeta_timestamp Date_getTime anecdotes x Hx).
  apply Hleast. now apply (proj2 (Array_sort_In byTimestamp items x)).
Qed.

(** ** The parts of a connection score *)

Lemma Qle_bool_scaled (z k y : Z) :
  (0 < y)%Z ->
  Qle_bool (Qabs (inject_Z z) / inject_Z y) (inject_Z k) = (Z.abs z <=? k * y)%Z.
Proof.
  intros Hy.
  assert (Hq : (0 < inject_Z y)%Q) by (unfold Qlt; simpl; lia).
  assert (Ha : Qabs (inject_Z z) = inject_Z (Z.abs z)) by reflexivity.
  rewrite Ha.
  destruct (Z.leb_spec (Z.abs z) (k * y)) as [Hle|Hgt].
  - apply Qle_bool_iff. apply Qle_shift_div_r; [exact Hq|].
    rewrite <- inject_Z_mult. now rewrite <- Zle_Qle.
  - destruct (Qle_bool _ _) eqn:Hb; [|reflexivity]. exfalso.
    apply Qle_bool_iff in Hb.
    assert (H : (inject_Z (Z.abs z) <= inject_Z k * inject_Z y)%Q).
    { setoid_replace (inject_Z (Z.abs z))
        with (inject_Z (Z.abs z) / inject_Z y * inject_Z y)%Q
        by (field; intros E; rewrite E in Hq; discriminate).
      apply Qmult_le_compat_r; [exact Hb | now apply Qlt_le_weak]. }
    rewrite <- inject_Z_mult, <- Zle_Qle in H. lia.
Qed.

(** X13. The recency part of a connection score depends on the distance in
    time only: 1.65 when the two dates are at most 365 days apart, 0.4 when
    they are more than 365 and at most 1095 days apart, and 0 beyond. *)
Theorem recency_by_distance (prev candidate : AnecdoteMeta) (recipe : StorylineRecipe.t)
    (usage : JsMap.t nat) (tagWeights : TagWeights) (storytellerStreak : nat) :
  let distance := Z.abs (_timestamp candidate - _timestamp prev) in
  (StorylineScoreBreakdown.recencyScore
     (scoreConnection prev candidate recipe usage tagWeights storytellerStreak)
   == if (distance <=? 365 * IsoDate.DAY_MS)%Z then 1.65
      else if (distance <=? 1095 * IsoDate.DAY_MS)%Z then 0.4 else 0)%Q.
Proof.
  intros distance. unfold scoreConnection. cbv zeta.
  cbn [StorylineScoreBreakdown.recencyScore].
  change 1%Q with (inject_Z 1). change 3%Q with (inject_Z 3).
  rewrite !Qle_bool_scaled by (unfold YEAR_MS; lia).
  fold distance.
  replace (1 * YEAR_MS)%Z with (365 * IsoDate.DAY_MS)%Z by reflexivity.
  replace (3 * YEAR_MS)%Z with (1095 * IsoDate.DAY_MS)%Z by reflexivity.
  destruct (Z.leb_spec distance (365 * IsoDate.DAY_MS)) as [H1|H1];
    destruct (Z.leb_spec distance (1095 * IsoDate.DAY_MS)) as [H3|H3];
    try reflexivity.
  unfold IsoDate.DAY_MS in *. lia.
Qed.

(** ** Keyword counts *)

Lemma countMatches_fold_le (text : string) (keywords : list string) :
  forall count,
    fold_left
      (fun count keyword =>
         let normalized := JsString.toLowerCase (JsString.trim keyword) in
         if JsString.isEmpty normalized then count
         else if JsString.includes normalized " "
              then count + (if JsString.includes text normalized then 1 else 0)
              else count + Nat.min 3 (JsString.countWordMatches normalized text))
      keywords count
    <= count + 3 * List.length keywords.
Proof.
  induction keywords as [|k r IH]; intros count; cbn [fold_left List.length]; [lia|].
  etransitivity; [apply IH|]. cbv zeta.
  destruct (JsString.isEmpty _); [lia|].
  destruct (JsString.includes _ " ").
  - destruct (JsString.includes text _); lia.
  - pose proof (Nat.le_min_l 3 (JsString.countWordMatches
                                  (JsString.toLowerCase (JsString.trim k)) text)).
    lia.
Qed.

(** ** The most frequent tags *)

Lemma filter_partition_perm {A : Type} (p : A -> bool) (l : list A) :
  Permutation (filter p l ++ filter (fun x => negb (p x)) l) l.
Proof.
  induction l as [|a r IH]; simpl; [constructor|].
  destruct (p a); simpl.
  - now constructor.
  - etransitivity; [symmetry; apply Permutation_middle|]. now constructor.
Qed.

Lemma Object_entries_perm {V : Type} (o : JsMap.t V) : Permutation (Object_entries o) o.
Proof.
  unfold Object_entries.
  etransitivity; [|apply (filter_partition_perm isIndexKey)].
  apply Permutation_app_tail, Array_sort_perm.
Qed.

Lemma JsMap_In_get {V : Type} (m : JsMap.t V) (k : string) (v : V) :
  NoDup (keysOf m) -> In (k, v) m -> JsMap.get m k = Some v.
Proof.
  induction m as [|[k' v'] r IH]; simpl; intros Hnd Hin; [contradiction|].
  inversion Hnd as [|? ? Hk Hr]; subst.
  destruct Hin as [[= -> ->]|Hin].
  - now rewrite String.eqb_refl.
  - destruct (String.eqb_spec k k') as [->|Hne]; [|now apply IH].
    exfalso. apply Hk. change k' with (fst (k', v)). now apply in_map.
Qed.

Lemma countTags_fold (tags : list string) :
  forall m : JsMap.t nat,
    (forall t, In t tags -> t <> "__proto__") ->
    NoDup (keysOf m) ->
    let m' :=
      fold_left
        (fun (counts : JsMap.t nat) tag =>
           if String.eqb tag "__proto__" then counts
           else JsMap.set counts tag (getOr0 counts tag + 1))
        tags m in
    NoDup (keysOf m')
    /\ (forall k, getOr0 m' k = getOr0 m k + count_occ string_dec tags k)
    /\ (forall k, In k (keysOf m') <-> In k (keysOf m) \/ In k tags).
Proof.
  induction tags as [|t r IH]; intros m Hp Hnd; cbn [fold_left].
  - cbv zeta. split; [exact Hnd|]. split; [intros k; simpl; lia | intros k; simpl; tauto].
  - destruct (String.eqb_spec t "__proto__") as [E|_];
      [exfalso; apply (Hp t); [now left | exact E]|].
    destruct (IH (JsMap.set m t (getOr0 m t + 1))) as [H1 [H2 H3]].
    + intros t' Ht'. apply Hp. now right.
    + now apply keysOf_set_NoDup.
    + cbv zeta. split; [exact H1|]. split.
      * intros k. rewrite H2. cbn [count_occ].
        destruct (string_dec t k) as [->|Hne].
        -- rewrite getOr0_set_same. lia.
        -- rewrite getOr0_set_other by congruence. lia.
      * intros k. rewrite H3, keysOf_set.
        destruct (JsString.mem t (keysOf m)) eqn:Hm.
        -- apply mem_In in Hm. simpl. split; [tauto|].
           intros [H|[<-|H]]; tauto.
        -- rewrite in_app_iff. simpl. tauto.
Qed.

Lemma StronglySorted_app_le {A : Type} (R : A -> A -> Prop) (l1 l2 : list A) :
  StronglySorted R (l1 ++ l2) -> forall x y, In x l1 -> In y l2 -> R x y.
Proof.
  induction l1 as [|a r IH]; simpl; intros Hs x y Hx Hy; [contradiction|].
  inversion Hs as [|? ? Hr Hall]; subst.
  destruct Hx as [<-|Hx]; [|now apply IH].
  rewrite Forall_forall in Hall. apply Hall, in_or_app. now right.
Qed.

(** X15. [getTopTags], for tags that name no inherited property of the
    counting object.  It returns at most [limit] tags, each once and each a
    tag of some item.  A tag that is left out occurs at most as often as
    every tag returned, and is left out only when [limit] tags are
    returned. *)
Theorem getTopTags_ranked (items : list AnecdoteMeta) (limit : nat) :
  PlainTags items ->
  let top := getTopTags items limit in
  List.length top <= limit
  /\ NoDup top
  /\ (forall t, In t top -> 0 < tagOccurrences items t)
  /\ forall u, 0 < tagOccurrences items u -> ~ In u top ->
       List.length top = limit
       /\ forall t, In t top -> tagOccurrences items u <= tagOccurrences items t.
Proof.
  intros Hplain. unfold getTopTags. cbv zeta.
  set (g := fun (counts : JsMap.t nat) tag =>
              if String.eqb tag "__proto__" then counts
              else JsMap.set counts tag (getOr0 counts tag + 1)).
  assert (Hflat : forall l m,
             fold_left (fun (counts : JsMap.t nat) (item : AnecdoteMeta) =>
                          fold_left g (_tags item) counts) l m
             = fold_left g (flat_map _tags l) m).
  { induction l as [|i r IH]; intros m; simpl; [reflexivity|].
    now rewrite fold_left_app, IH. }
  rewrite Hflat. set (counts := fold_left g (flat_map _tags items) JsMap.empty).
  destruct (countTags_fold (flat_map _tags items) JsMap.empty) as [Hnd [Hocc Hkeys]].
  { intros t Ht E. apply in_flat_map in Ht. destruct Ht as [item [Hi Ht]].
    apply (Hplain item t Hi Ht). rewrite E. unfold OBJECT_PROTOTYPE_KEYS. simpl. tauto. }
  { constructor. }
  fold g in Hnd, Hocc, Hkeys. fold counts in Hnd, Hocc, Hkeys.
  fold (tagOccurrences items) in Hocc.
  set (cmp := fun a b : string * nat => (Z.of_nat (snd b) - Z.of_nat (snd a))%Z).
  set (es := Array_sort cmp (Object_entries counts)).
  assert (Hperm : Permutation es counts).
  { unfold es. etransitivity; [apply Array_sort_perm | apply Object_entries_perm]. }
  assert (Hsorted : StronglySorted (keyLe (fun e : string * nat => (- Z.of_nat (snd e))%Z)) es).
  { unfold es. apply Array_sort_sorted. intros a b. unfold cmp. lia. }
  assert (Hval : forall k v, In (k, v) es -> v = tagOccurrences items k /\ 0 < v).
  { intros k v Hin. apply (Permutation_in _ Hperm) in Hin.
    pose proof (JsMap_In_get counts k v Hnd Hin) as Hget.
    specialize (Hocc k). unfold getOr0 in Hocc. rewrite Hget in Hocc. simpl in Hocc.
    split; [exact Hocc|]. rewrite Hocc.
    apply (count_occ_In string_dec).
    assert (Hk : In k (keysOf counts))
      by (change k with (fst (k, v)); now apply in_map).
    apply Hkeys in Hk. destruct Hk as [[]|Hk]. exact Hk. }
  assert (Hsplit : es = (firstn limit es ++ skipn limit es)%list)
    by (symmetry; apply firstn_skipn).
  assert (Hndes : NoDup (map fst es)).
  { apply (Permutation_NoDup (l := keysOf counts)); [|exact Hnd].
    symmetry. unfold keysOf. now apply Permutation_map. }
  split; [rewrite length_map; apply firstn_le_length|].
  split.
  { rewrite Hsplit, map_app in Hndes. now apply NoDup_app_remove_r in Hndes. }
  split.
  { intros t Ht. apply in_map_iff in Ht. destruct Ht as [[k v] [<- Hin]].
    assert (Hkes : In (k, v) es) by (rewrite Hsplit; apply in_or_app; now left).
    destruct (Hval k v Hkes) as [Hv Hpos]. simpl. now rewrite <- Hv. }
  intros u Hu Hout.
  assert (Hin : In (u, tagOccurrences items u) es).
  { assert (Hk : In u (keysOf counts)).
    { apply Hkeys. right. now apply (count_occ_In string_dec). }
    unfold keysOf in Hk. apply in_map_iff in Hk. destruct Hk as [[k v] [E Hk]].
    simpl in E. subst k.
    apply (Permutation_in _ (Permutation_sym Hperm)) in Hk.
    destruct (Hval u v Hk) as [<- _]. exact Hk. }
  rewrite Hsplit in Hin. apply in_app_or in Hin. destruct Hin as [Hin|Hin].
  { exfalso. apply Hout. change u with (fst (u, tagOccurrences items u)).
    now apply in_map. }
  split.
  - rewrite length_map. apply firstn_length_le.
    destruct (Nat.le_gt_cases limit (List.length es)) as [H|H]; [exact H|].
    rewrite skipn_all2 in Hin by lia. contradiction.
  - intros t Ht. apply in_map_iff in Ht. destruct Ht as [[k v] [<- Hk]].
    rewrite Hsplit in Hsorted.
    pose proof (StronglySorted_app_le _ _ _ Hsorted _ _ Hk Hin) as Hle.
    unfold keyLe in Hle. simpl in Hle.
    assert (Hkes : In (k, v) es) by (rewrite Hsplit; apply in_or_app; now left).
    destruct (Hval k v Hkes) as [Hv _]. simpl. rewrite <- Hv. lia.
Qed.

(** ** The target length *)

(** X16. The target length of the normal recipes, as a function of the number
    [n] of anecdotes: [round(0.45 n)] is [floor((9 n + 10) / 20)], clamped to
    4..8.  So the target is 4 up to nine anecdotes, 8 from seventeen on, and
    never falls when anecdotes are added. *)
Theorem targetLength_steps (n : nat) :
  targetLengthFor n = Z.min 8 (Z.max 4 ((9 * Z.of_nat n + 10) / 20))
  /\ (targetLengthFor n = 4%Z <-> n <= 9)
  /\ (targetLengthFor n = 8%Z <-> 17 <= n)
  /\ forall m, n <= m -> (targetLengthFor n <= targetLengthFor m)%Z.
Proof.
  assert (Hr : forall k : nat,
             Math_round (ofNat k * 0.45)%Q = ((9 * Z.of_nat k + 10) / 20)%Z).
  { intros k. unfold Math_round.
    assert (E : (ofNat k * 0.45 + (1 # 2) == (9 * Z.of_nat k + 10) # 20)%Q).
    { unfold ofNat. rewrite (Qmake_Qdiv (9 * Z.of_nat k + 10) 20).
      rewrite inject_Z_plus, inject_Z_mult. field. }
    rewrite (Qfloor_comp _ _ E). reflexivity. }
  assert (Hf : forall k : nat,
             targetLengthFor k = Z.min 8 (Z.max 4 ((9 * Z.of_nat k + 10) / 20))).
  { intros k. unfold targetLengthFor. now rewrite Hr. }
  assert (Hdiv : forall k : nat,
             (20 * ((9 * Z.of_nat k + 10) / 20) <= 9 * Z.of_nat k + 10
              < 20 * ((9 * Z.of_nat k + 10) / 20) + 20)%Z).
  { intros k. pose proof (Z.div_mod (9 * Z.of_nat k + 10) 20 ltac:(lia)).
    pose proof (Z.mod_pos_bound (9 * Z.of_nat k + 10) 20 ltac:(lia)). lia. }
  split; [apply Hf|]. pose proof (Hdiv n) as Hn.
  split; [rewrite Hf; split; intros; lia|].
  split; [rewrite Hf; split; intros; lia|].
  intros m Hm. rewrite !Hf. pose proof (Hdiv m) as Hm'. lia.
Qed.

(** ** The breakdowns that the loop records *)



Section RecordFacts.
Variable sorted : list AnecdoteMeta.
Variable recipe : StorylineRecipe.t.
Variable targetLength : Z.
Variable usage : JsMap.t nat.
Variable tagWeights : TagWeights.



End RecordFacts.



(** ** Two anecdotes a day apart *)





(** ** Connections, read on the anecdotes' own tags *)








(** ** Properties that depend on the order of the dates *)

Lemma Parsed_time (Date_parse : string -> option Z) (items : list AnecdoteMeta)
    (x : AnecdoteMeta) (tx : Z) :
  Forall (Parsed Date_parse) items -> In x items ->
  Date_parse (Anecdote.date x) = Some tx -> tx = _timestamp x.
Proof.
  intros Hall Hx Ht. rewrite Forall_forall in Hall. specialize (Hall x Hx).
  unfold Parsed in Hall. congruence.
Qed.

Lemma StartChoice_of_spec (Date_parse : string -> option Z) (items : list AnecdoteMeta)
    (recipe : StorylineRecipe.t) (usage : JsMap.t nat) (tagWeights : TagWeights)
    (c : AnecdoteMeta) :
  Forall (Parsed Date_parse) items ->
  pickStart items recipe usage tagWeights = Some c ->
  StartChoice Date_parse items recipe usage tagWeights c.
Proof.
  intros Hall Hc. pose proof (pickStart_spec items recipe usage tagWeights) as H.
  rewrite Hc in H. destruct H as [Hin H]. split; [exact Hin|].
  destruct (isChronological (StorylineRecipe.mode recipe)); [|exact H].
  exists (_timestamp c). split.
  - rewrite Forall_forall in Hall. exact (Hall c Hin).
  - intros x tx Hx Ht. rewrite (Parsed_time Date_parse items x tx Hall Hx Ht).
    now apply H.
Qed.

(** X9. [pickStart], for items whose dates parse.  On an empty list it
    returns nothing.  Otherwise it returns an item of the list: for a
    chronological recipe one whose date is the earliest, for any other recipe
    one whose start score (theme score plus half the impact score minus 1.4
    for each earlier use) no item exceeds. *)
Theorem pickStart_picks_best (Date_parse : string -> option Z)
    (items : list AnecdoteMeta) (recipe : StorylineRecipe.t)
    (usage : JsMap.t nat) (tagWeights : TagWeights) :
  Forall (Parsed Date_parse) items ->
  match pickStart items recipe usage tagWeights with
  | None => items = []
  | Some c => StartChoice Date_parse items recipe usage tagWeights c
  end.
Proof.
  intros Hall.
  destruct (pickStart items recipe usage tagWeights) as [c|] eqn:Hc.
  - now apply StartChoice_of_spec.
  - pose proof (pickStart_spec items recipe usage tagWeights) as H.
    now rewrite Hc in H.
Qed.

(** X10. [nearestUnused] on the items sorted by date, when the dates of the
    items and of the current beat parse.  It gives nothing only when every
    item is used.  Otherwise it gives an unused item: the earliest of those
    dated at or after the current beat when there is one, else the earliest
    unused item, and then every unused item is dated before the current
    beat. *)
Theorem nearestUnused_nearest (Date_parse : string -> option Z)
    (items : list AnecdoteMeta) (used : JsSet.t) (current : AnecdoteMeta) :
  Forall (Parsed Date_parse) (current :: items) ->
  let sorted := Array_sort byTimestamp items in
  match nearestUnused sorted used current with
  | None => forall x, In x items -> JsSet.has used (idOf x) = true
  | Some b =>
      Unused sorted used b
      /\ exists tc tb,
           Date_parse (Anecdote.date current) = Some tc
           /\ Date_parse (Anecdote.date b) = Some tb
           /\ if (tc <=? tb)%Z
              then forall x tx, Unused sorted used x ->
                     Date_parse (Anecdote.date x) = Some tx ->
                     (tc <= tx)%Z -> (tb <= tx)%Z
              else forall x tx, Unused sorted used x ->
                     Date_parse (Anecdote.date x) = Some tx ->
                     (tb <= tx < tc)%Z
  end.
Proof.
  intros Hall sorted. inversion Hall as [|? ? Hcur Hitems]; subst.
  pose proof (nearestUnused_sorted_spec items used current) as H.
  cbv zeta in H. fold sorted in H.
  destruct (nearestUnused sorted used current) as [b|]; [|exact H].
  destruct H as [Hun H]. split; [exact Hun|].
  assert (Hsorted : forall x, Unused sorted used x -> In x items).
  { intros x [Hx _]. now apply (proj1 (Array_sort_In byTimestamp items x)). }
  exists (_timestamp current), (_timestamp b).
  split; [exact Hcur|]. split.
  { rewrite Forall_forall in Hitems. apply Hitems. now apply Hsorted. }
  destruct (_timestamp current <=? _timestamp b)%Z.
  - intros x tx Hx Ht.
    rewrite (Parsed_time Date_parse items x tx Hitems (Hsorted x Hx) Ht). now apply H.
  - intros x tx Hx Ht.
    rewrite (Parsed_time Date_parse items x tx Hitems (Hsorted x Hx) Ht). now apply H.
Qed.

(** X11. [buildChain] as a whole, for items whose dates parse.  The chain is
    empty only when there are no items.  It starts with a start that
    [pickStart] may choose.  Every later beat is an item not yet in the
    chain: one with the greatest connection total to the beat before it
    among the items not yet in the chain, that total being at least 0; or,
    no such total being above 0, the item that [nearestUnused] gives.  (When
    the greatest total is exactly 0 the code decides between the two by the
    sign of the floating-point sum.) *)
Theorem buildChain_greedy (Date_parse : string -> option Z)
    (items : list AnecdoteMeta) (recipe : StorylineRecipe.t)
    (targetLength : Z) (usage : JsMap.t nat) (tagWeights : TagWeights) :
  Forall (Parsed Date_parse) items ->
  let sorted := Array_sort byTimestamp items in
  let c := chain (buildChain items recipe targetLength usage tagWeights) in
  match hd_error c with
  | None => items = []
  | Some c0 => StartChoice Date_parse items recipe usage tagWeights c0
  end
  /\ forall i p b,
       nth_error c i = Some p -> nth_error c (S i) = Some b ->
       let before := firstn (S i) c in
       let total := candidateTotal recipe usage tagWeights before p in
       let open x := In x items /\ ~ In (idOf x) (map idOf before) in
       open b
       /\ ((0 <= total b /\ forall x, open x -> total x <= total b)%Q
           \/ ((forall x, open x -> total x <= 0)%Q
               /\ nearestUnused sorted (map idOf before) p = Some b)).
Proof.
  intros Hall sorted c.
  destruct (buildChain_head_greedy items recipe targetLength usage tagWeights)
    as [Hhd Hg].
  fold sorted c in Hhd, Hg. split.
  - rewrite Hhd.
    assert (Hsorted : Forall (Parsed Date_parse) sorted).
    { rewrite Forall_forall in Hall |- *. intros x Hx. apply Hall.
      now apply (proj1 (Array_sort_In byTimestamp items x)). }
    destruct (pickStart sorted recipe usage tagWeights) as [c0|] eqn:Hc.
    + destruct (StartChoice_of_spec Date_parse sorted recipe usage tagWeights c0
                  Hsorted Hc) as [Hin Hbest].
      split; [now apply (proj1 (Array_sort_In byTimestamp items c0))|].
      destruct (isChronological (StorylineRecipe.mode recipe)).
      * destruct Hbest as [t [Ht Hleast]]. exists t. split; [exact Ht|].
        intros x tx Hx. apply Hleast.
        now apply (proj2 (Array_sort_In byTimestamp items x)).
      * intros x Hx. apply Hbest.
        now apply (proj2 (Array_sort_In byTimestamp items x)).
    + pose proof (pickStart_spec sorted recipe usage tagWeights) as H.
      rewrite Hc in H. apply (f_equal (@List.length _)) in H. unfold sorted in H.
      rewrite Array_sort_length in H. now destruct items.
  - intros i p b Hp Hb before total open.
    specialize (Hg i p b Hp Hb). unfold GreedyChoice in Hg. cbv zeta in Hg.
    fold before total in Hg.
    assert (Hopen : forall x, open x <-> Unused sorted (map idOf before) x).
    { intros x. unfold open, Unused, sorted. rewrite (Array_sort_In byTimestamp).
      unfold JsSet.has.
      destruct (JsString.mem (idOf x) (map idOf before)) eqn:Hm.
      - apply mem_In in Hm. split; intros [? ?]; [contradiction | discriminate].
      - apply mem_false in Hm. tauto. }
    destruct Hg as [Hb' Hor]. split; [now apply Hopen|].
    destruct Hor as [[H0 Hmax]|[Hneg Hn]].
    + left. split; [exact H0|]. intros x Hx. apply Hmax. now apply Hopen.
    + right. split; [|exact Hn]. intros x Hx. apply Qlt_le_weak, Hneg.
      now apply Hopen.
Qed.

(** X12. Where the chronological storylines open, when every date of the
    input parses.  A returned storyline with the id [chronicle] or [core]
    has as its first beat an anecdote of the input whose date is the
    earliest of the input, and its timeframe starts at that date. *)
Theorem chronological_storylines_open_earliest (Math_log : Q -> Q)
    (Date_getTime : string -> Z) (Date_parse : string -> option Z)
    (anecdotes : list Anecdote.t) :
  DatesParse Date_parse Date_getTime anecdotes ->
  exists l,
    generateStorylines Math_log Date_getTime anecdotes = Normal l
    /\ forall s, In s l ->
         Storyline.id s = "chronicle" \/ Storyline.id s = "core" ->
         exists first t,
           hd_error (beatAnecdotes s) = Some first
           /\ In (anecdote first) anecdotes
           /\ Timeframe.start (Storyline.timeframe s) = Anecdote.date first
           /\ Date_parse (Anecdote.date first) = Some t
           /\ forall a ta, In a anecdotes -> Date_parse (Anecdote.date a) = Some ta ->
                (t <= ta)%Z.
Proof.
  intros Hparse.
  destruct (opening_beat_least_clock Math_log Date_getTime anecdotes) as [l [Hl Hall]].
  exists l. split; [exact Hl|]. intros s Hs Hid.
  destruct (Hall s Hs Hid) as [first [Hhd [Hin [Hstart Hleast]]]].
  exists first, (Date_getTime (Anecdote.date first)).
  split; [exact Hhd|]. split; [exact Hin|]. split; [exact Hstart|].
  split; [exact (Hparse _ Hin)|].
  intros a ta Ha Hta. rewrite (Hparse a Ha) in Hta. injection Hta as <-.
  now apply Hleast.
Qed.

(** X14. The keyword counters are bounded.  [countMatches] counts at most 3
    for a keyword, whatever the text; so the impact score of an anecdote is
    at most 50. *)
Theorem keyword_counts_bounded (text : string) (keywords : list string)
    (a : AnecdoteMeta) :
  countMatches text keywords <= 3 * List.length keywords
  /\ computeImpactScore a <= 50.
Proof.
  assert (Hc : forall t ks, countMatches t ks <= 3 * List.length ks).
  { intros t ks. unfold countMatches. apply (countMatches_fold_le t ks 0). }
  split; [apply Hc|].
  unfold computeImpactScore. cbv zeta.
  pose proof (Hc (_text a) IMPACT_KEYWORDS) as Hi.
  change (List.length IMPACT_KEYWORDS) with 14 in Hi.
  destruct (JsString.mem "milestone" _), (JsString.mem "concert" _),
    (JsString.mem "festival" _), (JsString.includes _ "sold out"); lia.
Qed.

(** ** The further properties on the worked inputs *)

Lemma few_anecdotes_give_core_only_witness :
  exists s, exampleRun nextDayPair = Normal [s] /\ Storyline.id s = "core".
Proof.
  apply (few_anecdotes_give_core_only ExampleHost.Math_log IsoDate.isoDateGetTime).
  simpl. lia.
Defined.

Lemma chronicle_leads_from_three_witness :
  exists s rest,
    exampleRun backtrackInput = Normal (s :: rest)
    /\ Storyline.id s = "chronicle"
    /\ Z.of_nat (List.length (Storyline.beats s))
       = Z.min (targetLengthFor (List.length backtrackInput))
               (Z.of_nat (List.length backtrackInput))
    /\ ~ In "core" (map Storyline.id (s :: rest)).
Proof.
  apply (chronicle_leads_from_three ExampleHost.Math_log IsoDate.isoDateGetTime).
  - simpl. lia.
  - simpl. repeat constructor; simpl; intuition discriminate.
Defined.

Lemma truncate_within_limit_witness :
  let text := "The first night at the pier went on until the sun came up over the water." in
  String.length (truncate text 60) <= 60
  /\ (String.length text <= 60 -> truncate text 60 = text)
  /\ (60 < String.length text ->
      exists n,
        truncate text 60 = JsString.slice0 n text ++ "..."
        /\ String.length (truncate text 60) = n + 3
        /\ (n = 60 - 3 \/ (40 < n < 60 - 3 /\ String.get n text = Some " "%char))).
Proof.
  intros text. apply (truncate_within_limit text 60). lia.
Defined.

Lemma getTopTags_ranked_witness :
  let items := toMeta IsoDate.isoDateGetTime nextDayPair in
  let top := getTopTags items 6 in
  List.length top <= 6
  /\ NoDup top
  /\ (forall t, In t top -> 0 < tagOccurrences items t)
  /\ forall u, 0 < tagOccurrences items u -> ~ In u top ->
       List.length top = 6
       /\ forall t, In t top -> tagOccurrences items u <= tagOccurrences items t.
Proof.
  intros items. apply (getTopTags_ranked items 6).
  intros item tag Hi Ht Hbad. vm_compute in Hbad.
  destruct Hi as [<-|[<-|[]]]; vm_compute in Ht;
    destruct Ht as [<-|[<-|[]]]; intuition discriminate.
Defined.

Lemma signature_injective_without_dash_witness :
  let c := toMeta IsoDate.isoDateGetTime nextDayPair in
  map idOf c = map idOf (rev (rev c)).
Proof.
  intros c. apply signature_injective_without_dash.
  - discriminate.
  - discriminate.
  - repeat constructor.
  - reflexivity.
Defined.



(** On [mixedCasePair] the second beat is connected by the tag that the two
    anecdotes share up to case. *)
Lemma mixed_case_tags_connect :
  exists beat,
    beatAt (exampleRun mixedCasePair) 0 1 = Some beat
    /\ StorylineBeat.connection beat
       = Some {| StorylineConnection.type := ConnTag;
                 StorylineConnection.label := "#jazz" |}.
Proof. eexists. split; vm_compute; reflexivity. Qed.

Lemma pickStart_picks_best_witness :
  let items := toMeta IsoDate.isoDateGetTime backtrackInput in
  match pickStart items (fallbackRecipe []) JsMap.empty JsMap.empty with
  | None => items = []
  | Some c => StartChoice isoDateParse items (fallbackRecipe []) JsMap.empty JsMap.empty c
  end.
Proof.
  intros items. apply (pickStart_picks_best isoDateParse).
  repeat constructor.
Defined.

Lemma nearestUnused_nearest_witness :
  let items := toMeta IsoDate.isoDateGetTime nextDayPair in
  let sorted := Array_sort byTimestamp items in
  let used := [idOf nextDayPrev] in
  match nearestUnused sorted used nextDayPrev with
  | None => forall x, In x items -> JsSet.has used (idOf x) = true
  | Some b =>
      Unused sorted used b
      /\ exists tc tb,
           isoDateParse (Anecdote.date nextDayPrev) = Some tc
           /\ isoDateParse (Anecdote.date b) = Some tb
           /\ if (tc <=? tb)%Z
              then forall x tx, Unused sorted used x ->
                     isoDateParse (Anecdote.date x) = Some tx ->
                     (tc <= tx)%Z -> (tb <= tx)%Z
              else forall x tx, Unused sorted used x ->
                     isoDateParse (Anecdote.date x) = Some tx ->
                     (tb <= tx < tc)%Z
  end.
Proof.
  intros items. apply (nearestUnused_nearest isoDateParse items [idOf nextDayPrev]).
  repeat constructor.
Defined.

Lemma buildChain_greedy_witness :
  let items := toMeta IsoDate.isoDateGetTime backtrackInput in
  let recipe := fallbackRecipe [] in
  let sorted := Array_sort byTimestamp items in
  let c := chain (buildChain items recipe 4 JsMap.empty JsMap.empty) in
  match hd_error c with
  | None => items = []
  | Some c0 => StartChoice isoDateParse items recipe JsMap.empty JsMap.empty c0
  end
  /\ forall i p b,
       nth_error c i = Some p -> nth_error c (S i) = Some b ->
       let before := firstn (S i) c in
       let total := candidateTotal recipe JsMap.empty JsMap.empty before p in
       let open x := In x items /\ ~ In (idOf x) (map idOf before) in
       open b
       /\ ((0 <= total b /\ forall x, open x -> total x <= total b)%Q
           \/ ((forall x, open x -> total x <= 0)%Q
               /\ nearestUnused sorted (map idOf before) p = Some b)).
Proof.
  intros items recipe.
  apply (buildChain_greedy isoDateParse items recipe 4 JsMap.empty JsMap.empty).
  repeat constructor.
Defined.

Lemma chronological_storylines_open_earliest_witness :
  exists l,
    exampleRun backtrackInput = Normal l
    /\ forall s, In s l ->
         Storyline.id s = "chronicle" \/ Storyline.id s = "core" ->
         exists first t,
           hd_error (beatAnecdotes s) = Some first
           /\ In (anecdote first) backtrackInput
           /\ Timeframe.start (Storyline.timeframe s) = Anecdote.date first
           /\ isoDateParse (Anecdote.date first) = Some t
           /\ forall a ta, In a backtrackInput -> isoDateParse (Anecdote.date a) = Some ta ->
                (t <= ta)%Z.
Proof.
  apply (chronological_storylines_open_earliest ExampleHost.Math_log
           IsoDate.isoDateGetTime isoDateParse backtrackInput).
  intros a Ha. destruct Ha as [<-|[<-|[<-|[<-|[]]]]]; reflexivity.
Defined.
